(** * MediaPipe JNI shim: result packing, callback bridge and session lifecycle

    A shallow embedding of [build-scripts/mediapipe-patches/mediapipe_jni.cc],
    the JNI shim between the MediaPipe C task API (hand landmarker and gesture
    recognizer) and the managed callback objects, with the properties of its
    packed result format, of its callback delivery and of its handling of
    native resources. *)

From Stdlib Require Import ZArith Lia Ascii String.
From Stdlib.Strings Require Import Byte.
From Stdlib Require Import Floats.SpecFloat.
From stdpp Require Import base option list strings gmap.

(** ** C integers

    [int] and [jint] are 32-bit two's complement integers, [uint32_t] and
    [unsigned int] are 32-bit naturals.  Values are carried in [Z]; every
    operation whose result can leave the range has its wrap-around written
    out.  The loop counters and the offsets computed from them stay below
    2 * 65 + 64 by the bounds of their loops ([h < 2], [i < 21]) and are
    carried in [nat], the type of list positions. *)

Module CInt.

Definition int_min : Z := - 2 ^ 31.
Definition int_max : Z := 2 ^ 31 - 1.

(** Reduction of a mathematical integer to the [int] that represents it. *)
Definition wrap (z : Z) : Z := ((z + 2 ^ 31) mod 2 ^ 32 - 2 ^ 31)%Z.

(** [(int)u] for an unsigned 32-bit [u]. *)
Definition of_uint (u : Z) : Z := wrap u.

Definition add (a b : Z) : Z := wrap (a + b).
Definition mul (a b : Z) : Z := wrap (a * b).

End CInt.

(** ** Single-precision floats

    A [jfloat] is an IEEE 754 binary32 value: precision 24, maximal exponent
    128.  The shim never computes with floats, it stores them and converts
    the hand count; the conversion is the correctly rounded one. *)

Definition jfloat : Type := spec_float.

Definition f32_prec : Z := 24.
Definition f32_emax : Z := 128.

(** [(float)n] for an [int] n. *)
Definition float_of_int (n : Z) : jfloat :=
  binary_normalize f32_prec f32_emax n 0 false.

(** The values [0.0f], [1.0f] and [2.0f]. *)
Definition f32_zero : jfloat := S754_zero false.
Definition f32_one : jfloat := S754_finite false 8388608 (-23).
Definition f32_two : jfloat := S754_finite false 8388608 (-22).

(** ** Result structures of the MediaPipe C task API

    The structures come from the engine's headers; the fields are the ones
    the shim reads ([x], [y], [z] of a landmark are [lm_x], [lm_y], [lm_z]
    here, and the fields the two result structures share carry the prefix
    [hl_] or [gr_]).  A C array field with its [_count] companion is a list,
    and the count is the list's length as a [uint32_t].  A [char*] that may
    be null is an [option string]. *)

Record Category := {
  index : Z;
  score : jfloat;
  category_name : option string;
  display_name : option string
}.

Record Categories := { categories : list Category }.

Definition categories_count (c : Categories) : Z :=
  Z.of_nat (length (categories c)).

Record NormalizedLandmark := { lm_x : jfloat; lm_y : jfloat; lm_z : jfloat }.

Record NormalizedLandmarks := { landmarks : list NormalizedLandmark }.

Definition landmarks_count (l : NormalizedLandmarks) : nat :=
  length (landmarks l).

Record HandLandmarkerResult := {
  hl_handedness : list Categories;
  hl_hand_landmarks : list NormalizedLandmarks
}.

Record GestureRecognizerResult := {
  gr_gestures : list Categories;
  gr_handedness : list Categories;
  gr_hand_landmarks : list NormalizedLandmarks
}.

(** [MpStatus]: [kMpOk], or one of the error codes. *)
Inductive MpStatus := kMpOk | kMpError.

Global Instance MpStatus_eq_dec : EqDecision MpStatus.
Proof. solve_decision. Defined.

(** The value of a [_count] field. *)
Definition count_of {A} (l : list A) : Z := Z.of_nat (length l).

(** ** Buffers and loops *)

(** [buf[k] = v] on an array of known length; a store outside the array is a
    fault. *)
Definition store {A} (buf : list A) (k : nat) (v : A) : option (list A) :=
  if decide (k < length buf) then Some (<[k := v]> buf) else None.

(** [env->NewFloatArray(n)]: a zero-filled array, none for a negative
    length. *)
Definition NewFloatArray (n : Z) : option (list jfloat) :=
  if decide (0 ≤ n)%Z then Some (replicate (Z.to_nat n) f32_zero) else None.

(** [env->NewObjectArray(n, String, nullptr)]: every element null. *)
Definition NewObjectArray (n : Z) : option (list (option string)) :=
  if decide (0 ≤ n)%Z then Some (replicate (Z.to_nat n) None) else None.

(** [for (i = 0; i < n; i++) body], the body threading a state and able to
    fault. *)
Fixpoint for_upto {St} (n : nat) (body : nat → St → option St) (s : St)
  : option St :=
  match n with
  | O => Some s
  | S n' => s' ← for_upto n' body s; body n' s'
  end.

(** ** The per-hand fields, as both packers compute them *)

(** [name && name[0] == 'R'] *)
Definition starts_with_R (name : option string) : bool :=
  match name with
  | Some (String c _) => bool_decide (c = "R"%char)
  | _ => false
  end.

(** Lines 91-98 and 155-162: the handedness value of hand [h]. *)
Definition handedness_value (handedness : list Categories) (h : nat)
  : option jfloat :=
  if decide (Z.of_nat h < CInt.of_uint (count_of handedness))%Z then
    cs ← handedness !! h;
    if decide (categories_count cs > 0)%Z then
      c ← categories cs !! 0;
      Some (if starts_with_R (category_name c) then f32_one else f32_zero)
    else Some f32_zero
  else Some f32_zero.

(** Lines 101-106 and 181-186: the landmark loop, writing from slot [off]
    (which is [base + 1] for the landmarker and [base + 2] for the gesture
    recognizer). *)
Definition write_landmarks (off : nat) (lms : NormalizedLandmarks)
    (buf : list jfloat) : option (list jfloat) :=
  for_upto (landmarks_count lms `min` 21)
    (λ i buf,
       lm ← landmarks lms !! i;
       buf ← store buf (off + i * 3) (lm_x lm);
       buf ← store buf (off + i * 3 + 1) (lm_y lm);
       store buf (off + i * 3 + 2) (lm_z lm))
    buf.

(** Lines 165-171: the first gesture category of hand [h], if any. *)
Definition gesture_of (gestures : list Categories) (h : nat)
  : option (option string * jfloat) :=
  if decide (Z.of_nat h < CInt.of_uint (count_of gestures))%Z then
    cs ← gestures !! h;
    if decide (categories_count cs > 0)%Z then
      c ← categories cs !! 0;
      Some (category_name c, score c)
    else Some (None, f32_zero)
  else Some (None, f32_zero).

(** ** The packers *)

(** [numHands]: the hand count as an [int], capped at 2. *)
Definition num_hands (hand_landmarks_count : Z) : Z :=
  let numHands := CInt.of_uint hand_landmarks_count in
  if decide (numHands > 2)%Z then 2%Z else numHands.

(** Lines 79-109 of [hl_on_result]: the array built when the status is ok and
    the result has a hand. *)
Definition hl_pack (result : HandLandmarkerResult) : option (list jfloat) :=
  let numHands := num_hands (count_of (hl_hand_landmarks result)) in
  let arraySize := CInt.add 1 (CInt.mul numHands 64) in
  buf ← NewFloatArray arraySize;
  buf ← store buf 0 (float_of_int numHands);
  for_upto (Z.to_nat numHands)
    (λ h buf,
       let base := 1 + h * 64 in
       handednessValue ← handedness_value (hl_handedness result) h;
       buf ← store buf base handednessValue;
       lms ← hl_hand_landmarks result !! h;
       write_landmarks (base + 1) lms buf)
    buf.

(** Lines 138-189 of [gr_deliver_result]: the float array and the array of
    gesture names. *)
Definition gr_pack (result : GestureRecognizerResult)
  : option (list jfloat * list (option string)) :=
  let numHands := num_hands (count_of (gr_hand_landmarks result)) in
  let perHand := 65%Z in
  let arraySize := CInt.add 1 (CInt.mul numHands perHand) in
  buf ← NewFloatArray arraySize;
  jNames ← NewObjectArray numHands;
  buf ← store buf 0 (float_of_int numHands);
  for_upto (Z.to_nat numHands)
    (λ h '(buf, jNames),
       let base := 1 + h * 65 in
       handednessValue ← handedness_value (gr_handedness result) h;
       buf ← store buf base handednessValue;
       '(gestureName, gestureScore) ← gesture_of (gr_gestures result) h;
       buf ← store buf (base + 1) gestureScore;
       jNames ← match gestureName with
                | Some name => store jNames h (Some name)
                | None => Some jNames
                end;
       lms ← gr_hand_landmarks result !! h;
       buf ← write_landmarks (base + 2) lms buf;
       Some (buf, jNames))
    (buf, jNames).

(** Lines 76-110 of [hl_on_result]: [jResult] stays null unless the status is
    ok and the result is there and has a hand.  The outer [option] is the
    fault of the packer. *)
Definition hl_jResult (status : MpStatus)
    (result : option HandLandmarkerResult) : option (option (list jfloat)) :=
  match result with
  | Some r =>
      if decide (status = kMpOk ∧ (count_of (hl_hand_landmarks r) > 0)%Z)
      then buf ← hl_pack r; Some (Some buf)
      else Some None
  | None => Some None
  end.

(** Lines 134-190 of [gr_deliver_result]: [jResult] and [jNames] stay null
    unless the result is there and has a hand. *)
Definition gr_packed (result : option GestureRecognizerResult)
  : option (option (list jfloat * list (option string))) :=
  match result with
  | Some r =>
      if decide (count_of (gr_hand_landmarks r) > 0)%Z
      then p ← gr_pack r; Some (Some p)
      else Some None
  | None => Some None
  end.

(** ** The managed runtime and the engine, as the shim uses them

    The shim is a client of two collaborators that are not part of it: the
    managed runtime behind [JNIEnv] and [JavaVM], and the MediaPipe engine
    behind the [Mp...] C functions.  What the shim asks of them is recorded,
    in order, as a trace of events; what they own (global references, thread
    attachment, task handles, images) is kept in the state; what they answer
    where the shim cannot know the answer is an input, the [outcomes] of the
    call. *)

(** A method of a class: name and JNI signature. *)
Definition jmethodID : Type := string * string.

(** A managed object: an identity and the methods its class has. *)
Record jobject := { obj_id : nat; obj_methods : list jmethodID }.

Definition JNI_OK : Z := 0.
Definition JNI_EDETACHED : Z := -2.
Definition JNI_EVERSION : Z := -3.
Definition JNI_ERR : Z := -1.

Inductive running_mode_t := IMAGE | VIDEO | LIVE_STREAM.

(** The option fields the two create functions set; the rest is zeroed by
    [memset]. *)
Record TaskOptions := {
  model_asset_path : string;
  running_mode : running_mode_t;
  opt_num_hands : Z;
  min_hand_detection_confidence : jfloat;
  min_hand_presence_confidence : jfloat;
  min_tracking_confidence : jfloat;
  result_callback : bool
}.

(** [0.5f] *)
Definition f32_half : jfloat := S754_finite false 8388608 (-24).

(** Who has to free a live native image. *)
Inductive owner := Caller | Engine.

Global Instance owner_eq_dec : EqDecision owner.
Proof. solve_decision. Defined.

(** The arguments of a callback invocation: [onResult(float[], long)] and
    [onResult(float[], String[], long)]. *)
Inductive call_args :=
  | HlArgs (jResult : option (list jfloat)) (timestamp_ms : Z)
  | GrArgs (jResult : option (list jfloat))
           (jNames : option (list (option string))) (timestamp_ms : Z).

(** The local references the delivery functions delete: to the float array
    and to the array of names. *)
Inductive local_ref := LocalResult | LocalNames.

(** The calls the shim makes to the runtime and to the engine, with what
    they returned. *)
Inductive event :=
  | EvGetEnv (res : Z)
  | EvAttachCurrentThread (res : Z)
  | EvDetachCurrentThread
  | EvNewGlobalRef (obj : jobject) (ref : nat)
  | EvDeleteGlobalRef (ref : nat)
  | EvDeleteLocalRef (l : local_ref)
  | EvCallVoidMethod (obj : jobject) (mid : jmethodID) (args : call_args)
  | EvThrowNew (msg : string)
  | EvLandmarkerCreate (options : TaskOptions) (res : option Z)
  | EvLandmarkerClose (landmarker : Z) (live : bool)
  | EvRecognizerCreate (options : TaskOptions) (res : option Z)
  | EvRecognizerClose (recognizer : Z) (live : bool)
  | EvImageCreate (width height data_size : Z) (array_length : nat)
                  (res : option nat)
  | EvImageFree (image : nat)
  | EvDetectAsync (landmarker : Z) (image : nat) (timestamp_ms : Z)
                  (status : MpStatus)
  | EvRecognizeForVideo (recognizer : Z) (image : nat) (timestamp_ms : Z)
                        (status : MpStatus)
  | EvCloseResult.

(** The file's static variables.  A global reference is the number the
    runtime gave it. *)
Record statics := Statics {
  g_jvm : bool;
  g_hl_callback : option nat;
  g_hl_onResult : option jmethodID;
  g_gr_callback : option nat;
  g_gr_onResult : option jmethodID
}.

(** The runtime: the live global references with the object each refers to,
    the next reference to hand out, and whether the running thread is
    attached. *)
Record runtime := Runtime {
  global_refs : gmap nat jobject;
  next_ref : nat;
  attached : bool
}.

(** The engine: the live task handles, the live images with their owner, and
    the next handle and image to hand out. *)
Record engine := Engine_ {
  landmarkers : gset Z;
  recognizers : gset Z;
  next_ptr : Z;
  images : gmap nat owner;
  next_image : nat
}.

Record world := World {
  st : statics;
  rt : runtime;
  mp : engine;
  trace : list event
}.

(** What the collaborators answer during one call. *)
Record outcomes := {
  (** [GetEnv] accepts [JNI_VERSION_1_6] *)
  jni_version_ok : bool;
  (** [AttachCurrentThread] succeeds *)
  attach_ok : bool;
  (** the task create function fails, with an error message or without *)
  create_error : option (option string);
  (** [MpImageCreateFromUint8Data] accepts this width, height and size *)
  image_create_ok : Z → Z → Z → bool;
  (** status of [MpHandLandmarkerDetectAsync] *)
  detect_async_status : MpStatus;
  (** [MpGestureRecognizerRecognizeForVideo]: the result, none on error *)
  recognize_result : option GestureRecognizerResult
}.

Definition upd_st (f : statics → statics) (w : world) : world :=
  World (f (st w)) (rt w) (mp w) (trace w).
Definition upd_rt (f : runtime → runtime) (w : world) : world :=
  World (st w) (f (rt w)) (mp w) (trace w).
Definition upd_mp (f : engine → engine) (w : world) : world :=
  World (st w) (rt w) (f (mp w)) (trace w).

Definition set_g_jvm (v : bool) (s : statics) : statics :=
  Statics v (g_hl_callback s) (g_hl_onResult s) (g_gr_callback s)
          (g_gr_onResult s).
Definition set_g_hl_callback (v : option nat) (s : statics) : statics :=
  Statics (g_jvm s) v (g_hl_onResult s) (g_gr_callback s) (g_gr_onResult s).
Definition set_g_hl_onResult (v : option jmethodID) (s : statics) : statics :=
  Statics (g_jvm s) (g_hl_callback s) v (g_gr_callback s) (g_gr_onResult s).
Definition set_g_gr_callback (v : option nat) (s : statics) : statics :=
  Statics (g_jvm s) (g_hl_callback s) (g_hl_onResult s) v (g_gr_onResult s).
Definition set_g_gr_onResult (v : option jmethodID) (s : statics) : statics :=
  Statics (g_jvm s) (g_hl_callback s) (g_hl_onResult s) (g_gr_callback s) v.

Definition set_global_refs (v : gmap nat jobject) (r : runtime) : runtime :=
  Runtime v (next_ref r) (attached r).
Definition set_next_ref (v : nat) (r : runtime) : runtime :=
  Runtime (global_refs r) v (attached r).
Definition set_attached (v : bool) (r : runtime) : runtime :=
  Runtime (global_refs r) (next_ref r) v.

Definition set_landmarkers (v : gset Z) (e : engine) : engine :=
  Engine_ v (recognizers e) (next_ptr e) (images e) (next_image e).
Definition set_recognizers (v : gset Z) (e : engine) : engine :=
  Engine_ (landmarkers e) v (next_ptr e) (images e) (next_image e).
Definition set_next_ptr (v : Z) (e : engine) : engine :=
  Engine_ (landmarkers e) (recognizers e) v (images e) (next_image e).
Definition set_images (v : gmap nat owner) (e : engine) : engine :=
  Engine_ (landmarkers e) (recognizers e) (next_ptr e) v (next_image e).
Definition set_next_image (v : nat) (e : engine) : engine :=
  Engine_ (landmarkers e) (recognizers e) (next_ptr e) (images e) v.

(** *** The monad of the shim's functions: state, and a fault that ends the
    run (a call through a null reference or method, a store outside an
    array). *)

Definition M (A : Type) : Type := world → option (A * world).

Global Instance M_ret : MRet M := λ A a w, Some (a, w).
Global Instance M_bind : MBind M := λ A B f m w,
  match m w with
  | Some (a, w') => f a w'
  | None => None
  end.

Definition get {A} (f : world → A) : M A := λ w, Some (f w, w).
Definition modify (f : world → world) : M unit := λ w, Some ((), f w).
Definition emit (e : event) : M unit :=
  modify (λ w, World (st w) (rt w) (mp w) (trace w ++ [e])).
Definition fault {A} : M A := λ _, None.
Definition lift {A} (o : option A) : M A :=
  λ w, match o with Some a => Some (a, w) | None => None end.
Definition skip : M unit := mret ().

(** *** The runtime's functions the shim calls *)

(** [JavaVM::GetEnv]: [JNI_EDETACHED] on a thread that is not attached,
    else [JNI_EVERSION] for a version the runtime does not have, else
    [JNI_OK]. *)
Definition GetEnv (o : outcomes) : M Z :=
  a ← get (λ w, attached (rt w));
  let res := if (a : bool) then
               if jni_version_ok o then JNI_OK else JNI_EVERSION
             else JNI_EDETACHED in
  emit (EvGetEnv res);;
  mret res.

Definition AttachCurrentThread (o : outcomes) : M Z :=
  if attach_ok o then
    modify (upd_rt (set_attached true));;
    emit (EvAttachCurrentThread JNI_OK);;
    mret JNI_OK
  else
    emit (EvAttachCurrentThread JNI_ERR);;
    mret JNI_ERR.

Definition DetachCurrentThread : M unit :=
  modify (upd_rt (set_attached false));;
  emit EvDetachCurrentThread.

(** [NewGlobalRef]: null for a null object, else a reference never handed
    out before. *)
Definition NewGlobalRef (obj : option jobject) : M (option nat) :=
  match obj with
  | None => mret None
  | Some ob =>
      r ← get (λ w, next_ref (rt w));
      modify (upd_rt (λ j,
        set_next_ref (S r) (set_global_refs (<[r := ob]> (global_refs j)) j)));;
      emit (EvNewGlobalRef ob r);;
      mret (Some r)
  end.

Definition DeleteGlobalRef (r : nat) : M unit :=
  modify (upd_rt (λ j, set_global_refs (delete r (global_refs j)) j));;
  emit (EvDeleteGlobalRef r).

Definition DeleteLocalRef (l : local_ref) : M unit := emit (EvDeleteLocalRef l).

(** [GetObjectClass]: the class, given by its methods; a null object is a
    fault. *)
Definition GetObjectClass (obj : option jobject) : M (list jmethodID) :=
  match obj with
  | Some ob => mret (obj_methods ob)
  | None => fault
  end.

(** [GetMethodID]: null when the class has no such method. *)
Definition GetMethodID (cls : list jmethodID) (name sig : string)
  : option jmethodID :=
  if decide ((name, sig) ∈ cls) then Some (name, sig) else None.

(** [CallVoidMethod]: the method runs on the object the reference refers to;
    a null or dead reference or a null method is a fault. *)
Definition CallVoidMethod (ref : option nat) (mid : option jmethodID)
    (args : call_args) : M unit :=
  match ref, mid with
  | Some r, Some m =>
      ob ← get (λ w, global_refs (rt w) !! r);
      match ob with
      | Some ob => emit (EvCallVoidMethod ob m args)
      | None => fault
      end
  | _, _ => fault
  end.

(** *** The engine's functions the shim calls *)

(** The create functions: a handle never handed out before, or an error with
    or without a message. *)
Definition MpHandLandmarkerCreate (o : outcomes) (options : TaskOptions)
  : M (Z + option string) :=
  match create_error o with
  | None =>
      p ← get (λ w, next_ptr (mp w));
      modify (upd_mp (λ e, set_next_ptr (p + 1)
                              (set_landmarkers ({[p]} ∪ landmarkers e) e)));;
      emit (EvLandmarkerCreate options (Some p));;
      mret (inl p)
  | Some msg =>
      emit (EvLandmarkerCreate options None);;
      mret (inr msg)
  end.

Definition MpGestureRecognizerCreate (o : outcomes) (options : TaskOptions)
  : M (Z + option string) :=
  match create_error o with
  | None =>
      p ← get (λ w, next_ptr (mp w));
      modify (upd_mp (λ e, set_next_ptr (p + 1)
                              (set_recognizers ({[p]} ∪ recognizers e) e)));;
      emit (EvRecognizerCreate options (Some p));;
      mret (inl p)
  | Some msg =>
      emit (EvRecognizerCreate options None);;
      mret (inr msg)
  end.

(** The close functions free the task behind the handle.  The event records
    whether the handle was live when the engine received it. *)
Definition MpHandLandmarkerClose (landmarker : Z) : M unit :=
  live ← get (λ w, bool_decide (landmarker ∈ landmarkers (mp w)));
  modify (upd_mp (λ e, set_landmarkers (landmarkers e ∖ {[landmarker]}) e));;
  emit (EvLandmarkerClose landmarker live).

Definition MpGestureRecognizerClose (recognizer : Z) : M unit :=
  live ← get (λ w, bool_decide (recognizer ∈ recognizers (mp w)));
  modify (upd_mp (λ e, set_recognizers (recognizers e ∖ {[recognizer]}) e));;
  emit (EvRecognizerClose recognizer live).

(** [MpImageCreateFromUint8Data]: the engine receives a pointer to the
    elements and the size the caller states, never the array's length (which
    the event keeps for the record).  A created image belongs to the
    caller. *)
Definition MpImageCreateFromUint8Data (o : outcomes) (width height : Z)
    (pixels : list Byte.byte) (data_size : Z) : M (option nat) :=
  if image_create_ok o width height data_size then
    n ← get (λ w, next_image (mp w));
    modify (upd_mp (λ e, set_next_image (S n)
                            (set_images (<[n := Caller]> (images e)) e)));;
    emit (EvImageCreate width height data_size (length pixels) (Some n));;
    mret (Some n)
  else
    emit (EvImageCreate width height data_size (length pixels) None);;
    mret None.

Definition MpImageFree (image : nat) : M unit :=
  modify (upd_mp (λ e, set_images (delete image (images e)) e));;
  emit (EvImageFree image).

(** Modelled from the spec: the engine's asynchronous inference call, which
    is not part of the shim.  By the ownership contract of section 4.1, a
    submission that succeeds takes the image over, one that fails leaves it
    with the caller. *)
Definition MpHandLandmarkerDetectAsync (o : outcomes) (landmarker : Z)
    (image : nat) (timestamp_ms : Z) : M MpStatus :=
  let status := detect_async_status o in
  (if decide (status = kMpOk) then
     modify (upd_mp (λ e, set_images (<[image := Engine]> (images e)) e))
   else skip);;
  emit (EvDetectAsync landmarker image timestamp_ms status);;
  mret status.

(** Modelled from the spec: the engine's synchronous inference call, which
    is not part of the shim, under the same ownership contract. *)
Definition MpGestureRecognizerRecognizeForVideo (o : outcomes)
    (recognizer : Z) (image : nat) (timestamp_ms : Z)
  : M (option GestureRecognizerResult) :=
  match recognize_result o with
  | Some r =>
      modify (upd_mp (λ e, set_images (<[image := Engine]> (images e)) e));;
      emit (EvRecognizeForVideo recognizer image timestamp_ms kMpOk);;
      mret (Some r)
  | None =>
      emit (EvRecognizeForVideo recognizer image timestamp_ms kMpError);;
      mret None
  end.

Definition MpGestureRecognizerCloseResult : M unit := emit EvCloseResult.

(** ** The shim's functions *)

Definition throw_exception (msg : string) : M unit := emit (EvThrowNew msg).

(** [snprintf] into [char buf[512]]: at most 511 characters are kept. *)
Definition snprintf_512 (s : string) : string := String.substring 0 511 s.

(** [attach_jvm]: whether an [env] was obtained, and [needs_detach]. *)
Definition attach_jvm (o : outcomes) : M (bool * bool) :=
  result ← GetEnv o;
  if decide (result = JNI_EDETACHED) then
    rc ← AttachCurrentThread o;
    if decide (rc ≠ 0%Z) then mret (false, false)
    else mret (true, true)
  else if decide (result ≠ JNI_OK) then mret (false, false)
  else mret (true, false).

(** [hl_on_result]: the engine's result callback of the landmarker.  The
    image argument is not used. *)
Definition hl_on_result (o : outcomes) (status : MpStatus)
    (result : option HandLandmarkerResult) (timestamp_ms : Z) : M unit :=
  g ← get st;
  if bool_decide (g_jvm g = false ∨ g_hl_callback g = None) then mret ()
  else
    '(env, needs_detach) ← attach_jvm o;
    if negb env then mret ()
    else
      jResult ← lift (hl_jResult status result);
      CallVoidMethod (g_hl_callback g) (g_hl_onResult g)
                     (HlArgs jResult timestamp_ms);;
      (if jResult is Some _ then DeleteLocalRef LocalResult else skip);;
      (if (needs_detach : bool) then DetachCurrentThread else skip).

(** [gr_deliver_result]: runs on the caller's thread, which is attached. *)
Definition gr_deliver_result (result : option GestureRecognizerResult)
    (timestamp_ms : Z) : M unit :=
  packed ← lift (gr_packed result);
  let jResult := fst <$> packed in
  let jNames := snd <$> packed in
  g ← get st;
  CallVoidMethod (g_gr_callback g) (g_gr_onResult g)
                 (GrArgs jResult jNames timestamp_ms);;
  (if jResult is Some _ then DeleteLocalRef LocalResult else skip);;
  (if jNames is Some _ then DeleteLocalRef LocalNames else skip).

Definition JNI_VERSION_1_6 : Z := 65542.

Definition JNI_OnLoad : M Z :=
  modify (upd_st (set_g_jvm true));;
  mret JNI_VERSION_1_6.

Definition hl_options (model : string) : TaskOptions :=
  {| model_asset_path := model;
     running_mode := LIVE_STREAM;
     opt_num_hands := 2;
     min_hand_detection_confidence := f32_half;
     min_hand_presence_confidence := f32_half;
     min_tracking_confidence := f32_half;
     result_callback := true |}.

Definition gr_options (model : string) (numHands : Z) : TaskOptions :=
  {| model_asset_path := model;
     running_mode := VIDEO;
     opt_num_hands := numHands;
     min_hand_detection_confidence := f32_half;
     min_hand_presence_confidence := f32_half;
     min_tracking_confidence := f32_half;
     result_callback := false |}.

Definition error_text (error_msg : option string) : string :=
  match error_msg with Some m => m | None => "unknown error" end.

(** [nativeCreateLandmarker]: the handle, 0 after an exception was thrown. *)
Definition nativeCreateLandmarker (o : outcomes) (modelPath : string)
    (callback : option jobject) : M Z :=
  old ← get (λ w, g_hl_callback (st w));
  (if old is Some r then DeleteGlobalRef r else skip);;
  r ← NewGlobalRef callback;
  modify (upd_st (set_g_hl_callback r));;
  callbackClass ← GetObjectClass callback;
  let mid := GetMethodID callbackClass "onResult" "([FJ)V" in
  modify (upd_st (set_g_hl_onResult mid));;
  if mid is None then
    throw_exception "ResultCallback.onResult([FJ)V method not found";;
    mret 0%Z
  else
    created ← MpHandLandmarkerCreate o (hl_options modelPath);
    match created with
    | inr error_msg =>
        throw_exception
          (snprintf_512 ("MpHandLandmarkerCreate failed: "
                         +:+ error_text error_msg));;
        mret 0%Z
    | inl landmarker => mret landmarker
    end.

(** [nativeDetectAsync] *)
Definition nativeDetectAsync (o : outcomes) (landmarkerPtr : Z)
    (pixelData : list Byte.byte) (width height timestampMs : Z) : M unit :=
  let dataSize := CInt.mul (CInt.mul width height) 3 in
  image ← MpImageCreateFromUint8Data o width height pixelData dataSize;
  match image with
  | None => mret ()
  | Some image =>
      status ← MpHandLandmarkerDetectAsync o landmarkerPtr image timestampMs;
      if decide (status ≠ kMpOk) then MpImageFree image else skip
  end.

(** [nativeCloseLandmarker] *)
Definition nativeCloseLandmarker (landmarkerPtr : Z) : M unit :=
  MpHandLandmarkerClose landmarkerPtr;;
  g ← get (λ w, g_hl_callback (st w));
  if g is Some r then
    DeleteGlobalRef r;;
    modify (upd_st (set_g_hl_callback None));;
    modify (upd_st (set_g_hl_onResult None))
  else skip.

(** [nativeCreateGestureRecognizer] *)
Definition nativeCreateGestureRecognizer (o : outcomes) (modelPath : string)
    (numHands : Z) (callback : option jobject) : M Z :=
  old ← get (λ w, g_gr_callback (st w));
  (if old is Some r then DeleteGlobalRef r else skip);;
  r ← NewGlobalRef callback;
  modify (upd_st (set_g_gr_callback r));;
  callbackClass ← GetObjectClass callback;
  let mid := GetMethodID callbackClass "onResult"
                         "([F[Ljava/lang/String;J)V" in
  modify (upd_st (set_g_gr_onResult mid));;
  if mid is None then
    throw_exception
      "GestureCallback.onResult([F[Ljava/lang/String;J)V not found";;
    mret 0%Z
  else
    created ← MpGestureRecognizerCreate o (gr_options modelPath numHands);
    match created with
    | inr error_msg =>
        throw_exception
          (snprintf_512 ("MpGestureRecognizerCreate failed: "
                         +:+ error_text error_msg));;
        mret 0%Z
    | inl recognizer => mret recognizer
    end.

(** [nativeRecognizeGestureForVideo]: [JNI_TRUE] or [JNI_FALSE]. *)
Definition nativeRecognizeGestureForVideo (o : outcomes) (recognizerPtr : Z)
    (pixelData : list Byte.byte) (width height timestampMs : Z) : M bool :=
  let dataSize := CInt.mul (CInt.mul width height) 3 in
  image ← MpImageCreateFromUint8Data o width height pixelData dataSize;
  match image with
  | None => mret false
  | Some image =>
      result ← MpGestureRecognizerRecognizeForVideo
                 o recognizerPtr image timestampMs;
      match result with
      | None => mret false
      | Some result =>
          gr_deliver_result (Some result) timestampMs;;
          MpGestureRecognizerCloseResult;;
          mret true
      end
  end.

(** [nativeCloseGestureRecognizer] *)
Definition nativeCloseGestureRecognizer (recognizerPtr : Z) : M unit :=
  MpGestureRecognizerClose recognizerPtr;;
  g ← get (λ w, g_gr_callback (st w));
  if g is Some r then
    DeleteGlobalRef r;;
    modify (upd_st (set_g_gr_callback None));;
    modify (upd_st (set_g_gr_onResult None))
  else skip.

(** ** Sequences of calls

    The managed side calls the exported functions on threads that are
    attached; the engine calls [hl_on_result] on a thread of its own, which
    may or may not be attached. *)

Inductive call :=
  | OnLoad
  | CreateLandmarker (modelPath : string) (callback : option jobject)
  | DetectAsync (landmarkerPtr : Z) (pixelData : list Byte.byte)
                (width height timestampMs : Z)
  | CloseLandmarker (landmarkerPtr : Z)
  | CreateGestureRecognizer (modelPath : string) (numHands : Z)
                            (callback : option jobject)
  | RecognizeGestureForVideo (recognizerPtr : Z) (pixelData : list Byte.byte)
                             (width height timestampMs : Z)
  | CloseGestureRecognizer (recognizerPtr : Z)
  | ResultReady (thread_attached : bool) (status : MpStatus)
                (result : option HandLandmarkerResult) (timestamp_ms : Z).

Definition on_thread (a : bool) : M unit := modify (upd_rt (set_attached a)).

Definition step (oc : outcomes * call) : M unit :=
  let o := oc.1 in
  match oc.2 with
  | OnLoad => on_thread true;; JNI_OnLoad;; skip
  | CreateLandmarker p cb =>
      on_thread true;; nativeCreateLandmarker o p cb;; skip
  | DetectAsync h px wd ht ts =>
      on_thread true;; nativeDetectAsync o h px wd ht ts
  | CloseLandmarker h => on_thread true;; nativeCloseLandmarker h
  | CreateGestureRecognizer p n cb =>
      on_thread true;; nativeCreateGestureRecognizer o p n cb;; skip
  | RecognizeGestureForVideo h px wd ht ts =>
      on_thread true;; nativeRecognizeGestureForVideo o h px wd ht ts;; skip
  | CloseGestureRecognizer h => on_thread true;; nativeCloseGestureRecognizer h
  | ResultReady a status result ts =>
      on_thread a;; hl_on_result o status result ts
  end.

Fixpoint run (cs : list (outcomes * call)) : M unit :=
  match cs with
  | [] => skip
  | c :: cs => step c;; run cs
  end.

(** The state when the library is loaded: no static set, nothing live. *)
Definition initial : world :=
  World (Statics false None None None None)
        (Runtime ∅ 0 false)
        (Engine_ ∅ ∅ 1 ∅ 0)
        [].

(** The object a delivery of the landmarker, and of the gesture recognizer,
    is sent to. *)
Definition hl_target (w : world) : option jobject :=
  r ← g_hl_callback (st w); global_refs (rt w) !! r.
Definition gr_target (w : world) : option jobject :=
  r ← g_gr_callback (st w); global_refs (rt w) !! r.

(** ** Vocabulary of the statements *)

(** A result of either engine task, to state what the two packers share. *)
Inductive engine_result :=
  | LandmarkResult (r : HandLandmarkerResult)
  | GestureResult (r : GestureRecognizerResult).

Definition hands_of (res : engine_result) : list NormalizedLandmarks :=
  match res with
  | LandmarkResult r => hl_hand_landmarks r
  | GestureResult r => gr_hand_landmarks r
  end.

Definition handedness_of (res : engine_result) : list Categories :=
  match res with
  | LandmarkResult r => hl_handedness r
  | GestureResult r => gr_handedness r
  end.

(** The float array the packer of the variant builds. *)
Definition packed_buffer (res : engine_result) : option (list jfloat) :=
  match res with
  | LandmarkResult r => hl_pack r
  | GestureResult r => fst <$> gr_pack r
  end.

(** Slots per hand, and the offset of the first landmark within a hand. *)
Definition stride (res : engine_result) : nat :=
  match res with LandmarkResult _ => 64 | GestureResult _ => 65 end.

Definition landmark_offset (res : engine_result) : nat :=
  match res with LandmarkResult _ => 1 | GestureResult _ => 2 end.

(** The number of hands that are packed. *)
Definition packed_hands (res : engine_result) : nat :=
  length (hands_of res) `min` 2.

(** The first category of entry [h] of a category array, none when the
    array has no entry [h] or the entry has no category. *)
Definition first_category (cats : list Categories) (h : nat)
  : option Category :=
  cs ← cats !! h; categories cs !! 0.

(** The three coordinates the landmark loop leaves for point [i]: those of
    the point, zero when the hand has no such point. *)
Definition coords_at (lms : NormalizedLandmarks) (i : nat)
  : jfloat * jfloat * jfloat :=
  match landmarks lms !! i with
  | Some lm => (lm_x lm, lm_y lm, lm_z lm)
  | None => (f32_zero, f32_zero, f32_zero)
  end.

Definition landmarks_at (buf : list jfloat) (off : nat)
    (lms : NormalizedLandmarks) : Prop :=
  ∀ i, i < 21 →
    buf !! (off + i * 3) = Some (coords_at lms i).1.1
    ∧ buf !! (off + i * 3 + 1) = Some (coords_at lms i).1.2
    ∧ buf !! (off + i * 3 + 2) = Some (coords_at lms i).2.

(** A result cut down to the first 21 points of every hand. *)
Definition first_21 (lms : NormalizedLandmarks) : NormalizedLandmarks :=
  {| landmarks := take 21 (landmarks lms) |}.

Definition truncate_points (res : engine_result) : engine_result :=
  match res with
  | LandmarkResult r =>
      LandmarkResult
        {| hl_handedness := hl_handedness r;
           hl_hand_landmarks := first_21 <$> hl_hand_landmarks r |}
  | GestureResult r =>
      GestureResult
        {| gr_gestures := gr_gestures r;
           gr_handedness := gr_handedness r;
           gr_hand_landmarks := first_21 <$> gr_hand_landmarks r |}
  end.

(** The state with more events in its trace. *)
Definition log (t : list event) (w : world) : world :=
  World (st w) (rt w) (mp w) (trace w ++ t).

(** The release of the per-call reference to the float array, when there is
    one. *)
Definition release (jResult : option (list jfloat)) : list event :=
  if jResult is Some _ then [EvDeleteLocalRef LocalResult] else [].

(** The landmarker's callback is set up: its reference is live and its
    method is resolved. *)
Definition hl_ready (w : world) : Prop :=
  ∀ r, g_hl_callback (st w) = Some r →
       is_Some (global_refs (rt w) !! r) ∧ is_Some (g_hl_onResult (st w)).

(** The hand count of a result, when there is one, is one the [int] cast
    preserves. *)
Definition countable_hands (result : option HandLandmarkerResult) : Prop :=
  ∀ r, result = Some r → (count_of (hl_hand_landmarks r) < 2 ^ 31)%Z.

(** An invocation of a callback. *)
Definition is_call (e : event) : bool :=
  match e with
  | EvCallVoidMethod _ _ _ => true
  | _ => false
  end.

(** The events of a delivery, by the state of the thread and the answers of
    the runtime. *)
Definition delivery_events (o : outcomes) (was_attached : bool)
    (cb : jobject) (mid : jmethodID) (jResult : option (list jfloat))
    (ts : Z) : list event :=
  if was_attached then
    if jni_version_ok o
    then [EvGetEnv JNI_OK; EvCallVoidMethod cb mid (HlArgs jResult ts)]
         ++ release jResult
    else [EvGetEnv JNI_EVERSION]
  else
    if attach_ok o
    then [EvGetEnv JNI_EDETACHED; EvAttachCurrentThread JNI_OK;
          EvCallVoidMethod cb mid (HlArgs jResult ts)]
         ++ release jResult ++ [EvDetachCurrentThread]
    else [EvGetEnv JNI_EDETACHED; EvAttachCurrentThread JNI_ERR].

(** The references and the statics are in order: the live global references
    are exactly the ones the two callback statics hold (so at most one for
    the landmarker and at most one for the gesture recognizer, and neither
    static holds a dead reference), every live reference was handed out
    before the next one, and the two statics never hold the same
    reference. *)
Definition refs_inv (w : world) : Prop :=
  (∀ r, is_Some (global_refs (rt w) !! r)
        ↔ g_hl_callback (st w) = Some r ∨ g_gr_callback (st w) = Some r)
  ∧ (∀ r, is_Some (global_refs (rt w) !! r) → r < next_ref (rt w))
  ∧ (∀ r, g_hl_callback (st w) = Some r → g_gr_callback (st w) ≠ Some r).

(** Every invocation of the landmarker's callback shape in [t], and of the
    gesture recognizer's, is on the object [cb]. *)
Definition hl_calls_to (cb : jobject) (t : list event) : Prop :=
  ∀ ob mid jResult ts,
    EvCallVoidMethod ob mid (HlArgs jResult ts) ∈ t → ob = cb.

Definition gr_calls_to (cb : jobject) (t : list event) : Prop :=
  ∀ ob mid jResult jNames ts,
    EvCallVoidMethod ob mid (GrArgs jResult jNames ts) ∈ t → ob = cb.

(** Calls that register no callback for the landmarker and close none, and
    the same for the gesture recognizer. *)
Definition keeps_hl_callback (oc : outcomes * call) : Prop :=
  match oc.2 with
  | CreateLandmarker _ _ | CloseLandmarker _ => False
  | _ => True
  end.

Definition keeps_gr_callback (oc : outcomes * call) : Prop :=
  match oc.2 with
  | CreateGestureRecognizer _ _ _ | CloseGestureRecognizer _ => False
  | _ => True
  end.

(** The release of the reference a static holds, when it holds one. *)
Definition release_old (old : option nat) : list event :=
  if old is Some r then [EvDeleteGlobalRef r] else [].

(** Two states with the same callback statics and the same references. *)
Definition same_refs (w w' : world) : Prop :=
  g_hl_callback (st w') = g_hl_callback (st w)
  ∧ g_gr_callback (st w') = g_gr_callback (st w)
  ∧ global_refs (rt w') = global_refs (rt w)
  ∧ next_ref (rt w') = next_ref (rt w).

(** What a step may add to the trace: invocations of the landmarker's shape
    go to the landmarker's target, those of the gesture recognizer's shape to
    the gesture recognizer's target. *)
Definition calls_on_targets (w : world) (t : list event) : Prop :=
  ∀ ob mid args, EvCallVoidMethod ob mid args ∈ t →
    match args with
    | HlArgs _ _ => hl_target w = Some ob
    | GrArgs _ _ _ => gr_target w = Some ob
    end.

(** The references after a registration: the old one deleted, the new one
    added. *)
Definition replaced (old : option nat) (r : nat) (cb : jobject)
    (refs : gmap nat jobject) : gmap nat jobject :=
  <[r := cb]> (if old is Some r0 then delete r0 refs else refs).

(** ** Sample inputs *)

Definition sample_point (a b c : Z) : NormalizedLandmark :=
  {| lm_x := float_of_int a;
     lm_y := float_of_int b;
     lm_z := float_of_int c |}.

Definition sample_category (name : option string) (s : jfloat) : Category :=
  {| index := 0; score := s; category_name := name; display_name := None |}.

Definition sample_hand : NormalizedLandmarks :=
  {| landmarks := [sample_point 1 2 3; sample_point 4 5 6] |}.

(** A gesture result that reports five hands. *)
Definition five_hands : GestureRecognizerResult :=
  {| gr_gestures :=
       [ {| categories := [sample_category (Some "Fist") f32_half] |} ];
     gr_handedness :=
       [ {| categories := [sample_category (Some "Right") f32_one] |};
         {| categories := [sample_category (Some "Left") f32_one] |} ];
     gr_hand_landmarks := replicate 5 sample_hand |}.

(** A landmarker result with one right hand. *)
Definition one_hand : HandLandmarkerResult :=
  {| hl_handedness :=
       [ {| categories := [sample_category (Some "Right") f32_one] |} ];
     hl_hand_landmarks := [sample_hand] |}.

(** The pixels of a frame of width 1 and height 1. *)
Definition one_pixel : list Byte.byte := [x10; x20; x30]%byte.

(** Callback objects of the two shapes. *)
Definition hl_callback_object : jobject :=
  {| obj_id := 1; obj_methods := [("onResult", "([FJ)V")] |}.

Definition gr_callback_object : jobject :=
  {| obj_id := 2;
     obj_methods := [("onResult", "([F[Ljava/lang/String;J)V")] |}.

(** Collaborators that accept everything: the engine takes an image whose
    stated size is width * height * 3. *)
Definition all_ok : outcomes :=
  {| jni_version_ok := true;
     attach_ok := true;
     create_error := None;
     image_create_ok := λ w h s,
       bool_decide ((0 < w)%Z ∧ (0 < h)%Z ∧ s = (w * h * 3)%Z);
     detect_async_status := kMpOk;
     recognize_result := Some five_hands |}.

(** A gesture result without hands, and collaborators whose recognizer
    returns it. *)
Definition no_hands : GestureRecognizerResult :=
  {| gr_gestures := []; gr_handedness := []; gr_hand_landmarks := [] |}.

Definition finds_no_hand : outcomes :=
  {| jni_version_ok := true;
     attach_ok := true;
     create_error := None;
     image_create_ok := image_create_ok all_ok;
     detect_async_status := kMpOk;
     recognize_result := Some no_hands |}.

(** The same, with an inference call that fails. *)
Definition inference_fails : outcomes :=
  {| jni_version_ok := true;
     attach_ok := true;
     create_error := None;
     image_create_ok := image_create_ok all_ok;
     detect_async_status := kMpError;
     recognize_result := None |}.

(** The state a sequence of calls leaves, from the initial one. *)
Definition world_after (cs : list (outcomes * call)) : world :=
  match run cs initial with
  | Some (_, w) => w
  | None => initial
  end.

(** A second callback object of the landmarker's shape. *)
Definition second_callback_object : jobject :=
  {| obj_id := 3; obj_methods := [("onResult", "([FJ)V")] |}.

(** The calls that lead to a session of each kind, and the state they
    leave. *)
Definition landmarker_calls : list (outcomes * call) :=
  [(all_ok, OnLoad);
   (all_ok,
    CreateLandmarker "hand_landmarker.task" (Some hl_callback_object))].

Definition gesture_calls : list (outcomes * call) :=
  [(all_ok, OnLoad);
   (all_ok, CreateGestureRecognizer "gesture_recognizer.task" 2
                                    (Some gr_callback_object))].

Definition landmarker_session : world := world_after landmarker_calls.

Definition gesture_session : world := world_after gesture_calls.

(** ** Vocabulary of the properties of registration, delivery and images *)

(** The method of each callback shape. *)
Definition hl_onResult_id : jmethodID := ("onResult", "([FJ)V").
Definition gr_onResult_id : jmethodID :=
  ("onResult", "([F[Ljava/lang/String;J)V").

(** The state lines 216-222 of [nativeCreateLandmarker] leave: the reference
    held before is released, a reference to the callback object is made and
    stored, and the method found in its class, or null, is stored. *)
Definition hl_registered (cb : jobject) (w : world) : world :=
  World (Statics (g_jvm (st w)) (Some (next_ref (rt w)))
                 (GetMethodID (obj_methods cb) "onResult" "([FJ)V")
                 (g_gr_callback (st w)) (g_gr_onResult (st w)))
        (Runtime (replaced (g_hl_callback (st w)) (next_ref (rt w)) cb
                           (global_refs (rt w)))
                 (S (next_ref (rt w))) (attached (rt w)))
        (mp w)
        (trace w ++ release_old (g_hl_callback (st w))
                 ++ [EvNewGlobalRef cb (next_ref (rt w))]).

(** The same for lines 313-321 of [nativeCreateGestureRecognizer]. *)
Definition gr_registered (cb : jobject) (w : world) : world :=
  World (Statics (g_jvm (st w)) (g_hl_callback (st w)) (g_hl_onResult (st w))
                 (Some (next_ref (rt w)))
                 (GetMethodID (obj_methods cb) "onResult"
                              "([F[Ljava/lang/String;J)V"))
        (Runtime (replaced (g_gr_callback (st w)) (next_ref (rt w)) cb
                           (global_refs (rt w)))
                 (S (next_ref (rt w))) (attached (rt w)))
        (mp w)
        (trace w ++ release_old (g_gr_callback (st w))
                 ++ [EvNewGlobalRef cb (next_ref (rt w))]).

(** The engine after it handed out its next handle, for a landmarker and
    for a gesture recognizer. *)
Definition with_landmarker (e : engine) : engine :=
  Engine_ ({[next_ptr e]} ∪ landmarkers e) (recognizers e) (next_ptr e + 1)
          (images e) (next_image e).

Definition with_recognizer (e : engine) : engine :=
  Engine_ (landmarkers e) ({[next_ptr e]} ∪ recognizers e) (next_ptr e + 1)
          (images e) (next_image e).

(** The messages of the exceptions. *)
Definition hl_not_found : string :=
  "ResultCallback.onResult([FJ)V method not found".
Definition gr_not_found : string :=
  "GestureCallback.onResult([F[Ljava/lang/String;J)V not found".
Definition hl_create_failed (error_msg : option string) : string :=
  "MpHandLandmarkerCreate failed: " +:+ error_text error_msg.
Definition gr_create_failed (error_msg : option string) : string :=
  "MpGestureRecognizerCreate failed: " +:+ error_text error_msg.


Definition is_hl_call (e : event) : bool :=
  match e with
  | EvCallVoidMethod _ _ (HlArgs _ _) => true
  | _ => false
  end.

(** Whether an [env] can be had on the thread of a delivery. *)
Definition env_available (o : outcomes) (w : world) : bool :=
  if attached (rt w) then jni_version_ok o else attach_ok o.

(** The data size both frame functions compute (lines 266 and 370). *)
Definition dataSize (width height : Z) : Z :=
  CInt.mul (CInt.mul width height) 3.

(** The images of a trace, in the order of their events: the ones freed, the
    ones whose asynchronous submission failed, and the ones handed to the
    asynchronous and to the synchronous inference call. *)
Definition freed (t : list event) : list nat :=
  omap (λ e, if e is EvImageFree i then Some i else None) t.

Definition rejected (t : list event) : list nat :=
  omap (λ e, match e with
             | EvDetectAsync _ i _ kMpError => Some i
             | _ => None
             end) t.

Definition async_images (t : list event) : list nat :=
  omap (λ e, if e is EvDetectAsync _ i _ _ then Some i else None) t.

Definition sync_images (t : list event) : list nat :=
  omap (λ e, if e is EvRecognizeForVideo _ i _ _ then Some i else None) t.

(** The events that create, free or submit an image. *)
Definition touches_image (e : event) : bool :=
  match e with
  | EvImageCreate _ _ _ _ _ | EvImageFree _ | EvDetectAsync _ _ _ _
  | EvRecognizeForVideo _ _ _ _ => true
  | _ => false
  end.

(** Calls other than the load of the library, and other than the creation
    of a landmarker. *)
Definition loads_not (oc : outcomes * call) : Prop :=
  match oc.2 with
  | OnLoad => False
  | _ => True
  end.

Definition creates_no_landmarker (oc : outcomes * call) : Prop :=
  match oc.2 with
  | CreateLandmarker _ _ => False
  | _ => True
  end.




(** The gesture categories of a result: the landmarker has none. *)
Definition gestures_of (res : engine_result) : list Categories :=
  match res with
  | LandmarkResult _ => []
  | GestureResult r => gr_gestures r
  end.

(** A result cut down to the first two entries of each of its arrays. *)
Definition first_two (res : engine_result) : engine_result :=
  match res with
  | LandmarkResult r =>
      LandmarkResult
        {| hl_handedness := take 2 (hl_handedness r);
           hl_hand_landmarks := take 2 (hl_hand_landmarks r) |}
  | GestureResult r =>
      GestureResult
        {| gr_gestures := take 2 (gr_gestures r);
           gr_handedness := take 2 (gr_handedness r);
           gr_hand_landmarks := take 2 (gr_hand_landmarks r) |}
  end.

(** The label array of a result: the one the gesture recognizer's packer
    builds, none for the landmarker. *)
Definition packed_names (res : engine_result)
  : option (list (option string)) :=
  match res with
  | LandmarkResult _ => None
  | GestureResult r => snd <$> gr_pack r
  end.

(** The hands and the handedness of a gesture result, as a landmarker
    result. *)
Definition landmark_view (r : GestureRecognizerResult)
  : HandLandmarkerResult :=
  {| hl_handedness := gr_handedness r;
     hl_hand_landmarks := gr_hand_landmarks r |}.

(** ** Further sample inputs *)

(** An engine whose create functions fail, with a message. *)
Definition create_fails : outcomes :=
  {| jni_version_ok := true;
     attach_ok := true;
     create_error := Some (Some "model not found");
     image_create_ok := image_create_ok all_ok;
     detect_async_status := kMpOk;
     recognize_result := Some five_hands |}.

(** The state after the library is loaded. *)
Definition loaded : world := world_after [(all_ok, OnLoad)].


(** A landmarker session and a gesture session, with handles 1 and 2. *)
Definition both_sessions : world :=
  world_after
    [(all_ok, OnLoad);
     (all_ok,
      CreateLandmarker "hand_landmarker.task" (Some hl_callback_object));
     (all_ok, CreateGestureRecognizer "gesture_recognizer.task" 2
                                      (Some gr_callback_object))].


(** A landmarker result with three hands. *)
Definition three_hands : HandLandmarkerResult :=
  {| hl_handedness :=
       [ {| categories := [sample_category (Some "Right") f32_one] |};
         {| categories := [sample_category (Some "Left") f32_one] |};
         {| categories := [sample_category (Some "Right") f32_one] |} ];
     hl_hand_landmarks := replicate 3 sample_hand |}.

(** Frames of a landmarker session and of a gesture session, one of each
    with an inference call that fails. *)
Definition mixed_frames : list (outcomes * call) :=
  [(all_ok, DetectAsync 1 one_pixel 1 1 1);
   (inference_fails, DetectAsync 1 one_pixel 1 1 2);
   (all_ok, RecognizeGestureForVideo 2 one_pixel 1 1 3);
   (inference_fails, RecognizeGestureForVideo 2 one_pixel 1 1 4)].

(** * Properties *)

(** ** Float constants *)

Lemma float_of_int_0 : float_of_int 0 = f32_zero.
Proof. reflexivity. Qed.

Lemma float_of_int_1 : float_of_int 1 = f32_one.
Proof. reflexivity. Qed.

Lemma float_of_int_2 : float_of_int 2 = f32_two.
Proof. reflexivity. Qed.

(** ** Integer casts *)

Lemma CInt_wrap_small z :
  (CInt.int_min ≤ z ≤ CInt.int_max)%Z → CInt.wrap z = z.
Proof.
  unfold CInt.wrap, CInt.int_min, CInt.int_max. intros Hz.
  rewrite Z.mod_small by lia. lia.
Qed.

Lemma CInt_of_uint_small u : (0 ≤ u < 2 ^ 31)%Z → CInt.of_uint u = u.
Proof.
  intros Hu. apply CInt_wrap_small. unfold CInt.int_min, CInt.int_max. lia.
Qed.

Lemma CInt_of_uint_le u : (0 ≤ u)%Z → (CInt.of_uint u ≤ u)%Z.
Proof.
  intros Hu. unfold CInt.of_uint, CInt.wrap.
  pose proof (Z.mod_le (u + 2 ^ 31) (2 ^ 32)) as Hle. lia.
Qed.

(** The capped hand count, for a count the cast preserves. *)
Lemma num_hands_small c :
  (0 ≤ c < 2 ^ 31)%Z → num_hands c = Z.min c 2.
Proof.
  intros Hc. unfold num_hands. rewrite CInt_of_uint_small by done.
  case_decide; lia.
Qed.

Lemma array_size_small n stride :
  (0 ≤ n ≤ 2)%Z → (0 ≤ stride ≤ 65)%Z →
  CInt.add 1 (CInt.mul n stride) = (1 + n * stride)%Z.
Proof.
  intros Hn Hs. unfold CInt.add, CInt.mul.
  rewrite (CInt_wrap_small (n * stride)).
  - apply CInt_wrap_small. unfold CInt.int_min, CInt.int_max. nia.
  - unfold CInt.int_min, CInt.int_max. nia.
Qed.

(** ** Stores and loops *)

Lemma store_Some {A} (buf : list A) k v :
  k < length buf → store buf k v = Some (<[k := v]> buf).
Proof. intros Hk. unfold store. by rewrite decide_True. Qed.

(** A loop that keeps an invariant runs to its end and establishes it. *)
Lemma for_upto_inv {St} (P : nat → St → Prop) n
    (body : nat → St → option St) s :
  P 0 s →
  (∀ i s, i < n → P i s → ∃ s', body i s = Some s' ∧ P (S i) s') →
  ∃ s', for_upto n body s = Some s' ∧ P n s'.
Proof.
  intros H0 Hstep. induction n as [|n IH]; simpl.
  - eauto.
  - destruct IH as (s1 & -> & HP); [intros; apply Hstep; [lia|done]|].
    simpl. apply Hstep; [lia|done].
Qed.

(** ** The landmark loop *)

Lemma write_landmarks_spec off lms (buf : list jfloat) :
  off + 63 ≤ length buf →
  (∀ k, off ≤ k < off + 63 → buf !! k = Some f32_zero) →
  ∃ buf', write_landmarks off lms buf = Some buf'
    ∧ length buf' = length buf
    ∧ (∀ k, k < off ∨ off + 63 ≤ k → buf' !! k = buf !! k)
    ∧ landmarks_at buf' off lms.
Proof.
  intros Hlen Hzero. unfold write_landmarks.
  set (n := landmarks_count lms `min` 21).
  destruct (for_upto_inv
    (λ m (b : list jfloat),
       length b = length buf
       ∧ (∀ k, k < off ∨ off + m * 3 ≤ k → b !! k = buf !! k)
       ∧ (∀ i, i < m →
            b !! (off + i * 3) = Some (coords_at lms i).1.1
            ∧ b !! (off + i * 3 + 1) = Some (coords_at lms i).1.2
            ∧ b !! (off + i * 3 + 2) = Some (coords_at lms i).2))
    n
    (λ i buf,
       lm ← landmarks lms !! i;
       buf ← store buf (off + i * 3) (lm_x lm);
       buf ← store buf (off + i * 3 + 1) (lm_y lm);
       store buf (off + i * 3 + 2) (lm_z lm))
    buf) as (buf' & Hrun & Hl & Hframe & Hval).
  - split_and!; [done|done|intros; lia].
  - intros i b Hi (Hl & Hframe & Hval).
    assert (i < landmarks_count lms ∧ i < 21) as [Hic Hi21] by (subst n; lia).
    destruct (lookup_lt_is_Some_2 (landmarks lms) i Hic) as [lm Hlm].
    rewrite Hlm. simpl.
    rewrite store_Some by lia. simpl.
    rewrite store_Some by (rewrite length_insert; lia). simpl.
    rewrite store_Some by (rewrite !length_insert; lia).
    eexists; split; [done|].
    split_and!.
    + by rewrite !length_insert.
    + intros k Hk. rewrite !list_lookup_insert_ne by lia. apply Hframe. lia.
    + intros j Hj. destruct (decide (j = i)) as [->|Hne].
      * unfold coords_at. rewrite Hlm. simpl. split_and!.
        -- rewrite !list_lookup_insert_ne by lia.
           by rewrite list_lookup_insert_eq by lia.
        -- rewrite list_lookup_insert_ne by lia.
           by rewrite list_lookup_insert_eq by (rewrite ?length_insert; lia).
        -- by rewrite list_lookup_insert_eq by (rewrite ?length_insert; lia).
      * rewrite !list_lookup_insert_ne by lia. apply Hval. lia.
  - exists buf'. split_and!; [done|done| |].
    + intros k Hk. apply Hframe. subst n. lia.
    + intros i Hi. destruct (decide (i < n)) as [Hin|Hin]; [by apply Hval|].
      assert (landmarks lms !! i = None) as Hnone.
      { apply lookup_ge_None. unfold landmarks_count in *. subst n. lia. }
      unfold coords_at. rewrite Hnone. simpl.
      rewrite !Hframe by lia. split_and!; apply Hzero; lia.
Qed.

(** ** The per-hand fields *)

Lemma lookup_under_cast {A} (l : list A) (h : nat) :
  (Z.of_nat h < CInt.of_uint (count_of l))%Z → is_Some (l !! h).
Proof.
  intros Hh. apply lookup_lt_is_Some_2.
  pose proof (CInt_of_uint_le (count_of l)) as Hle. unfold count_of in *. lia.
Qed.

Lemma categories_count_pos cs :
  (categories_count cs > 0)%Z → is_Some (categories cs !! 0).
Proof.
  unfold categories_count. intros Hc. apply lookup_lt_is_Some_2. lia.
Qed.

Lemma handedness_value_total hd h : is_Some (handedness_value hd h).
Proof.
  unfold handedness_value. case_decide as Hh; [|done].
  destruct (lookup_under_cast hd h Hh) as [cs ->]. simpl.
  case_decide as Hc; [|done].
  destruct (categories_count_pos cs Hc) as [c ->]. done.
Qed.

Lemma handedness_value_spec hd h :
  (count_of hd < 2 ^ 31)%Z →
  handedness_value hd h =
    Some (match first_category hd h with
          | Some c => if starts_with_R (category_name c) then f32_one
                      else f32_zero
          | None => f32_zero
          end).
Proof.
  intros Hc. unfold handedness_value, first_category.
  rewrite CInt_of_uint_small by (unfold count_of in *; lia).
  case_decide as Hh.
  - destruct (lookup_lt_is_Some_2 hd h) as [cs Hcs];
      [unfold count_of in *; lia|].
    rewrite Hcs. simpl. case_decide as Hn.
    + destruct (categories_count_pos cs Hn) as [c ->]. done.
    + unfold categories_count in Hn.
      destruct (categories cs); [done|simpl in Hn; lia].
  - rewrite (lookup_ge_None_2 hd h) by (unfold count_of in *; lia). done.
Qed.

Lemma gesture_of_total gs h : is_Some (gesture_of gs h).
Proof.
  unfold gesture_of. case_decide as Hh; [|done].
  destruct (lookup_under_cast gs h Hh) as [cs ->]. simpl.
  case_decide as Hc; [|done].
  destruct (categories_count_pos cs Hc) as [c ->]. done.
Qed.

Lemma gesture_of_spec gs h :
  (count_of gs < 2 ^ 31)%Z →
  gesture_of gs h =
    Some (match first_category gs h with
          | Some c => (category_name c, score c)
          | None => (None, f32_zero)
          end).
Proof.
  intros Hc. unfold gesture_of, first_category.
  rewrite CInt_of_uint_small by (unfold count_of in *; lia).
  case_decide as Hh.
  - destruct (lookup_lt_is_Some_2 gs h) as [cs Hcs];
      [unfold count_of in *; lia|].
    rewrite Hcs. simpl. case_decide as Hn.
    + destruct (categories_count_pos cs Hn) as [c ->]. done.
    + unfold categories_count in Hn.
      destruct (categories cs); [done|simpl in Hn; lia].
  - rewrite (lookup_ge_None_2 gs h) by (unfold count_of in *; lia). done.
Qed.

(** Reduction of the binds of the option monad, leaving arithmetic alone. *)
Ltac obind := cbn [mbind option_bind].

(** ** The landmarker's packer *)

(** [landmarks_at] only looks at the 63 slots from [off]. *)
Lemma landmarks_at_frame (b b' : list jfloat) off lms :
  (∀ k, off ≤ k < off + 63 → b' !! k = b !! k) →
  landmarks_at b off lms → landmarks_at b' off lms.
Proof.
  intros Hsame Hat i Hi. rewrite !Hsame by lia. by apply Hat.
Qed.

Lemma hl_pack_spec r :
  (0 < count_of (hl_hand_landmarks r) < 2 ^ 31)%Z →
  ∃ buf, hl_pack r = Some buf
    ∧ length buf = 1 + (length (hl_hand_landmarks r) `min` 2) * 64
    ∧ buf !! 0
      = Some (float_of_int (Z.min (count_of (hl_hand_landmarks r)) 2))
    ∧ ∀ h lms, h < 2 → hl_hand_landmarks r !! h = Some lms →
        buf !! (1 + h * 64) = handedness_value (hl_handedness r) h
        ∧ landmarks_at buf (1 + h * 64 + 1) lms.
Proof.
  intros Hc. unfold hl_pack.
  rewrite num_hands_small by lia.
  set (c := count_of (hl_hand_landmarks r)) in *.
  set (n := length (hl_hand_landmarks r) `min` 2).
  assert (Z.min c 2 = Z.of_nat n) as Hn by (unfold c, count_of, n; lia).
  rewrite array_size_small by lia.
  unfold NewFloatArray. rewrite decide_True by lia. obind.
  rewrite store_Some by (rewrite length_replicate; lia). obind.
  replace (Z.to_nat (1 + Z.min c 2 * 64)) with (1 + n * 64) by lia.
  replace (Z.to_nat (Z.min c 2)) with n by lia.
  set (b0 := <[0 := float_of_int (Z.min c 2)]> (replicate (1 + n * 64) f32_zero)).
  assert (length b0 = 1 + n * 64) as Hb0
    by (unfold b0; by rewrite length_insert, length_replicate).
  destruct (for_upto_inv
    (λ m (b : list jfloat),
       length b = 1 + n * 64
       ∧ b !! 0 = Some (float_of_int (Z.min c 2))
       ∧ (∀ k, 1 + m * 64 ≤ k < 1 + n * 64 → b !! k = Some f32_zero)
       ∧ (∀ h lms, h < m → hl_hand_landmarks r !! h = Some lms →
            b !! (1 + h * 64) = handedness_value (hl_handedness r) h
            ∧ landmarks_at b (1 + h * 64 + 1) lms))
    n
    (λ h buf,
       let base := 1 + h * 64 in
       handednessValue ← handedness_value (hl_handedness r) h;
       buf ← store buf base handednessValue;
       lms ← hl_hand_landmarks r !! h;
       write_landmarks (base + 1) lms buf)
    b0) as (buf & Hrun & Hl & H0 & _ & Hhands).
  - split_and!; [done| | |intros; lia].
    + unfold b0. by rewrite list_lookup_insert_eq by (rewrite length_replicate; lia).
    + intros k Hk. unfold b0. rewrite list_lookup_insert_ne by lia.
      apply lookup_replicate_2. lia.
  - intros h b Hh (Hl & H0 & Hz & Hhands). obind.
    destruct (handedness_value_total (hl_handedness r) h) as [hv Hhv].
    rewrite Hhv. obind. rewrite store_Some by lia. obind.
    destruct (lookup_lt_is_Some_2 (hl_hand_landmarks r) h) as [lms Hlms];
      [unfold n in Hh; lia|].
    rewrite Hlms. obind.
    destruct (write_landmarks_spec (1 + h * 64 + 1) lms
                (<[1 + h * 64 := hv]> b)) as (b2 & -> & Hl2 & Hfr & Hat).
    { rewrite length_insert. lia. }
    { intros k Hk. rewrite list_lookup_insert_ne by lia. apply Hz. lia. }
    eexists; split; [done|]. rewrite length_insert in Hl2.
    split_and!.
    + lia.
    + rewrite Hfr by lia. by rewrite list_lookup_insert_ne by lia.
    + intros k Hk. rewrite Hfr by lia. rewrite list_lookup_insert_ne by lia.
      apply Hz. lia.
    + intros h' lms' Hh' Hlms'. destruct (decide (h' = h)) as [->|Hne].
      * assert (lms' = lms) as -> by congruence. split; [|done].
        rewrite Hfr by lia. rewrite Hhv.
        by rewrite list_lookup_insert_eq by lia.
      * destruct (Hhands h' lms') as [Hv Hat']; [lia|done|]. split.
        -- rewrite Hfr by lia. by rewrite list_lookup_insert_ne by lia.
        -- eapply landmarks_at_frame; [|exact Hat'].
           intros k Hk. rewrite Hfr by lia.
           by rewrite list_lookup_insert_ne by lia.
  - exists buf. split_and!; [done|done|done|].
    intros h lms Hh Hlms. apply Hhands; [|done].
    apply lookup_lt_Some in Hlms. unfold n. lia.
Qed.

(** ** The gesture recognizer's packer *)

Lemma gr_pack_spec r :
  (0 < count_of (gr_hand_landmarks r) < 2 ^ 31)%Z →
  ∃ buf names, gr_pack r = Some (buf, names)
    ∧ length buf = 1 + (length (gr_hand_landmarks r) `min` 2) * 65
    ∧ length names = length (gr_hand_landmarks r) `min` 2
    ∧ buf !! 0
      = Some (float_of_int (Z.min (count_of (gr_hand_landmarks r)) 2))
    ∧ ∀ h lms, h < 2 → gr_hand_landmarks r !! h = Some lms →
        buf !! (1 + h * 65) = handedness_value (gr_handedness r) h
        ∧ (∃ g, gesture_of (gr_gestures r) h = Some g
                ∧ buf !! (1 + h * 65 + 1) = Some g.2
                ∧ names !! h = Some g.1)
        ∧ landmarks_at buf (1 + h * 65 + 2) lms.
Proof.
  intros Hc. unfold gr_pack.
  rewrite num_hands_small by lia.
  set (c := count_of (gr_hand_landmarks r)) in *.
  set (n := length (gr_hand_landmarks r) `min` 2).
  assert (Z.min c 2 = Z.of_nat n) as Hn by (unfold c, count_of, n; lia).
  rewrite array_size_small by lia.
  unfold NewFloatArray, NewObjectArray. rewrite !decide_True by lia. obind.
  rewrite store_Some by (rewrite length_replicate; lia). obind.
  replace (Z.to_nat (1 + Z.min c 2 * 65)) with (1 + n * 65) by lia.
  replace (Z.to_nat (Z.min c 2)) with n by lia.
  set (b0 := <[0 := float_of_int (Z.min c 2)]> (replicate (1 + n * 65) f32_zero)).
  assert (length b0 = 1 + n * 65) as Hb0
    by (unfold b0; by rewrite length_insert, length_replicate).
  destruct (for_upto_inv
    (λ m (s : list jfloat * list (option string)),
       length s.1 = 1 + n * 65
       ∧ length s.2 = n
       ∧ s.1 !! 0 = Some (float_of_int (Z.min c 2))
       ∧ (∀ k, 1 + m * 65 ≤ k < 1 + n * 65 → s.1 !! k = Some f32_zero)
       ∧ (∀ h lms, h < m → gr_hand_landmarks r !! h = Some lms →
            s.1 !! (1 + h * 65) = handedness_value (gr_handedness r) h
            ∧ (∃ g, gesture_of (gr_gestures r) h = Some g
                    ∧ s.1 !! (1 + h * 65 + 1) = Some g.2
                    ∧ s.2 !! h = Some g.1)
            ∧ landmarks_at s.1 (1 + h * 65 + 2) lms)
       ∧ (∀ h, m ≤ h < n → s.2 !! h = Some None))
    n
    (λ h '(buf, jNames),
       let base := 1 + h * 65 in
       handednessValue ← handedness_value (gr_handedness r) h;
       buf ← store buf base handednessValue;
       '(gestureName, gestureScore) ← gesture_of (gr_gestures r) h;
       buf ← store buf (base + 1) gestureScore;
       jNames ← match gestureName with
                | Some name => store jNames h (Some name)
                | None => Some jNames
                end;
       lms ← gr_hand_landmarks r !! h;
       buf ← write_landmarks (base + 2) lms buf;
       Some (buf, jNames))
    (b0, replicate n None))
    as ([buf names] & Hrun & Hl & Hln & H0 & _ & Hhands & _).
  - cbn [fst snd]. split_and!; [done|by rewrite length_replicate| | |intros; lia|].
    + unfold b0. by rewrite list_lookup_insert_eq by (rewrite length_replicate; lia).
    + intros k Hk. unfold b0. rewrite list_lookup_insert_ne by lia.
      apply lookup_replicate_2. lia.
    + intros h Hh. apply lookup_replicate_2. lia.
  - intros h [b nm] Hh (Hl & Hln & H0 & Hz & Hhands & Hnull).
    cbn [fst snd] in *. cbv zeta.
    destruct (handedness_value_total (gr_handedness r) h) as [hv Hhv].
    rewrite Hhv. obind. rewrite store_Some by lia. obind.
    destruct (gesture_of_total (gr_gestures r) h) as [[gname gscore] Hg].
    rewrite Hg. obind.
    rewrite store_Some by (rewrite length_insert; lia). obind.
    set (nm' := match gname with Some name => <[h := Some name]> nm
                | None => nm end).
    assert (match gname with
            | Some name => store nm h (Some name)
            | None => Some nm
            end = Some nm') as ->.
    { unfold nm'. destruct gname; [|done]. by rewrite store_Some by lia. }
    obind.
    destruct (lookup_lt_is_Some_2 (gr_hand_landmarks r) h) as [lms Hlms];
      [unfold n in Hh; lia|].
    rewrite Hlms. obind.
    destruct (write_landmarks_spec (1 + h * 65 + 2) lms
                (<[1 + h * 65 + 1 := gscore]> (<[1 + h * 65 := hv]> b)))
      as (b2 & -> & Hl2 & Hfr & Hat).
    { rewrite !length_insert. lia. }
    { intros k Hk. rewrite !list_lookup_insert_ne by lia. apply Hz. lia. }
    obind. eexists; split; [done|]. rewrite !length_insert in Hl2.
    cbn [fst snd].
    assert (length nm' = n) as Hln'.
    { unfold nm'. destruct gname; [by rewrite length_insert|done]. }
    assert (∀ k, k ≠ h → nm' !! k = nm !! k) as Hnm_ne.
    { intros k Hk. unfold nm'. destruct gname; [|done].
      by rewrite list_lookup_insert_ne by lia. }
    assert (nm' !! h = Some gname) as Hnm_eq.
    { unfold nm'. destruct gname.
      - by rewrite list_lookup_insert_eq by lia.
      - apply Hnull. lia. }
    split_and!.
    + lia.
    + done.
    + rewrite Hfr by lia. by rewrite !list_lookup_insert_ne by lia.
    + intros k Hk. rewrite Hfr by lia. rewrite !list_lookup_insert_ne by lia.
      apply Hz. lia.
    + intros h' lms' Hh' Hlms'. destruct (decide (h' = h)) as [->|Hne].
      * assert (lms' = lms) as -> by congruence. split_and!; [| |done].
        -- rewrite Hfr by lia. rewrite Hhv.
           rewrite list_lookup_insert_ne by lia.
           by rewrite list_lookup_insert_eq by lia.
        -- exists (gname, gscore). split_and!; [done| |done].
           rewrite Hfr by lia.
           by rewrite list_lookup_insert_eq by (rewrite length_insert; lia).
      * destruct (Hhands h' lms') as (Hv & (g & Hg1 & Hg2 & Hg3) & Hat');
          [lia|done|]. split_and!.
        -- rewrite Hfr by lia. by rewrite !list_lookup_insert_ne by lia.
        -- exists g. split_and!; [done| |].
           ++ rewrite Hfr by lia. by rewrite !list_lookup_insert_ne by lia.
           ++ by rewrite Hnm_ne by lia.
        -- eapply landmarks_at_frame; [|exact Hat'].
           intros k Hk. rewrite Hfr by lia.
           by rewrite !list_lookup_insert_ne by lia.
    + intros k Hk. rewrite Hnm_ne by lia. apply Hnull. lia.
  - cbn [fst snd] in *. exists buf, names. split_and!; [done..|].
    intros h lms Hh Hlms. apply Hhands; [|done].
    apply lookup_lt_Some in Hlms. unfold n. lia.
Qed.

(** ** Points beyond the 21st *)

Lemma for_upto_ext {St} n (f g : nat → St → option St) s :
  (∀ i s, i < n → f i s = g i s) → for_upto n f s = for_upto n g s.
Proof.
  intros Hfg. induction n as [|n IH]; [done|]. simpl.
  rewrite IH by (intros; apply Hfg; lia).
  destruct (for_upto n g s); [|done]. simpl. apply Hfg. lia.
Qed.

Lemma write_landmarks_first_21 off lms buf :
  write_landmarks off (first_21 lms) buf = write_landmarks off lms buf.
Proof.
  unfold write_landmarks, landmarks_count, first_21. cbn [landmarks].
  rewrite length_take.
  replace ((21 `min` length (landmarks lms)) `min` 21)
    with (length (landmarks lms) `min` 21) by lia.
  apply for_upto_ext. intros i b Hi. by rewrite lookup_take_lt by lia.
Qed.

Lemma packed_buffer_truncate res :
  packed_buffer (truncate_points res) = packed_buffer res.
Proof.
  destruct res as [r|r]; cbn [packed_buffer truncate_points].
  - unfold hl_pack, count_of. cbn [hl_handedness hl_hand_landmarks].
    rewrite length_fmap. destruct (NewFloatArray _) as [b|]; [|done]. obind.
    destruct (store b 0 _) as [b0|]; [|done]. obind.
    apply for_upto_ext. intros h b1 _. cbv zeta.
    destruct (handedness_value _ h); [|done]. obind.
    destruct (store b1 _ _); [|done]. obind.
    rewrite list_lookup_fmap. destruct (hl_hand_landmarks r !! h); [|done].
    cbn [fmap option_fmap option_map]. obind. apply write_landmarks_first_21.
  - f_equal. unfold gr_pack, count_of.
    cbn [gr_handedness gr_hand_landmarks gr_gestures].
    rewrite length_fmap. destruct (NewFloatArray _) as [b|]; [|done]. obind.
    destruct (NewObjectArray _) as [nm|]; [|done]. obind.
    destruct (store b 0 _) as [b0|]; [|done]. obind.
    apply for_upto_ext. intros h [b1 nm1] _. cbv zeta.
    destruct (handedness_value _ h); [|done]. obind.
    destruct (store b1 _ _); [|done]. obind.
    destruct (gesture_of _ h) as [[gn gs]|]; [|done]. obind.
    destruct (store _ _ gs); [|done]. obind.
    destruct (match gn with Some _ => _ | None => _ end); [|done]. obind.
    rewrite list_lookup_fmap. destruct (gr_hand_landmarks r !! h); [|done].
    cbn [fmap option_fmap option_map]. obind.
    by rewrite write_landmarks_first_21.
Qed.

(** ** What the two packers share *)

Lemma packed_buffer_spec res :
  (0 < count_of (hands_of res) < 2 ^ 31)%Z →
  ∃ buf, packed_buffer res = Some buf
    ∧ length buf = 1 + packed_hands res * stride res
    ∧ buf !! 0 = Some (float_of_int (Z.min (count_of (hands_of res)) 2))
    ∧ ∀ h lms, h < 2 → hands_of res !! h = Some lms →
        buf !! (1 + h * stride res) = handedness_value (handedness_of res) h
        ∧ landmarks_at buf (1 + h * stride res + landmark_offset res) lms.
Proof.
  intros Hc. destruct res as [r|r];
    cbn [packed_buffer hands_of handedness_of stride landmark_offset] in *;
    unfold packed_hands; cbn [hands_of].
  - apply hl_pack_spec, Hc.
  - destruct (gr_pack_spec r Hc) as (buf & names & -> & Hl & _ & H0 & Hh).
    exists buf. split_and!; [done..|].
    intros h lms Hh2 Hlms. destruct (Hh h lms Hh2 Hlms) as (? & _ & ?). done.
Qed.

Lemma packed_hands_lt res h :
  h < packed_hands res → h < 2 ∧ is_Some (hands_of res !! h).
Proof.
  unfold packed_hands. intros Hh. split; [lia|].
  apply lookup_lt_is_Some_2. lia.
Qed.

(** C1. For every engine result with at least one hand, the packer takes
    [numHands = min(hand_count, 2)] and builds a float array of length exactly
    [1 + numHands * stride], stride 64 for the landmarker and 65 for the
    gesture recognizer, whose first element is [numHands] converted to float.
    Hands beyond the second are dropped without a fault: a result of 5 hands
    gives a first element of 2.0.  The hand count is one the [int] cast
    preserves, as every count of the engine is: it finds at most [num_hands]
    hands, and [num_hands] is an [int]. *)
Theorem C1_buffer_length_and_count (res : engine_result) :
  (0 < count_of (hands_of res) < 2 ^ 31)%Z →
  num_hands (count_of (hands_of res)) = Z.min (count_of (hands_of res)) 2
  ∧ ∃ buf, packed_buffer res = Some buf
      ∧ Z.of_nat (length buf)
        = (1 + num_hands (count_of (hands_of res)) * Z.of_nat (stride res))%Z
      ∧ buf !! 0 = Some (float_of_int (num_hands (count_of (hands_of res))))
      ∧ (count_of (hands_of res) = 5%Z → buf !! 0 = Some f32_two).
Proof.
  intros Hc. rewrite num_hands_small by lia. split; [done|].
  destruct (packed_buffer_spec res Hc) as (buf & Hp & Hl & H0 & _).
  exists buf. split_and!; [done| |done|].
  - rewrite Hl. unfold packed_hands, count_of. lia.
  - intros H5. rewrite H0, H5. done.
Qed.

(** C2. For every packed hand [h], with [base = 1 + h * stride], and every
    landmark index [i < 21], the coordinates x, y, z of point [i] are at slots
    [base + o + 3*i], [+1] and [+2], with [o = 1] for the landmarker and
    [o = 2] for the gesture recognizer; a hand with fewer than 21 points
    leaves the slots of the missing points zero; and points beyond the 21st
    are ignored: the result cut down to 21 points per hand packs to the same
    array. *)
Theorem C2_landmark_slots (res : engine_result) :
  (0 < count_of (hands_of res) < 2 ^ 31)%Z →
  ∃ buf, packed_buffer res = Some buf
    ∧ (∀ h lms i, h < packed_hands res → hands_of res !! h = Some lms →
         i < 21 →
         match landmarks lms !! i with
         | Some lm =>
             buf !! (1 + h * stride res + landmark_offset res + 3 * i)
               = Some (lm_x lm)
             ∧ buf !! (1 + h * stride res + landmark_offset res + 3 * i + 1)
               = Some (lm_y lm)
             ∧ buf !! (1 + h * stride res + landmark_offset res + 3 * i + 2)
               = Some (lm_z lm)
         | None =>
             buf !! (1 + h * stride res + landmark_offset res + 3 * i)
               = Some f32_zero
             ∧ buf !! (1 + h * stride res + landmark_offset res + 3 * i + 1)
               = Some f32_zero
             ∧ buf !! (1 + h * stride res + landmark_offset res + 3 * i + 2)
               = Some f32_zero
         end)
    ∧ packed_buffer (truncate_points res) = Some buf.
Proof.
  intros Hc.
  destruct (packed_buffer_spec res Hc) as (buf & Hp & _ & _ & Hh).
  exists buf. split_and!; [done| |by rewrite packed_buffer_truncate].
  intros h lms i Hlt Hlms Hi.
  destruct (packed_hands_lt res h Hlt) as [Hh2 _].
  destruct (Hh h lms Hh2 Hlms) as [_ Hat].
  specialize (Hat i Hi). unfold coords_at in Hat.
  replace (3 * i) with (i * 3) by lia.
  destruct (landmarks lms !! i); exact Hat.
Qed.

(** C3. For every packed hand, the handedness slot, at the hand's base
    offset, is 1.0 exactly when the label of the first handedness category of
    that hand starts with ['R'], and 0.0 in every other case: no handedness
    entry for the hand, an entry without categories, a null label, an empty
    label. *)
Theorem C3_handedness (res : engine_result) :
  (0 < count_of (hands_of res) < 2 ^ 31)%Z →
  (count_of (handedness_of res) < 2 ^ 31)%Z →
  ∃ buf, packed_buffer res = Some buf
    ∧ ∀ h, h < packed_hands res →
        (buf !! (1 + h * stride res) = Some f32_one
         ∨ buf !! (1 + h * stride res) = Some f32_zero)
        ∧ (buf !! (1 + h * stride res) = Some f32_one
           ↔ ∃ cs c s, handedness_of res !! h = Some cs
                       ∧ categories cs !! 0 = Some c
                       ∧ category_name c = Some (String "R" s))
        ∧ (handedness_of res !! h = None →
           buf !! (1 + h * stride res) = Some f32_zero)
        ∧ (∀ cs, handedness_of res !! h = Some cs → categories cs = [] →
           buf !! (1 + h * stride res) = Some f32_zero)
        ∧ (∀ cs c, handedness_of res !! h = Some cs →
           categories cs !! 0 = Some c →
           category_name c = None ∨ category_name c = Some EmptyString →
           buf !! (1 + h * stride res) = Some f32_zero).
Proof.
  intros Hc Hhd.
  destruct (packed_buffer_spec res Hc) as (buf & Hp & _ & _ & Hh).
  exists buf. split; [done|]. intros h Hlt.
  destruct (packed_hands_lt res h Hlt) as [Hh2 [lms Hlms]].
  destruct (Hh h lms Hh2 Hlms) as [-> _].
  rewrite handedness_value_spec by done. unfold first_category.
  destruct (handedness_of res !! h) as [cs|] eqn:Hcs; cbn [mbind option_bind].
  - destruct (categories cs !! 0) as [c|] eqn:Hc0.
    + destruct (category_name c) as [[|a s]|] eqn:Hname; cbn [starts_with_R].
      * split_and!; [by right| |done|done|done].
        split; [done|]. intros (? & ? & ? & ? & ? & ?). congruence.
      * case_bool_decide as Ha.
        -- subst a. split_and!; [by left| |done| |].
           ++ split; [|done]. intros _. by exists cs, c, s.
           ++ intros cs' [= <-] Hnil. by rewrite Hnil in Hc0.
           ++ intros cs' c' [= <-] Hc' [?|?]; congruence.
        -- split_and!; [by right| |done|done|done].
           split; [done|]. intros (? & ? & ? & ? & ? & ?). congruence.
      * split_and!; [by right| |done|done|done].
        split; [done|]. intros (? & ? & ? & ? & ? & ?). congruence.
    + split_and!; [by right| |done|done|done].
      split; [done|]. intros (? & ? & ? & ? & ? & ?). congruence.
  - split_and!; [by right| |done|done|done].
    split; [done|]. intros (? & ? & ? & ? & ? & ?). congruence.
Qed.

(** C5. In the gesture variant, for every packed hand [h]: when the hand has
    a gesture category, the score of the first one is at slot [base + 1] and
    its label is element [h] of the label array (a null element when the
    category's label pointer is null); when it has none, slot [base + 1] is
    0.0 and element [h] is null. *)
Theorem C5_gesture_fields (r : GestureRecognizerResult) :
  (0 < count_of (gr_hand_landmarks r) < 2 ^ 31)%Z →
  (count_of (gr_gestures r) < 2 ^ 31)%Z →
  ∃ buf names, gr_pack r = Some (buf, names)
    ∧ length names = length (gr_hand_landmarks r) `min` 2
    ∧ ∀ h, h < length (gr_hand_landmarks r) `min` 2 →
        match first_category (gr_gestures r) h with
        | Some c => buf !! (1 + h * 65 + 1) = Some (score c)
                    ∧ names !! h = Some (category_name c)
        | None => buf !! (1 + h * 65 + 1) = Some f32_zero
                  ∧ names !! h = Some None
        end.
Proof.
  intros Hc Hg.
  destruct (gr_pack_spec r Hc) as (buf & names & Hp & _ & Hln & _ & Hh).
  exists buf, names. split_and!; [done..|]. intros h Hlt.
  destruct (lookup_lt_is_Some_2 (gr_hand_landmarks r) h) as [lms Hlms];
    [lia|].
  destruct (Hh h lms) as (_ & (g & Hgo & Hs & Hn) & _); [lia|done|].
  rewrite gesture_of_spec in Hgo by done.
  destruct (first_category (gr_gestures r) h) as [c|];
    injection Hgo as <-; done.
Qed.

(** C1 on a gesture result of five hands: 131 slots, the first one 2.0. *)
Lemma C1_buffer_length_and_count_witness :
  (0 < count_of (hands_of (GestureResult five_hands)) < 2 ^ 31)%Z
  ∧ num_hands 5 = 2%Z
  ∧ ∃ buf, packed_buffer (GestureResult five_hands) = Some buf
      ∧ Z.of_nat (length buf) = 131%Z
      ∧ buf !! 0 = Some f32_two.
Proof.
  split; [vm_compute; split; reflexivity|].
  destruct (C1_buffer_length_and_count (GestureResult five_hands))
    as (Hn & buf & Hp & Hl & H0 & H5); [vm_compute; split; reflexivity|].
  split; [exact Hn|]. exists buf. split_and!; [exact Hp|exact Hl|].
  apply H5. reflexivity.
Defined.

(** C2 on a landmarker result of one hand with two points: the second point
    is at slots 5, 6, 7, and the slot of the missing third point is zero. *)
Lemma C2_landmark_slots_witness :
  (0 < count_of (hands_of (LandmarkResult one_hand)) < 2 ^ 31)%Z
  ∧ ∃ buf, packed_buffer (LandmarkResult one_hand) = Some buf
      ∧ buf !! 5 = Some (float_of_int 4)
      ∧ buf !! 6 = Some (float_of_int 5)
      ∧ buf !! 7 = Some (float_of_int 6)
      ∧ buf !! 8 = Some f32_zero.
Proof.
  split; [vm_compute; split; reflexivity|].
  destruct (C2_landmark_slots (LandmarkResult one_hand))
    as (buf & Hp & Hs & _); [vm_compute; split; reflexivity|].
  exists buf. split; [exact Hp|].
  assert (0 < packed_hands (LandmarkResult one_hand)) as Hh
    by (unfold packed_hands; simpl; lia).
  pose proof (Hs 0 sample_hand 1 Hh eq_refl ltac:(lia)) as (H5 & H6 & H7).
  pose proof (Hs 0 sample_hand 2 Hh eq_refl ltac:(lia)) as (H8 & _).
  split_and!; [exact H5|exact H6|exact H7|exact H8].
Defined.

(** C3 on a hand labelled ["Right"]. *)
Lemma C3_handedness_witness :
  (0 < count_of (hands_of (LandmarkResult one_hand)) < 2 ^ 31)%Z
  ∧ (count_of (handedness_of (LandmarkResult one_hand)) < 2 ^ 31)%Z
  ∧ ∃ buf, packed_buffer (LandmarkResult one_hand) = Some buf
      ∧ buf !! 1 = Some f32_one.
Proof.
  split; [vm_compute; split; reflexivity|].
  split; [vm_compute; reflexivity|].
  destruct (C3_handedness (LandmarkResult one_hand))
    as (buf & Hp & Hs);
    [vm_compute; split; reflexivity|vm_compute; reflexivity|].
  exists buf. split; [exact Hp|].
  assert (0 < packed_hands (LandmarkResult one_hand)) as Hh
    by (unfold packed_hands; simpl; lia).
  destruct (Hs 0 Hh) as (_ & Hiff & _). apply Hiff.
  eexists _, _, _. split_and!; reflexivity.
Defined.

(** C5 on five hands of which only the first has a gesture category. *)
Lemma C5_gesture_fields_witness :
  (0 < count_of (gr_hand_landmarks five_hands) < 2 ^ 31)%Z
  ∧ (count_of (gr_gestures five_hands) < 2 ^ 31)%Z
  ∧ ∃ buf names, gr_pack five_hands = Some (buf, names)
      ∧ length names = 2
      ∧ buf !! 2 = Some f32_half ∧ names !! 0 = Some (Some "Fist")
      ∧ buf !! 67 = Some f32_zero ∧ names !! 1 = Some None.
Proof.
  split; [vm_compute; split; reflexivity|].
  split; [vm_compute; reflexivity|].
  destruct (C5_gesture_fields five_hands)
    as (buf & names & Hp & Hl & Hs);
    [vm_compute; split; reflexivity|vm_compute; reflexivity|].
  exists buf, names. split; [exact Hp|]. split; [exact Hl|].
  pose proof (Hs 0 ltac:(simpl; lia)) as [H2 Hn0].
  pose proof (Hs 1 ltac:(simpl; lia)) as [H67 Hn1].
  split_and!; [exact H2|exact Hn0|exact H67|exact Hn1].
Defined.

(** ** Running the monad *)

Lemma bind_run {A B} (f : A → M B) (m : M A) (w : world) :
  (m ≫= f) w = match m w with Some (a, w') => f a w' | None => None end.
Proof. done. Qed.

Lemma ret_run {A} (a : A) (w : world) : (mret a : M A) w = Some (a, w).
Proof. done. Qed.

Ltac mrun :=
  repeat first
    [ rewrite bind_run
    | rewrite ret_run
    | rewrite decide_True by done
    | rewrite decide_False by done
    | progress cbn [get modify emit fault lift skip log
                    upd_st upd_rt upd_mp fst snd st rt mp trace
                    set_g_jvm set_g_hl_callback set_g_hl_onResult
                    set_g_gr_callback set_g_gr_onResult
                    set_global_refs set_next_ref set_attached
                    set_landmarkers set_recognizers set_next_ptr set_images
                    set_next_image
                    g_jvm g_hl_callback g_hl_onResult g_gr_callback
                    g_gr_onResult global_refs next_ref attached
                    landmarkers recognizers next_ptr images next_image negb]
    | progress unfold GetEnv, AttachCurrentThread, DetachCurrentThread,
        NewGlobalRef, DeleteGlobalRef, DeleteLocalRef, GetObjectClass,
        CallVoidMethod, throw_exception, skip, MpHandLandmarkerCreate,
        MpGestureRecognizerCreate, MpHandLandmarkerClose,
        MpGestureRecognizerClose, MpImageCreateFromUint8Data, MpImageFree,
        MpHandLandmarkerDetectAsync, MpGestureRecognizerRecognizeForVideo,
        MpGestureRecognizerCloseResult ].

(** Equality of two traces, up to the grouping of appends. *)
Ltac trace_eq := simpl; rewrite <- ?app_assoc; simpl; done.

(** [attach_jvm] always returns; what it returns and what it leaves depends
    on whether the thread was attached and on the runtime's answers. *)
Lemma attach_jvm_run o w :
  attach_jvm o w =
    Some (if attached (rt w) then
            if jni_version_ok o
            then ((true, false), log [EvGetEnv JNI_OK] w)
            else ((false, false), log [EvGetEnv JNI_EVERSION] w)
          else
            if attach_ok o
            then ((true, true),
                  log [EvGetEnv JNI_EDETACHED; EvAttachCurrentThread JNI_OK]
                      (upd_rt (set_attached true) w))
            else ((false, false),
                  log [EvGetEnv JNI_EDETACHED; EvAttachCurrentThread JNI_ERR]
                      w)).
Proof.
  destruct w as [s [refs nr att] e t]. unfold attach_jvm. mrun.
  destruct att; mrun.
  - destruct (jni_version_ok o); mrun; done.
  - destruct (attach_ok o); mrun; by rewrite <- app_assoc.
Qed.

Lemma hl_jResult_total status result :
  countable_hands result → is_Some (hl_jResult status result).
Proof.
  intros Hc. unfold hl_jResult. destruct result as [r|]; [|done].
  case_decide as Hs; [|done]. destruct Hs as [_ Hpos].
  destruct (hl_pack_spec r) as (buf & -> & _).
  { specialize (Hc r eq_refl). lia. }
  done.
Qed.

Lemma hl_on_result_attached o status result ts w w' :
  hl_on_result o status result ts w = Some ((), w') →
  attached (rt w') = attached (rt w).
Proof.
  unfold hl_on_result. mrun.
  case_bool_decide as Hg; [by intros [= <-]|].
  rewrite bind_run, attach_jvm_run.
  destruct w as [[jv hc hm gc gm] [refs nr att] e t]. mrun.
  destruct att.
  - destruct (jni_version_ok o); mrun; [|by intros [= <-]].
    destruct (hl_jResult status result) as [jr|]; mrun; [|done].
    destruct hc as [r|]; [|done]. destruct hm as [m|]; [|done]. mrun.
    destruct (refs !! r) as [ob|]; [|done]. mrun.
    destruct jr; mrun; by intros [= <-].
  - destruct (attach_ok o); mrun; [|by intros [= <-]].
    destruct (hl_jResult status result) as [jr|]; mrun; [|done].
    destruct hc as [r|]; [|done]. destruct hm as [m|]; [|done]. mrun.
    destruct (refs !! r) as [ob|]; [|done]. mrun.
    destruct jr; mrun; by intros [= <-].
Qed.

Lemma hl_on_result_trace o status result ts w cb mid jResult :
  g_jvm (st w) = true →
  hl_target w = Some cb →
  g_hl_onResult (st w) = Some mid →
  hl_jResult status result = Some jResult →
  ∃ w', hl_on_result o status result ts w = Some ((), w')
    ∧ trace w' = trace w
                 ++ delivery_events o (attached (rt w)) cb mid jResult ts.
Proof.
  unfold hl_target, hl_on_result, delivery_events.
  destruct w as [[jv hc hm gc gm] [refs nr att] e t]. mrun.
  intros -> Hcb -> Hjr. destruct hc as [r|]; [|done].
  cbn [mbind option_bind] in Hcb.
  rewrite bool_decide_false by (intros [?|?]; done).
  rewrite bind_run, attach_jvm_run. mrun.
  destruct att.
  - destruct (jni_version_ok o); mrun; [|by eexists].
    rewrite Hjr. mrun. rewrite Hcb. mrun.
    destruct jResult; mrun; eexists; (split; [done|]); trace_eq.
  - destruct (attach_ok o); mrun; [|by eexists].
    rewrite Hjr. mrun. rewrite Hcb. mrun.
    destruct jResult; mrun; eexists; (split; [done|]); trace_eq.
Qed.

(** A result with hands and an ok status is delivered as the array the packer
    builds. *)
Lemma hl_on_result_delivers_packed o r ts w cb mid :
  g_jvm (st w) = true →
  hl_target w = Some cb →
  g_hl_onResult (st w) = Some mid →
  (0 < count_of (hl_hand_landmarks r) < 2 ^ 31)%Z →
  ∃ buf w', hl_pack r = Some buf
    ∧ hl_on_result o kMpOk (Some r) ts w = Some ((), w')
    ∧ trace w' = trace w
        ++ delivery_events o (attached (rt w)) cb mid (Some buf) ts.
Proof.
  intros Hjvm Hcb Hmid Hc.
  destruct (hl_pack_spec r Hc) as (buf & Hp & _).
  destruct (hl_on_result_trace o kMpOk (Some r) ts w cb mid (Some buf))
    as (w' & Hrun & Htr); [done..| |by exists buf, w'].
  unfold hl_jResult. rewrite decide_True by (split; [done|lia]).
  by rewrite Hp.
Qed.

(** C8. A delivery on a thread of the engine first asks whether the thread is
    attached ([GetEnv]); when it is not, it attaches it, invokes the callback,
    releases the per-call reference to the array, and detaches the thread as
    its last act; when the thread was attached already, it neither attaches
    nor detaches.  When no [env] can be had, nothing is invoked, and a failed
    attach leaves nothing to undo.  On every path that returns, the thread is
    attached afterwards exactly when it was before. *)
Theorem C8_scoped_attachment o status result ts w :
  (∀ w', hl_on_result o status result ts w = Some ((), w') →
         attached (rt w') = attached (rt w))
  ∧ (hl_ready w → countable_hands result →
     ∃ w', hl_on_result o status result ts w = Some ((), w')
       ∧ if bool_decide (g_jvm (st w) = false ∨ g_hl_callback (st w) = None)
         then trace w' = trace w
         else ∃ cb mid jResult,
           hl_target w = Some cb
           ∧ g_hl_onResult (st w) = Some mid
           ∧ hl_jResult status result = Some jResult
           ∧ trace w' = trace w ++
               if attached (rt w) then
                 if jni_version_ok o
                 then [EvGetEnv JNI_OK;
                       EvCallVoidMethod cb mid (HlArgs jResult ts)]
                      ++ release jResult
                 else [EvGetEnv JNI_EVERSION]
               else
                 if attach_ok o
                 then [EvGetEnv JNI_EDETACHED; EvAttachCurrentThread JNI_OK;
                       EvCallVoidMethod cb mid (HlArgs jResult ts)]
                      ++ release jResult ++ [EvDetachCurrentThread]
                 else [EvGetEnv JNI_EDETACHED; EvAttachCurrentThread JNI_ERR]).
Proof.
  split; [intros w'; apply hl_on_result_attached|].
  intros Hready Hcount. case_bool_decide as Hg.
  - unfold hl_on_result. mrun. rewrite bool_decide_true by done. by eexists.
  - destruct (g_jvm (st w)) eqn:Hjvm; [|naive_solver].
    destruct (g_hl_callback (st w)) as [r|] eqn:Hc; [|naive_solver].
    destruct (Hready r Hc) as [[cb Hcb] [mid Hmid]].
    destruct (hl_jResult_total status result Hcount) as [jr Hjr].
    assert (hl_target w = Some cb) as Ht
      by (unfold hl_target; rewrite Hc; done).
    destruct (hl_on_result_trace o status result ts w cb mid jr)
      as (w' & Hrun & Htr); [done..|].
    exists w'. split; [done|]. exists cb, mid, jr. done.
Qed.

(** C8 on a delivery of one hand on a thread that is not attached. *)
Lemma C8_scoped_attachment_witness :
  hl_ready (upd_rt (set_attached false) landmarker_session)
  ∧ countable_hands (Some one_hand)
  ∧ ∃ w', hl_on_result all_ok kMpOk (Some one_hand) 7
            (upd_rt (set_attached false) landmarker_session) = Some ((), w')
      ∧ attached (rt w') = false.
Proof.
  assert (hl_ready (upd_rt (set_attached false) landmarker_session)) as Hr.
  { intros r [= <-]. split; eexists; reflexivity. }
  assert (countable_hands (Some one_hand)) as Hc.
  { intros r [= <-]. vm_compute. reflexivity. }
  split; [exact Hr|]. split; [exact Hc|].
  destruct (C8_scoped_attachment all_ok kMpOk (Some one_hand) 7
              (upd_rt (set_attached false) landmarker_session))
    as [Hbal Hrun].
  destruct (Hrun Hr Hc) as (w' & Hw' & _).
  exists w'. split; [exact Hw'|]. exact (Hbal w' Hw').
Defined.

(** ** Frames and images *)

(** C10, as the code has it.  The frame adapter does not look at the length
    of the pixel array: it takes the data size from the dimensions, as the
    32-bit product [width * height * 3], and hands it with the array's
    elements to the engine's image constructor.  When that constructor
    rejects the width, height and size, the call fails at once (false, on the
    synchronous path), with no inference call made and no image retained.
    When the constructor accepts, the inference call is made on the new
    image, whatever the length of the array. *)
Theorem C10_size_from_dimensions o h (px : list Byte.byte) wd ht ts w :
  if image_create_ok o wd ht (CInt.mul (CInt.mul wd ht) 3) then
    (∃ w1, nativeDetectAsync o h px wd ht ts w = Some ((), w1)
       ∧ trace w1 = trace w ++
           [EvImageCreate wd ht (CInt.mul (CInt.mul wd ht) 3) (length px)
                          (Some (next_image (mp w)));
            EvDetectAsync h (next_image (mp w)) ts (detect_async_status o)]
           ++ (if decide (detect_async_status o = kMpOk) then []
               else [EvImageFree (next_image (mp w))]))
    ∧ (∀ b w2, nativeRecognizeGestureForVideo o h px wd ht ts w
                 = Some (b, w2) →
         ∃ rest, trace w2 = trace w ++
           [EvImageCreate wd ht (CInt.mul (CInt.mul wd ht) 3) (length px)
                          (Some (next_image (mp w)));
            EvRecognizeForVideo h (next_image (mp w)) ts
              (if recognize_result o is Some _ then kMpOk else kMpError)]
           ++ rest)
  else
    nativeDetectAsync o h px wd ht ts w
      = Some ((), log [EvImageCreate wd ht (CInt.mul (CInt.mul wd ht) 3)
                                     (length px) None] w)
    ∧ nativeRecognizeGestureForVideo o h px wd ht ts w
      = Some (false, log [EvImageCreate wd ht (CInt.mul (CInt.mul wd ht) 3)
                                        (length px) None] w).
Proof.
  unfold nativeDetectAsync, nativeRecognizeGestureForVideo.
  destruct w as [s j [lm rc np im ni] t]. mrun.
  destruct (image_create_ok o wd ht _); mrun; [|done].
  split.
  - destruct (detect_async_status o); mrun; eexists; (split; [done|]);
      trace_eq.
  - intros b w2. destruct (recognize_result o) as [r|]; mrun.
    + unfold gr_deliver_result. mrun.
      destruct (gr_packed (Some r)) as [p|]; mrun; [|done].
      destruct (g_gr_callback s) as [ref|]; [|done].
      destruct (g_gr_onResult s) as [m|]; [|done]. mrun.
      destruct (global_refs j !! ref) as [ob|]; [|done]. mrun.
      destruct p as [[b1 n1]|]; mrun; intros [= <- <-]; eexists; trace_eq.
    + intros [= <- <-]. exists []. trace_eq.
Qed.

(** Against C10 as stated: a pixel array of 3 bytes with width 2 and height
    1 is shorter than 2 * 1 * 3, yet neither call fails.  The engine is
    handed the size 6 for the array of length 3, creates the image, and the
    inference call is made on it. *)
Lemma C10_counterexample :
  (Z.of_nat (length one_pixel) < 2 * 1 * 3)%Z
  ∧ ∃ w1 w2,
      nativeDetectAsync all_ok 1 one_pixel 2 1 7 landmarker_session
      = Some ((), w1)
      ∧ trace w1 = trace landmarker_session ++
                   [EvImageCreate 2 1 6 3 (Some 0);
                    EvDetectAsync 1 0 7 kMpOk]
      ∧ images (mp w1) !! 0 = Some Engine
      ∧ nativeRecognizeGestureForVideo all_ok 1 one_pixel 2 1 7
          gesture_session
        = Some (true, w2)
      ∧ existsb (λ e, if e is EvImageCreate 2 1 6 3 (Some 0)
                      then true else false) (trace w2) = true.
Proof.
  split; [done|]. eexists _, _. split_and!.
  - vm_compute. reflexivity.
  - vm_compute. reflexivity.
  - vm_compute. reflexivity.
  - vm_compute. reflexivity.
  - vm_compute. reflexivity.
Qed.

(** C10 on the same frame. *)
Lemma C10_size_from_dimensions_witness :
  image_create_ok all_ok 2 1 (CInt.mul (CInt.mul 2 1) 3) = true
  ∧ ∃ w1,
      nativeDetectAsync all_ok 1 one_pixel 2 1 7 landmarker_session
      = Some ((), w1)
      ∧ trace w1 = trace landmarker_session ++
          [EvImageCreate 2 1 (CInt.mul (CInt.mul 2 1) 3) 3
                         (Some (next_image (mp landmarker_session)));
           EvDetectAsync 1 (next_image (mp landmarker_session)) 7 kMpOk]
          ++ [].
Proof.
  assert (image_create_ok all_ok 2 1 (CInt.mul (CInt.mul 2 1) 3) = true)
    as Hok by reflexivity.
  split; [exact Hok|].
  pose proof (C10_size_from_dimensions all_ok 1 one_pixel 2 1 7
                landmarker_session) as H.
  rewrite Hok in H. destruct H as [(w1 & Hrun & Htr) _].
  exists w1. split; [exact Hrun|exact Htr].
Defined.

(** The asynchronous path, for comparison: it frees the image it created
    when the submission fails, and the engine has it when the submission
    succeeds; either way the caller is left with no image of this call. *)
Lemma nativeDetectAsync_keeps_no_image o h (px : list Byte.byte) wd ht ts w :
  ∃ w', nativeDetectAsync o h px wd ht ts w = Some ((), w')
    ∧ (images (mp w') = images (mp w)
       ∨ images (mp w') !! next_image (mp w) ≠ Some Caller).
Proof.
  unfold nativeDetectAsync. destruct w as [s j [lm rc np im ni] t]. mrun.
  destruct (image_create_ok o wd ht _); mrun; [|eexists; split; [done|by left]].
  destruct (detect_async_status o); mrun; eexists; (split; [done|]); right;
    cbn.
  - by rewrite lookup_insert_eq.
  - by rewrite lookup_delete_eq.
Qed.

(** C7, at the failing path.  When the image was created and the synchronous
    inference call fails, [nativeRecognizeGestureForVideo] returns false
    without freeing the image: the image it created is still live and still
    the caller's, and no [MpImageFree] was made. *)
Theorem C7_sync_failure_keeps_image o h (px : list Byte.byte) wd ht ts w :
  image_create_ok o wd ht (CInt.mul (CInt.mul wd ht) 3) = true →
  recognize_result o = None →
  ∃ w', nativeRecognizeGestureForVideo o h px wd ht ts w = Some (false, w')
    ∧ images (mp w') !! next_image (mp w) = Some Caller
    ∧ trace w' = trace w ++
        [EvImageCreate wd ht (CInt.mul (CInt.mul wd ht) 3) (length px)
                       (Some (next_image (mp w)));
         EvRecognizeForVideo h (next_image (mp w)) ts kMpError].
Proof.
  intros Hok Hfail. unfold nativeRecognizeGestureForVideo.
  destruct w as [s j [lm rc np im ni] t]. mrun. rewrite Hok. mrun.
  rewrite Hfail. mrun. eexists. split; [done|]. split.
  - cbn. apply lookup_insert_eq.
  - trace_eq.
Qed.

(** C7 on a 1 x 1 frame whose recognition fails: image 0 stays with the
    caller. *)
Lemma C7_sync_failure_keeps_image_witness :
  image_create_ok inference_fails 1 1 (CInt.mul (CInt.mul 1 1) 3) = true
  ∧ recognize_result inference_fails = None
  ∧ ∃ w', nativeRecognizeGestureForVideo inference_fails 1 one_pixel 1 1 7
            gesture_session = Some (false, w')
      ∧ images (mp w') !! 0 = Some Caller.
Proof.
  split; [reflexivity|]. split; [reflexivity|].
  destruct (C7_sync_failure_keeps_image inference_fails 1 one_pixel 1 1 7
              gesture_session) as (w' & Hrun & Himg & _);
    [reflexivity|reflexivity|].
  exists w'. split; [exact Hrun|exact Himg].
Defined.

(** ** Closing *)

(** C9, as the code has it.  A close hands the handle to the engine's close
    function every time it is called, and releases the callback reference
    when one is held, clearing the statics.  Called a second time on the same
    handle, it releases no reference and changes no state, but it calls the
    engine's close function again, on a handle that is no longer live. *)
Theorem C9_close_twice h w :
  (∃ w1 w2,
     nativeCloseLandmarker h w = Some ((), w1)
     ∧ nativeCloseLandmarker h w1 = Some ((), w2)
     ∧ (h ∉ landmarkers (mp w1))
     ∧ g_hl_callback (st w1) = None
     ∧ (∀ r, g_hl_callback (st w) = Some r →
             global_refs (rt w1) = delete r (global_refs (rt w))
             ∧ g_hl_onResult (st w1) = None)
     ∧ trace w1 = trace w ++
         [EvLandmarkerClose h (bool_decide (h ∈ landmarkers (mp w)))]
         ++ (if g_hl_callback (st w) is Some r then [EvDeleteGlobalRef r]
             else [])
     ∧ w2 = log [EvLandmarkerClose h false] w1)
  ∧ (∃ w1 w2,
     nativeCloseGestureRecognizer h w = Some ((), w1)
     ∧ nativeCloseGestureRecognizer h w1 = Some ((), w2)
     ∧ (h ∉ recognizers (mp w1))
     ∧ g_gr_callback (st w1) = None
     ∧ (∀ r, g_gr_callback (st w) = Some r →
             global_refs (rt w1) = delete r (global_refs (rt w))
             ∧ g_gr_onResult (st w1) = None)
     ∧ trace w1 = trace w ++
         [EvRecognizerClose h (bool_decide (h ∈ recognizers (mp w)))]
         ++ (if g_gr_callback (st w) is Some r then [EvDeleteGlobalRef r]
             else [])
     ∧ w2 = log [EvRecognizerClose h false] w1).
Proof.
  destruct w as [[jv hc hm gc gm] j [lm rc np im ni] t].
  assert (∀ X : gset Z, h ∉ X ∖ {[h]}) as Hout.
  { intros X. rewrite elem_of_difference, elem_of_singleton. tauto. }
  assert (∀ X : gset Z, (X ∖ {[h]}) ∖ {[h]} = X ∖ {[h]}) as Hidem.
  { intros X. apply set_eq. intros x.
    rewrite !elem_of_difference, elem_of_singleton. tauto. }
  assert (∀ X : gset Z, bool_decide (h ∈ X ∖ {[h]}) = false) as Hdead
    by (intros; by apply bool_decide_eq_false).
  split.
  - unfold nativeCloseLandmarker. mrun.
    destruct hc as [r|]; mrun; eexists _, _;
      (split; [done|]); mrun; rewrite Hidem, Hdead;
      (split; [done|]); (split; [apply Hout|]);
      (split; [done|]); (split; [by intros ? [= <-] || done|]);
      (split; [trace_eq|done]).
  - unfold nativeCloseGestureRecognizer. mrun.
    destruct gc as [r|]; mrun; eexists _, _;
      (split; [done|]); mrun; rewrite Hidem, Hdead;
      (split; [done|]); (split; [apply Hout|]);
      (split; [done|]); (split; [by intros ? [= <-] || done|]);
      (split; [trace_eq|done]).
Qed.

(** Against C9 as stated: the second close of a landmarker is not a no-op,
    the engine is asked again to close handle 1, which is no longer live. *)
Lemma C9_counterexample :
  ∃ w1 w2,
    nativeCloseLandmarker 1 landmarker_session = Some ((), w1)
    ∧ nativeCloseLandmarker 1 w1 = Some ((), w2)
    ∧ trace w2 = trace w1 ++ [EvLandmarkerClose 1 false]
    ∧ trace w2 ≠ trace w1.
Proof.
  eexists _, _. split_and!.
  - vm_compute. reflexivity.
  - vm_compute. reflexivity.
  - vm_compute. reflexivity.
  - vm_compute. discriminate.
Qed.

(** C9 on the landmarker session. *)
Lemma C9_close_twice_witness :
  ∃ w1 w2,
    nativeCloseLandmarker 1 landmarker_session = Some ((), w1)
    ∧ nativeCloseLandmarker 1 w1 = Some ((), w2)
    ∧ g_hl_callback (st w1) = None
    ∧ global_refs (rt w1) = delete 0 (global_refs (rt landmarker_session))
    ∧ w2 = log [EvLandmarkerClose 1 false] w1.
Proof.
  destruct (C9_close_twice 1 landmarker_session)
    as [(w1 & w2 & H1 & H2 & _ & Hc & Hr & _ & Hw2) _].
  exists w1, w2. split; [exact H1|]. split; [exact H2|].
  split; [exact Hc|]. split; [|exact Hw2].
  destruct (Hr 0) as [Hrefs _]; [reflexivity|exact Hrefs].
Defined.

(** ** Results without hands, and failed inference *)

Lemma hl_jResult_none status result :
  status ≠ kMpOk ∨ result = None
  ∨ (∃ r, result = Some r ∧ hl_hand_landmarks r = []) →
  hl_jResult status result = Some None.
Proof.
  unfold hl_jResult. intros [Hs|[->|(r & -> & Hr)]]; [|done|].
  - destruct result; [|done]. rewrite decide_False; [done|]. tauto.
  - rewrite decide_False; [done|]. unfold count_of. rewrite Hr. cbn. lia.
Qed.

Lemma gr_packed_none r :
  gr_hand_landmarks r = [] → gr_packed (Some r) = Some None.
Proof.
  intros Hr. unfold gr_packed, count_of. rewrite Hr.
  rewrite decide_False; [done|]. cbn. lia.
Qed.

(** A recognized result with hands is delivered, before the call returns
    true, as the two arrays the packer builds. *)
Lemma nativeRecognizeGestureForVideo_delivers_packed
    o h (px : list Byte.byte) wd ht ts w cb mid r :
  gr_target w = Some cb →
  g_gr_onResult (st w) = Some mid →
  image_create_ok o wd ht (CInt.mul (CInt.mul wd ht) 3) = true →
  recognize_result o = Some r →
  (0 < count_of (gr_hand_landmarks r) < 2 ^ 31)%Z →
  ∃ buf names w', gr_pack r = Some (buf, names)
    ∧ nativeRecognizeGestureForVideo o h px wd ht ts w = Some (true, w')
    ∧ trace w' = trace w ++
        [EvImageCreate wd ht (CInt.mul (CInt.mul wd ht) 3) (length px)
                       (Some (next_image (mp w)));
         EvRecognizeForVideo h (next_image (mp w)) ts kMpOk;
         EvCallVoidMethod cb mid (GrArgs (Some buf) (Some names) ts);
         EvDeleteLocalRef LocalResult;
         EvDeleteLocalRef LocalNames;
         EvCloseResult].
Proof.
  intros Hcb Hmid Hok Hres Hc.
  destruct (gr_pack_spec r Hc) as (buf & names & Hp & _).
  assert (gr_packed (Some r) = Some (Some (buf, names))) as Hpk.
  { unfold gr_packed. rewrite decide_True by lia. by rewrite Hp. }
  exists buf, names.
  unfold nativeRecognizeGestureForVideo, gr_deliver_result, gr_target in *.
  destruct w as [[jv hc hm gc gm] [refs nr att] [lm rc np im ni] t].
  cbn in Hcb, Hmid. subst gm. destruct gc as [ref|]; [|done].
  cbn [mbind option_bind] in Hcb.
  mrun. rewrite Hok. mrun. rewrite Hres. mrun. rewrite Hpk. mrun.
  rewrite Hcb. mrun. eexists. split; [done|]. split; [done|]. trace_eq.
Qed.

(** C4, as the code has it.  On the asynchronous path, when the status is
    not ok, or no result is passed, or the result has no hand, no array is
    built and the registered callback is invoked with a null array.  On the
    synchronous path, a result without hands is delivered with a null array
    and a null label array; but when the inference call itself fails, the
    callback is not invoked at all and the call returns false. *)
Theorem C4_null_marker :
  (∀ o status result ts w cb mid,
     g_jvm (st w) = true →
     hl_target w = Some cb →
     g_hl_onResult (st w) = Some mid →
     (if attached (rt w) then jni_version_ok o else attach_ok o) = true →
     status ≠ kMpOk ∨ result = None
     ∨ (∃ r, result = Some r ∧ hl_hand_landmarks r = []) →
     hl_jResult status result = Some None
     ∧ ∃ w', hl_on_result o status result ts w = Some ((), w')
         ∧ trace w' = trace w
             ++ (if attached (rt w) then [EvGetEnv JNI_OK]
                 else [EvGetEnv JNI_EDETACHED; EvAttachCurrentThread JNI_OK])
             ++ [EvCallVoidMethod cb mid (HlArgs None ts)]
             ++ (if attached (rt w) then [] else [EvDetachCurrentThread]))
  ∧ (∀ o h (px : list Byte.byte) wd ht ts w cb mid r,
       gr_target w = Some cb →
       g_gr_onResult (st w) = Some mid →
       image_create_ok o wd ht (CInt.mul (CInt.mul wd ht) 3) = true →
       recognize_result o = Some r →
       gr_hand_landmarks r = [] →
       gr_packed (Some r) = Some None
       ∧ ∃ w', nativeRecognizeGestureForVideo o h px wd ht ts w
                 = Some (true, w')
           ∧ trace w' = trace w ++
               [EvImageCreate wd ht (CInt.mul (CInt.mul wd ht) 3) (length px)
                              (Some (next_image (mp w)));
                EvRecognizeForVideo h (next_image (mp w)) ts kMpOk;
                EvCallVoidMethod cb mid (GrArgs None None ts);
                EvCloseResult])
  ∧ (∀ o h (px : list Byte.byte) wd ht ts w,
       image_create_ok o wd ht (CInt.mul (CInt.mul wd ht) 3) = true →
       recognize_result o = None →
       ∃ w', nativeRecognizeGestureForVideo o h px wd ht ts w
               = Some (false, w')
         ∧ trace w' = trace w ++
             [EvImageCreate wd ht (CInt.mul (CInt.mul wd ht) 3) (length px)
                            (Some (next_image (mp w)));
              EvRecognizeForVideo h (next_image (mp w)) ts kMpError]).
Proof.
  split_and!.
  - intros o status result ts w cb mid Hjvm Hcb Hmid Henv Hno.
    pose proof (hl_jResult_none status result Hno) as Hjr.
    split; [done|].
    destruct (hl_on_result_trace o status result ts w cb mid None)
      as (w' & Hrun & Htr); [done..|].
    exists w'. split; [done|]. rewrite Htr. unfold delivery_events.
    destruct (attached (rt w)); rewrite Henv; done.
  - intros o h px wd ht ts w cb mid r Hcb Hmid Hok Hres Hr.
    pose proof (gr_packed_none r Hr) as Hp. split; [done|].
    unfold nativeRecognizeGestureForVideo, gr_deliver_result, gr_target in *.
    destruct w as [[jv hc hm gc gm] [refs nr att] [lm rc np im ni] t].
    cbn in Hcb, Hmid. subst gm. destruct gc as [ref|]; [|done].
    cbn [mbind option_bind] in Hcb.
    mrun. rewrite Hok. mrun. rewrite Hres. mrun. rewrite Hp. mrun.
    rewrite Hcb. mrun. eexists. split; [done|]. trace_eq.
  - intros o h px wd ht ts w Hok Hres.
    unfold nativeRecognizeGestureForVideo.
    destruct w as [s j [lm rc np im ni] t].
    mrun. rewrite Hok. mrun. rewrite Hres. mrun.
    eexists. split; [done|]. trace_eq.
Qed.

(** C4 on a failed asynchronous result, on a synchronous result without
    hands, and on a failed synchronous call. *)
Lemma C4_null_marker_witness :
  (∃ w', hl_on_result all_ok kMpError (Some one_hand) 7 landmarker_session
           = Some ((), w')
     ∧ trace w' = trace landmarker_session
         ++ [EvGetEnv JNI_OK;
             EvCallVoidMethod hl_callback_object ("onResult", "([FJ)V")
                              (HlArgs None 7)])
  ∧ (∃ w', nativeRecognizeGestureForVideo finds_no_hand 1 one_pixel 1 1 7
             gesture_session = Some (true, w')
       ∧ trace w' = trace gesture_session
           ++ [EvImageCreate 1 1 3 3 (Some 0);
               EvRecognizeForVideo 1 0 7 kMpOk;
               EvCallVoidMethod gr_callback_object
                 ("onResult", "([F[Ljava/lang/String;J)V")
                 (GrArgs None None 7);
               EvCloseResult])
  ∧ (∃ w', nativeRecognizeGestureForVideo inference_fails 1 one_pixel 1 1 7
             gesture_session = Some (false, w')
       ∧ trace w' = trace gesture_session
           ++ [EvImageCreate 1 1 3 3 (Some 0);
               EvRecognizeForVideo 1 0 7 kMpError]).
Proof.
  destruct C4_null_marker as (Hasync & Hnone & Hfail). split_and!.
  - destruct (Hasync all_ok kMpError (Some one_hand) 7%Z landmarker_session
                hl_callback_object ("onResult", "([FJ)V")%string)
      as (_ & w' & Hrun & Htr);
      [reflexivity|reflexivity|reflexivity|reflexivity|by left|].
    exists w'. split; [exact Hrun|exact Htr].
  - destruct (Hnone finds_no_hand 1%Z one_pixel 1%Z 1%Z 7%Z gesture_session
                gr_callback_object
                ("onResult", "([F[Ljava/lang/String;J)V")%string no_hands)
      as (_ & w' & Hrun & Htr);
      [reflexivity|reflexivity|reflexivity|reflexivity|reflexivity|].
    exists w'. split; [exact Hrun|exact Htr].
  - destruct (Hfail inference_fails 1%Z one_pixel 1%Z 1%Z 7%Z gesture_session)
      as (w' & Hrun & Htr); [reflexivity|reflexivity|].
    exists w'. split; [exact Hrun|exact Htr].
Defined.

(** Against C4 as stated: the recognition of a frame fails on a session with
    a registered callback; the call returns false and the whole trace has no
    invocation of a callback, with a null array or otherwise. *)
Lemma C4_counterexample :
  recognize_result inference_fails = None
  ∧ gr_target gesture_session = Some gr_callback_object
  ∧ ∃ w', nativeRecognizeGestureForVideo inference_fails 1 one_pixel 1 1 7
            gesture_session = Some (false, w')
      ∧ existsb is_call (trace w') = false.
Proof.
  split; [reflexivity|]. split; [vm_compute; reflexivity|].
  eexists. split.
  - vm_compute. reflexivity.
  - vm_compute. reflexivity.
Qed.

(** ** The callback references *)

Lemma same_refs_inv w w' : same_refs w w' → refs_inv w → refs_inv w'.
Proof.
  intros (Hh & Hg & Hr & Hn). unfold refs_inv. by rewrite Hh, Hg, Hr, Hn.
Qed.

Lemma same_refs_hl_target w w' : same_refs w w' → hl_target w' = hl_target w.
Proof. intros (Hh & _ & Hr & _). unfold hl_target. by rewrite Hh, Hr. Qed.

Lemma same_refs_gr_target w w' : same_refs w w' → gr_target w' = gr_target w.
Proof. intros (_ & Hg & Hr & _). unfold gr_target. by rewrite Hg, Hr. Qed.

Lemma calls_on_targets_nil w : calls_on_targets w [].
Proof. intros ob mid args Hin. by apply elem_of_nil in Hin. Qed.

(** Membership of an invocation in an explicit list of events. *)
Ltac call_in_list :=
  intros ? ? ? Hin; cbn in Hin;
  repeat (rewrite elem_of_cons in Hin; destruct Hin as [Hin|Hin];
          [try discriminate; simplify_eq |]);
  try (by apply elem_of_nil in Hin).

Lemma hl_on_result_frame o status result ts w w' :
  hl_on_result o status result ts w = Some ((), w') →
  same_refs w w'
  ∧ ∃ t, trace w' = trace w ++ t ∧ calls_on_targets w t.
Proof.
  unfold hl_on_result, same_refs, calls_on_targets, hl_target. mrun.
  case_bool_decide as Hg.
  { intros [= <-]. split; [done|]. exists []. split; [by rewrite app_nil_r|].
    apply calls_on_targets_nil. }
  rewrite bind_run, attach_jvm_run.
  destruct w as [[jv hc hm gc gm] [refs nr att] e t]. mrun.
  destruct att.
  - destruct (jni_version_ok o); mrun.
    + destruct (hl_jResult status result) as [jr|]; mrun; [|done].
      destruct hc as [r|]; [|done]. destruct hm as [m|]; [|done]. mrun.
      destruct (refs !! r) as [ob|] eqn:Hob; [|done]. mrun.
      destruct jr; mrun; intros [= <-]; (split; [done|]);
        eexists; (split; [trace_eq|]); call_in_list; done.
    + intros [= <-]. split; [done|]. eexists; split; [trace_eq|].
      call_in_list.
  - destruct (attach_ok o); mrun.
    + destruct (hl_jResult status result) as [jr|]; mrun; [|done].
      destruct hc as [r|]; [|done]. destruct hm as [m|]; [|done]. mrun.
      destruct (refs !! r) as [ob|] eqn:Hob; [|done]. mrun.
      destruct jr; mrun; intros [= <-]; (split; [done|]);
        eexists; (split; [trace_eq|]); call_in_list; done.
    + intros [= <-]. split; [done|]. eexists; split; [trace_eq|].
      call_in_list.
Qed.

Lemma nativeDetectAsync_frame o h (px : list Byte.byte) wd ht ts w w' :
  nativeDetectAsync o h px wd ht ts w = Some ((), w') →
  same_refs w w'
  ∧ ∃ t, trace w' = trace w ++ t ∧ calls_on_targets w t.
Proof.
  unfold nativeDetectAsync, same_refs, calls_on_targets.
  destruct w as [s j [lm rc np im ni] t]. mrun.
  destruct (image_create_ok o wd ht _); mrun.
  - destruct (detect_async_status o); mrun; intros [= <-];
      (split; [done|]); eexists; (split; [trace_eq|]); call_in_list.
  - intros [= <-]. split; [done|]. eexists; split; [trace_eq|].
    call_in_list.
Qed.

Lemma nativeRecognizeGestureForVideo_frame o h (px : list Byte.byte)
    wd ht ts w b w' :
  nativeRecognizeGestureForVideo o h px wd ht ts w = Some (b, w') →
  same_refs w w'
  ∧ ∃ t, trace w' = trace w ++ t ∧ calls_on_targets w t.
Proof.
  unfold nativeRecognizeGestureForVideo, gr_deliver_result, same_refs,
    calls_on_targets, gr_target.
  destruct w as [[jv hc hm gc gm] [refs nr att] [lm rc np im ni] t]. mrun.
  destruct (image_create_ok o wd ht _); mrun.
  - destruct (recognize_result o) as [r|]; mrun.
    + destruct (gr_packed (Some r)) as [p|]; mrun; [|done].
      destruct gc as [ref|]; [|done]. destruct gm as [m|]; [|done]. mrun.
      destruct (refs !! ref) as [ob|] eqn:Hob; [|done]. mrun.
      destruct p as [[b1 n1]|]; mrun; intros [= <- <-]; (split; [done|]);
        eexists; (split; [trace_eq|]); call_in_list; done.
    + intros [= <- <-]. split; [done|]. eexists; split; [trace_eq|].
      call_in_list.
  - intros [= <- <-]. split; [done|]. eexists; split; [trace_eq|].
    call_in_list.
Qed.

Lemma nativeCreateLandmarker_run o path cb w :
  ∃ h w1 rest,
    nativeCreateLandmarker o path (Some cb) w = Some (h, w1)
    ∧ trace w1 = trace w ++ release_old (g_hl_callback (st w))
                 ++ EvNewGlobalRef cb (next_ref (rt w)) :: rest
    ∧ existsb is_call rest = false
    ∧ g_hl_callback (st w1) = Some (next_ref (rt w))
    ∧ g_gr_callback (st w1) = g_gr_callback (st w)
    ∧ global_refs (rt w1)
      = replaced (g_hl_callback (st w)) (next_ref (rt w)) cb
                 (global_refs (rt w))
    ∧ next_ref (rt w1) = S (next_ref (rt w)).
Proof.
  unfold nativeCreateLandmarker, replaced, release_old.
  destruct w as [[jv hc hm gc gm] [refs nr att] [lm rc np im ni] t]. mrun.
  destruct hc as [r0|]; mrun;
    (destruct (GetMethodID (obj_methods cb) _ _) as [m|]; mrun;
     [destruct (create_error o) as [msg|]; mrun|]);
    eexists _, _, _; (split; [done|]);
    (split; [trace_eq|]); done.
Qed.

Lemma nativeCreateGestureRecognizer_run o path n cb w :
  ∃ h w1 rest,
    nativeCreateGestureRecognizer o path n (Some cb) w = Some (h, w1)
    ∧ trace w1 = trace w ++ release_old (g_gr_callback (st w))
                 ++ EvNewGlobalRef cb (next_ref (rt w)) :: rest
    ∧ existsb is_call rest = false
    ∧ g_gr_callback (st w1) = Some (next_ref (rt w))
    ∧ g_hl_callback (st w1) = g_hl_callback (st w)
    ∧ global_refs (rt w1)
      = replaced (g_gr_callback (st w)) (next_ref (rt w)) cb
                 (global_refs (rt w))
    ∧ next_ref (rt w1) = S (next_ref (rt w)).
Proof.
  unfold nativeCreateGestureRecognizer, replaced, release_old.
  destruct w as [[jv hc hm gc gm] [refs nr att] [lm rc np im ni] t]. mrun.
  destruct gc as [r0|]; mrun;
    (destruct (GetMethodID (obj_methods cb) _ _) as [m|]; mrun;
     [destruct (create_error o) as [msg|]; mrun|]);
    eexists _, _, _; (split; [done|]);
    (split; [trace_eq|]); done.
Qed.

(** A create call with a null callback object does not return: the class of
    a null object is asked for. *)
Lemma nativeCreateLandmarker_null o path w :
  nativeCreateLandmarker o path None w = None.
Proof.
  unfold nativeCreateLandmarker. destruct w as [[jv hc hm gc gm] j e t].
  mrun. destruct hc; mrun; done.
Qed.

Lemma nativeCreateGestureRecognizer_null o path n w :
  nativeCreateGestureRecognizer o path n None w = None.
Proof.
  unfold nativeCreateGestureRecognizer.
  destruct w as [[jv hc hm gc gm] j e t].
  mrun. destruct gc; mrun; done.
Qed.

Lemma replaced_lookup old r cb (refs : gmap nat jobject) k :
  replaced old r cb refs !! k
  = if decide (k = r) then Some cb
    else if decide (old = Some k) then None
    else refs !! k.
Proof.
  unfold replaced. case_decide as Hk.
  - subst k. by rewrite lookup_insert_eq.
  - rewrite lookup_insert_ne by done. destruct old as [r0|].
    + case_decide as Hr.
      * injection Hr as ->. by rewrite lookup_delete_eq.
      * rewrite lookup_delete_ne; [done|]. congruence.
    + by rewrite decide_False.
Qed.

(** The invariant after a registration for the landmarker. *)
Lemma refs_inv_register_hl w w1 cb :
  refs_inv w →
  g_hl_callback (st w1) = Some (next_ref (rt w)) →
  g_gr_callback (st w1) = g_gr_callback (st w) →
  global_refs (rt w1)
  = replaced (g_hl_callback (st w)) (next_ref (rt w)) cb
             (global_refs (rt w)) →
  next_ref (rt w1) = S (next_ref (rt w)) →
  refs_inv w1
  ∧ hl_target w1 = Some cb
  ∧ gr_target w1 = gr_target w
  ∧ (∀ r0, g_hl_callback (st w) = Some r0 →
           global_refs (rt w1) !! r0 = None).
Proof.
  intros (Hlive & Hlt & Hne) Hh Hg Hr Hn.
  assert (∀ r, g_gr_callback (st w) = Some r → r ≠ next_ref (rt w)) as Hfresh.
  { intros r Hgr ->. assert (next_ref (rt w) < next_ref (rt w)); [|lia].
    apply Hlt, Hlive. by right. }
  split_and!.
  - unfold refs_inv. rewrite Hh, Hg, Hr, Hn. split_and!.
    + intros r. rewrite replaced_lookup. case_decide as Hk.
      * subst r. split; [by left|by eexists].
      * case_decide as Hold.
        -- split; [by intros [? ?]|].
           intros [[= ?]|Hgr]; [done|]. by destruct (Hne r Hold).
        -- rewrite Hlive. split.
           ++ intros [?|?]; [done|by right].
           ++ intros [[= ?]|?]; [done|by right].
    + intros r. rewrite replaced_lookup. case_decide as Hk; [lia|].
      case_decide; [by intros [? ?]|]. intros Hs. apply Hlt in Hs. lia.
    + intros r [= <-] Hgr. by apply (Hfresh _ Hgr).
  - unfold hl_target. rewrite Hh. cbn [mbind option_bind].
    rewrite Hr, replaced_lookup. by rewrite decide_True.
  - unfold gr_target. rewrite Hg.
    destruct (g_gr_callback (st w)) as [r|] eqn:Hgr; [|done].
    cbn [mbind option_bind]. rewrite Hr, replaced_lookup.
    rewrite decide_False by (by apply Hfresh).
    rewrite decide_False; [done|]. intros Hold. by destruct (Hne r Hold).
  - intros r0 Hold. rewrite Hr, replaced_lookup.
    rewrite decide_False.
    + by rewrite decide_True.
    + assert (r0 < next_ref (rt w)); [|lia]. apply Hlt, Hlive. by left.
Qed.

(** The same for the gesture recognizer. *)
Lemma refs_inv_register_gr w w1 cb :
  refs_inv w →
  g_gr_callback (st w1) = Some (next_ref (rt w)) →
  g_hl_callback (st w1) = g_hl_callback (st w) →
  global_refs (rt w1)
  = replaced (g_gr_callback (st w)) (next_ref (rt w)) cb
             (global_refs (rt w)) →
  next_ref (rt w1) = S (next_ref (rt w)) →
  refs_inv w1
  ∧ gr_target w1 = Some cb
  ∧ hl_target w1 = hl_target w
  ∧ (∀ r0, g_gr_callback (st w) = Some r0 →
           global_refs (rt w1) !! r0 = None).
Proof.
  intros (Hlive & Hlt & Hne) Hg Hh Hr Hn.
  assert (∀ r, g_hl_callback (st w) = Some r → r ≠ next_ref (rt w)) as Hfresh.
  { intros r Hhl ->. assert (next_ref (rt w) < next_ref (rt w)); [|lia].
    apply Hlt, Hlive. by left. }
  split_and!.
  - unfold refs_inv. rewrite Hh, Hg, Hr, Hn. split_and!.
    + intros r. rewrite replaced_lookup. case_decide as Hk.
      * subst r. split; [by right|by eexists].
      * case_decide as Hold.
        -- split; [by intros [? ?]|].
           intros [Hhl|[= ?]]; [|done]. by destruct (Hne r Hhl).
        -- rewrite Hlive. split.
           ++ intros [?|?]; [by left|done].
           ++ intros [?|[= ?]]; [by left|done].
    + intros r. rewrite replaced_lookup. case_decide as Hk; [lia|].
      case_decide; [by intros [? ?]|]. intros Hs. apply Hlt in Hs. lia.
    + intros r Hhl [= <-]. by apply (Hfresh _ Hhl).
  - unfold gr_target. rewrite Hg. cbn [mbind option_bind].
    rewrite Hr, replaced_lookup. by rewrite decide_True.
  - unfold hl_target. rewrite Hh.
    destruct (g_hl_callback (st w)) as [r|] eqn:Hhl; [|done].
    cbn [mbind option_bind]. rewrite Hr, replaced_lookup.
    rewrite decide_False by (by apply Hfresh).
    rewrite decide_False; [done|]. intros Hold. by destruct (Hne r eq_refl).
  - intros r0 Hold. rewrite Hr, replaced_lookup.
    rewrite decide_False.
    + by rewrite decide_True.
    + assert (r0 < next_ref (rt w)); [|lia]. apply Hlt, Hlive. by right.
Qed.

Lemma nativeCloseLandmarker_run h w :
  ∃ w1, nativeCloseLandmarker h w = Some ((), w1)
    ∧ g_hl_callback (st w1) = None
    ∧ g_gr_callback (st w1) = g_gr_callback (st w)
    ∧ global_refs (rt w1)
      = (if g_hl_callback (st w) is Some r then delete r (global_refs (rt w))
         else global_refs (rt w))
    ∧ next_ref (rt w1) = next_ref (rt w)
    ∧ trace w1 = trace w
        ++ EvLandmarkerClose h (bool_decide (h ∈ landmarkers (mp w)))
           :: release_old (g_hl_callback (st w)).
Proof.
  unfold nativeCloseLandmarker, release_old.
  destruct w as [[jv hc hm gc gm] [refs nr att] [lm rc np im ni] t]. mrun.
  destruct hc as [r|]; mrun; eexists; (split; [done|]);
    split_and!; try done; trace_eq.
Qed.

Lemma nativeCloseGestureRecognizer_run h w :
  ∃ w1, nativeCloseGestureRecognizer h w = Some ((), w1)
    ∧ g_gr_callback (st w1) = None
    ∧ g_hl_callback (st w1) = g_hl_callback (st w)
    ∧ global_refs (rt w1)
      = (if g_gr_callback (st w) is Some r then delete r (global_refs (rt w))
         else global_refs (rt w))
    ∧ next_ref (rt w1) = next_ref (rt w)
    ∧ trace w1 = trace w
        ++ EvRecognizerClose h (bool_decide (h ∈ recognizers (mp w)))
           :: release_old (g_gr_callback (st w)).
Proof.
  unfold nativeCloseGestureRecognizer, release_old.
  destruct w as [[jv hc hm gc gm] [refs nr att] [lm rc np im ni] t]. mrun.
  destruct gc as [r|]; mrun; eexists; (split; [done|]);
    split_and!; try done; trace_eq.
Qed.

(** The invariant after a close. *)
Lemma refs_inv_close_hl w w1 :
  refs_inv w →
  g_hl_callback (st w1) = None →
  g_gr_callback (st w1) = g_gr_callback (st w) →
  global_refs (rt w1)
  = (if g_hl_callback (st w) is Some r then delete r (global_refs (rt w))
     else global_refs (rt w)) →
  next_ref (rt w1) = next_ref (rt w) →
  refs_inv w1 ∧ gr_target w1 = gr_target w.
Proof.
  intros (Hlive & Hlt & Hne) Hh Hg Hr Hn.
  assert (∀ r, global_refs (rt w1) !! r
               = if decide (g_hl_callback (st w) = Some r) then None
                 else global_refs (rt w) !! r) as Hlook.
  { intros r. rewrite Hr. destruct (g_hl_callback (st w)) as [r0|].
    - case_decide as Hd.
      + injection Hd as ->. by rewrite lookup_delete_eq.
      + rewrite lookup_delete_ne; [done|]. congruence.
    - by rewrite decide_False. }
  split.
  - unfold refs_inv. rewrite Hh, Hg, Hn. split_and!.
    + intros r. rewrite Hlook. case_decide as Hd.
      * split; [by intros [? ?]|]. intros [?|Hgr]; [done|].
        by destruct (Hne r Hd).
      * rewrite Hlive. split; [intros [?|?]; [done|by right]|].
        intros [?|?]; [done|by right].
    + intros r. rewrite Hlook. case_decide; [by intros [? ?]|]. apply Hlt.
    + done.
  - unfold gr_target. rewrite Hg.
    destruct (g_gr_callback (st w)) as [r|] eqn:Hgr; [|done].
    cbn [mbind option_bind]. rewrite Hlook. rewrite decide_False; [done|].
    intros Hd. by destruct (Hne r Hd).
Qed.

Lemma refs_inv_close_gr w w1 :
  refs_inv w →
  g_gr_callback (st w1) = None →
  g_hl_callback (st w1) = g_hl_callback (st w) →
  global_refs (rt w1)
  = (if g_gr_callback (st w) is Some r then delete r (global_refs (rt w))
     else global_refs (rt w)) →
  next_ref (rt w1) = next_ref (rt w) →
  refs_inv w1 ∧ hl_target w1 = hl_target w.
Proof.
  intros (Hlive & Hlt & Hne) Hg Hh Hr Hn.
  assert (∀ r, global_refs (rt w1) !! r
               = if decide (g_gr_callback (st w) = Some r) then None
                 else global_refs (rt w) !! r) as Hlook.
  { intros r. rewrite Hr. destruct (g_gr_callback (st w)) as [r0|].
    - case_decide as Hd.
      + injection Hd as ->. by rewrite lookup_delete_eq.
      + rewrite lookup_delete_ne; [done|]. congruence.
    - by rewrite decide_False. }
  split.
  - unfold refs_inv. rewrite Hh, Hg, Hn. split_and!.
    + intros r. rewrite Hlook. case_decide as Hd.
      * split; [by intros [? ?]|]. intros [Hhl|?]; [|done].
        by destruct (Hne r Hhl).
      * rewrite Hlive. split; [intros [?|?]; [by left|done]|].
        intros [?|?]; [by left|done].
    + intros r. rewrite Hlook. case_decide; [by intros [? ?]|]. apply Hlt.
    + done.
  - unfold hl_target. rewrite Hh.
    destruct (g_hl_callback (st w)) as [r|] eqn:Hhl; [|done].
    cbn [mbind option_bind]. rewrite Hlook. rewrite decide_False; [done|].
    intros Hd. by destruct (Hne r eq_refl).
Qed.

Lemma refs_inv_initial : refs_inv initial.
Proof.
  unfold refs_inv. cbn. split_and!.
  - intros r. rewrite lookup_empty. split; [by intros [? ?]|].
    by intros [?|?].
  - intros r. rewrite lookup_empty. by intros [? ?].
  - done.
Qed.

(** Events without an invocation. *)
Lemma calls_on_targets_none w t :
  existsb is_call t = false → calls_on_targets w t.
Proof.
  intros Hno ob mid args Hin.
  assert (existsb is_call t = true); [|congruence].
  apply existsb_exists. exists (EvCallVoidMethod ob mid args).
  split; [by apply list_elem_of_In|done].
Qed.

Lemma existsb_is_call_release old ev rest :
  is_call ev = false →
  existsb is_call rest = false →
  existsb is_call (release_old old ++ ev :: rest) = false.
Proof.
  intros Hev Hrest. rewrite existsb_app. cbn. rewrite Hev, Hrest.
  by destruct old.
Qed.

(** Entering a call on a thread changes neither statics nor references. *)
Lemma on_thread_same a w : same_refs w (upd_rt (set_attached a) w).
Proof. done. Qed.

Lemma calls_on_targets_same w w0 t :
  same_refs w w0 → calls_on_targets w0 t → calls_on_targets w t.
Proof.
  intros Hs Hc ob mid args Hin. specialize (Hc ob mid args Hin).
  rewrite (same_refs_hl_target _ _ Hs), (same_refs_gr_target _ _ Hs) in Hc.
  done.
Qed.

(** One call: the invariant is kept, the targets change only through a
    registration or a close of their own task, and every invocation goes to
    the target of its shape. *)
Lemma step_spec oc w w' :
  refs_inv w →
  step oc w = Some ((), w') →
  refs_inv w'
  ∧ (keeps_hl_callback oc → hl_target w' = hl_target w)
  ∧ (keeps_gr_callback oc → gr_target w' = gr_target w)
  ∧ ∃ t, trace w' = trace w ++ t ∧ calls_on_targets w t.
Proof.
  intros Hinv. destruct oc as [o c].
  unfold step, keeps_hl_callback, keeps_gr_callback. cbn [fst snd].
  set (w0 := upd_rt (set_attached true) w).
  assert (same_refs w w0) as Hs0 by apply on_thread_same.
  assert (trace w0 = trace w) as Ht0 by done.
  pose proof (same_refs_inv _ _ Hs0 Hinv) as Hinv0.
  destruct c as [|p cb|h px wd ht ts|h|p n cb|h px wd ht ts|h|a status res ts];
    rewrite bind_run; cbn [on_thread modify]; fold w0.
  - (* OnLoad *)
    unfold JNI_OnLoad. mrun. intros [= <-].
    assert (same_refs w (upd_st (set_g_jvm true) w0)) as Hs by done.
    split_and!.
    + by apply (same_refs_inv _ _ Hs).
    + intros _. by apply same_refs_hl_target.
    + intros _. by apply same_refs_gr_target.
    + exists []. split; [by rewrite app_nil_r|]. apply calls_on_targets_nil.
  - (* CreateLandmarker *)
    destruct cb as [cb|];
      [|by rewrite bind_run, nativeCreateLandmarker_null].
    destruct (nativeCreateLandmarker_run o p cb w0)
      as (h & w1 & rest & Hrun & Htr & Hno & Hh & Hg & Hr & Hn).
    rewrite bind_run, Hrun. intros [= <-].
    destruct (refs_inv_register_hl w0 w1 cb Hinv0 Hh Hg Hr Hn)
      as (Hinv1 & _ & Hgt & _).
    split_and!; [done|done| |].
    + intros _. by rewrite Hgt, (same_refs_gr_target _ _ Hs0).
    + eexists. split; [by rewrite Htr, Ht0|].
      apply calls_on_targets_none. by apply existsb_is_call_release.
  - (* DetectAsync *)
    intros Hrun. destruct (nativeDetectAsync_frame _ _ _ _ _ _ _ _ Hrun)
      as (Hs & t & Htr & Hc).
    pose proof (same_refs_inv _ _ Hs Hinv0) as Hinv1.
    split_and!; [done| | |].
    + intros _. by rewrite (same_refs_hl_target _ _ Hs),
        (same_refs_hl_target _ _ Hs0).
    + intros _. by rewrite (same_refs_gr_target _ _ Hs),
        (same_refs_gr_target _ _ Hs0).
    + exists t. split; [by rewrite Htr, Ht0|].
      by apply (calls_on_targets_same _ _ _ Hs0).
  - (* CloseLandmarker *)
    destruct (nativeCloseLandmarker_run h w0)
      as (w1 & Hrun & Hh & Hg & Hr & Hn & Htr).
    rewrite Hrun. intros [= <-].
    destruct (refs_inv_close_hl w0 w1 Hinv0 Hh Hg Hr Hn) as (Hinv1 & Hgt).
    split_and!; [done|done| |].
    + intros _. by rewrite Hgt, (same_refs_gr_target _ _ Hs0).
    + eexists. split; [by rewrite Htr, Ht0|].
      apply calls_on_targets_none. unfold release_old.
      by destruct (g_hl_callback (st w0)).
  - (* CreateGestureRecognizer *)
    destruct cb as [cb|];
      [|by rewrite bind_run, nativeCreateGestureRecognizer_null].
    destruct (nativeCreateGestureRecognizer_run o p n cb w0)
      as (h & w1 & rest & Hrun & Htr & Hno & Hg & Hh & Hr & Hn).
    rewrite bind_run, Hrun. intros [= <-].
    destruct (refs_inv_register_gr w0 w1 cb Hinv0 Hg Hh Hr Hn)
      as (Hinv1 & _ & Hht & _).
    split_and!; [done| |done|].
    + intros _. by rewrite Hht, (same_refs_hl_target _ _ Hs0).
    + eexists. split; [by rewrite Htr, Ht0|].
      apply calls_on_targets_none. by apply existsb_is_call_release.
  - (* RecognizeGestureForVideo *)
    rewrite bind_run.
    destruct (nativeRecognizeGestureForVideo o h px wd ht ts w0)
      as [[b w1]|] eqn:Hrun; [|done].
    intros [= <-].
    destruct (nativeRecognizeGestureForVideo_frame _ _ _ _ _ _ _ _ _ Hrun)
      as (Hs & t & Htr & Hc).
    pose proof (same_refs_inv _ _ Hs Hinv0) as Hinv1.
    split_and!; [done| | |].
    + intros _. by rewrite (same_refs_hl_target _ _ Hs),
        (same_refs_hl_target _ _ Hs0).
    + intros _. by rewrite (same_refs_gr_target _ _ Hs),
        (same_refs_gr_target _ _ Hs0).
    + exists t. split; [by rewrite Htr, Ht0|].
      by apply (calls_on_targets_same _ _ _ Hs0).
  - (* CloseGestureRecognizer *)
    destruct (nativeCloseGestureRecognizer_run h w0)
      as (w1 & Hrun & Hg & Hh & Hr & Hn & Htr).
    rewrite Hrun. intros [= <-].
    destruct (refs_inv_close_gr w0 w1 Hinv0 Hg Hh Hr Hn) as (Hinv1 & Hht).
    split_and!; [done| |done|].
    + intros _. by rewrite Hht, (same_refs_hl_target _ _ Hs0).
    + eexists. split; [by rewrite Htr, Ht0|].
      apply calls_on_targets_none. unfold release_old.
      by destruct (g_gr_callback (st w0)).
  - (* ResultReady *)
    clear w0 Hs0 Ht0 Hinv0.
    set (w0 := upd_rt (set_attached a) w).
    assert (same_refs w w0) as Hs0 by apply on_thread_same.
    assert (trace w0 = trace w) as Ht0 by done.
    pose proof (same_refs_inv _ _ Hs0 Hinv) as Hinv0.
    intros Hrun. destruct (hl_on_result_frame _ _ _ _ _ _ Hrun)
      as (Hs & t & Htr & Hc).
    pose proof (same_refs_inv _ _ Hs Hinv0) as Hinv1.
    split_and!; [done| | |].
    + intros _. by rewrite (same_refs_hl_target _ _ Hs),
        (same_refs_hl_target _ _ Hs0).
    + intros _. by rewrite (same_refs_gr_target _ _ Hs),
        (same_refs_gr_target _ _ Hs0).
    + exists t. split; [by rewrite Htr, Ht0|].
      by apply (calls_on_targets_same _ _ _ Hs0).
Qed.

Lemma run_inv cs w w' :
  refs_inv w → run cs w = Some ((), w') → refs_inv w'.
Proof.
  revert w. induction cs as [|c cs IH]; intros w Hinv; cbn [run].
  - by intros [= <-].
  - rewrite bind_run. destruct (step c w) as [[[] w1]|] eqn:Hstep; [|done].
    destruct (step_spec c w w1 Hinv Hstep) as (Hinv1 & _). by apply IH.
Qed.

Lemma run_keeps_hl cs w w' cb :
  refs_inv w →
  Forall keeps_hl_callback cs →
  hl_target w = Some cb →
  run cs w = Some ((), w') →
  hl_target w' = Some cb
  ∧ ∃ t, trace w' = trace w ++ t ∧ hl_calls_to cb t.
Proof.
  revert w. induction cs as [|c cs IH]; intros w Hinv Hkeep Htgt; cbn [run].
  - intros [= <-]. split; [done|]. exists []. split; [by rewrite app_nil_r|].
    intros ob mid jr ts Hin. by apply elem_of_nil in Hin.
  - rewrite bind_run. destruct (step c w) as [[[] w1]|] eqn:Hstep; [|done].
    apply Forall_cons in Hkeep as [Hc Hcs].
    destruct (step_spec c w w1 Hinv Hstep)
      as (Hinv1 & Hh & _ & t1 & Htr1 & Hcalls).
    intros Hrun.
    destruct (IH w1 Hinv1 Hcs) as (Htgt' & t2 & Htr2 & Hcalls2);
      [by rewrite Hh|done|].
    split; [done|]. exists (t1 ++ t2).
    split; [by rewrite Htr2, Htr1, app_assoc|].
    intros ob mid jr ts [Hin|Hin]%elem_of_app.
    + specialize (Hcalls ob mid _ Hin). cbn in Hcalls. congruence.
    + by apply (Hcalls2 ob mid jr ts).
Qed.

Lemma run_keeps_gr cs w w' cb :
  refs_inv w →
  Forall keeps_gr_callback cs →
  gr_target w = Some cb →
  run cs w = Some ((), w') →
  gr_target w' = Some cb
  ∧ ∃ t, trace w' = trace w ++ t ∧ gr_calls_to cb t.
Proof.
  revert w. induction cs as [|c cs IH]; intros w Hinv Hkeep Htgt; cbn [run].
  - intros [= <-]. split; [done|]. exists []. split; [by rewrite app_nil_r|].
    intros ob mid jr jn ts Hin. by apply elem_of_nil in Hin.
  - rewrite bind_run. destruct (step c w) as [[[] w1]|] eqn:Hstep; [|done].
    apply Forall_cons in Hkeep as [Hc Hcs].
    destruct (step_spec c w w1 Hinv Hstep)
      as (Hinv1 & _ & Hg & t1 & Htr1 & Hcalls).
    intros Hrun.
    destruct (IH w1 Hinv1 Hcs) as (Htgt' & t2 & Htr2 & Hcalls2);
      [by rewrite Hg|done|].
    split; [done|]. exists (t1 ++ t2).
    split; [by rewrite Htr2, Htr1, app_assoc|].
    intros ob mid jr jn ts [Hin|Hin]%elem_of_app.
    + specialize (Hcalls ob mid _ Hin). cbn in Hcalls. congruence.
    + by apply (Hcalls2 ob mid jr jn ts).
Qed.

(** C6. In every state the calls can reach, the live callback references are
    exactly the ones the statics hold: at most one for the landmarker and at
    most one for the gesture recognizer, none dangling.  A create call with a
    callback returns, and releases the reference held before it installs the
    new one; the old reference is dead afterwards, and every delivery of
    that task made after it, until the next create or close of that task,
    is an invocation on the new callback object. *)
Theorem C6_single_callback cs w :
  run cs initial = Some ((), w) →
  refs_inv w
  ∧ (∀ o path cb, ∃ h w1 rest,
       nativeCreateLandmarker o path (Some cb) w = Some (h, w1)
       ∧ trace w1 = trace w ++ release_old (g_hl_callback (st w))
                    ++ EvNewGlobalRef cb (next_ref (rt w)) :: rest
       ∧ (∀ r0, g_hl_callback (st w) = Some r0 →
                global_refs (rt w1) !! r0 = None)
       ∧ refs_inv w1
       ∧ hl_target w1 = Some cb
       ∧ ∀ cs2 w2, Forall keeps_hl_callback cs2 →
           run cs2 w1 = Some ((), w2) →
           hl_target w2 = Some cb
           ∧ ∃ t, trace w2 = trace w1 ++ t ∧ hl_calls_to cb t)
  ∧ (∀ o path n cb, ∃ h w1 rest,
       nativeCreateGestureRecognizer o path n (Some cb) w = Some (h, w1)
       ∧ trace w1 = trace w ++ release_old (g_gr_callback (st w))
                    ++ EvNewGlobalRef cb (next_ref (rt w)) :: rest
       ∧ (∀ r0, g_gr_callback (st w) = Some r0 →
                global_refs (rt w1) !! r0 = None)
       ∧ refs_inv w1
       ∧ gr_target w1 = Some cb
       ∧ ∀ cs2 w2, Forall keeps_gr_callback cs2 →
           run cs2 w1 = Some ((), w2) →
           gr_target w2 = Some cb
           ∧ ∃ t, trace w2 = trace w1 ++ t ∧ gr_calls_to cb t).
Proof.
  intros Hrun. pose proof (run_inv _ _ _ refs_inv_initial Hrun) as Hinv.
  split_and!; [done| |].
  - intros o path cb.
    destruct (nativeCreateLandmarker_run o path cb w)
      as (h & w1 & rest & Hc & Htr & _ & Hh & Hg & Hr & Hn).
    destruct (refs_inv_register_hl w w1 cb Hinv Hh Hg Hr Hn)
      as (Hinv1 & Htgt & _ & Hdead).
    exists h, w1, rest. split_and!; [done..|].
    intros cs2 w2 Hkeep Hrun2. by apply (run_keeps_hl cs2 w1).
  - intros o path n cb.
    destruct (nativeCreateGestureRecognizer_run o path n cb w)
      as (h & w1 & rest & Hc & Htr & _ & Hg & Hh & Hr & Hn).
    destruct (refs_inv_register_gr w w1 cb Hinv Hg Hh Hr Hn)
      as (Hinv1 & Htgt & _ & Hdead).
    exists h, w1, rest. split_and!; [done..|].
    intros cs2 w2 Hkeep Hrun2. by apply (run_keeps_gr cs2 w1).
Qed.

(** C6 on a landmarker session whose callback is replaced: reference 0 is
    released, then reference 1 is made for the new object, and a delivery
    that follows leaves the new object as the target. *)
Lemma C6_single_callback_witness :
  run landmarker_calls initial = Some ((), landmarker_session)
  ∧ refs_inv landmarker_session
  ∧ ∃ h w1 w2 rest,
      nativeCreateLandmarker all_ok "other.task" (Some second_callback_object)
                             landmarker_session = Some (h, w1)
      ∧ trace w1 = trace landmarker_session
                   ++ [EvDeleteGlobalRef 0]
                   ++ EvNewGlobalRef second_callback_object 1 :: rest
      ∧ global_refs (rt w1) !! 0 = None
      ∧ run [(all_ok, ResultReady false kMpOk (Some one_hand) 7)] w1
        = Some ((), w2)
      ∧ hl_target w2 = Some second_callback_object.
Proof.
  assert (run landmarker_calls initial = Some ((), landmarker_session))
    as Hrun by reflexivity.
  split; [exact Hrun|].
  destruct (C6_single_callback landmarker_calls landmarker_session Hrun)
    as (Hinv & Hhl & _).
  split; [exact Hinv|].
  destruct (Hhl all_ok "other.task"%string second_callback_object)
    as (h & w1 & rest & Hc & Htr & Hdead & _ & _ & Hlater).
  destruct (run [(all_ok, ResultReady false kMpOk (Some one_hand) 7%Z)] w1)
    as [[[] w2]|] eqn:Hrun2.
  - exists h, w1, w2, rest. split; [exact Hc|]. split; [exact Htr|].
    split; [apply Hdead; reflexivity|]. split; [exact Hrun2|].
    destruct (Hlater [(all_ok, ResultReady false kMpOk (Some one_hand) 7%Z)]
                w2) as [Htgt _]; [|exact Hrun2|exact Htgt].
    apply Forall_cons. split; [exact I|apply Forall_nil_2].
  - exfalso. vm_compute in Hc. injection Hc as <- <-.
    vm_compute in Hrun2. discriminate.
Defined.

(** ** Registration: what the create functions return and leave *)

(** Equality of a result and state with the one written out. *)
Ltac world_eq :=
  do 2 f_equal; unfold log, upd_mp; mrun;
  f_equal; rewrite <- ?app_assoc; reflexivity.

(** [nativeCreateLandmarker], path by path. *)
Lemma nativeCreateLandmarker_exact o path cb w :
  nativeCreateLandmarker o path (Some cb) w =
    Some (match g_hl_onResult (st (hl_registered cb w)) with
          | None => (0%Z, log [EvThrowNew hl_not_found] (hl_registered cb w))
          | Some _ =>
              match create_error o with
              | Some err =>
                  (0%Z, log [EvLandmarkerCreate (hl_options path) None;
                             EvThrowNew (snprintf_512 (hl_create_failed err))]
                            (hl_registered cb w))
              | None =>
                  (next_ptr (mp w),
                   log [EvLandmarkerCreate (hl_options path)
                                           (Some (next_ptr (mp w)))]
                       (upd_mp with_landmarker (hl_registered cb w)))
              end
          end).
Proof.
  unfold nativeCreateLandmarker, hl_registered, replaced, release_old,
    with_landmarker, hl_not_found, hl_create_failed.
  destruct w as [[jv hc hm gc gm] [refs nr att] [lm rc np im ni] t]. mrun.
  destruct hc as [r0|]; mrun;
    (destruct (GetMethodID (obj_methods cb) _ _) as [m|]; mrun;
     [destruct (create_error o) as [msg|]; mrun|]);
    world_eq.
Qed.

Lemma nativeCreateGestureRecognizer_exact o path n cb w :
  nativeCreateGestureRecognizer o path n (Some cb) w =
    Some (match g_gr_onResult (st (gr_registered cb w)) with
          | None => (0%Z, log [EvThrowNew gr_not_found] (gr_registered cb w))
          | Some _ =>
              match create_error o with
              | Some err =>
                  (0%Z, log [EvRecognizerCreate (gr_options path n) None;
                             EvThrowNew (snprintf_512 (gr_create_failed err))]
                            (gr_registered cb w))
              | None =>
                  (next_ptr (mp w),
                   log [EvRecognizerCreate (gr_options path n)
                                           (Some (next_ptr (mp w)))]
                       (upd_mp with_recognizer (gr_registered cb w)))
              end
          end).
Proof.
  unfold nativeCreateGestureRecognizer, gr_registered, replaced, release_old,
    with_recognizer, gr_not_found, gr_create_failed.
  destruct w as [[jv hc hm gc gm] [refs nr att] [lm rc np im ni] t]. mrun.
  destruct gc as [r0|]; mrun;
    (destruct (GetMethodID (obj_methods cb) _ _) as [m|]; mrun;
     [destruct (create_error o) as [msg|]; mrun|]);
    world_eq.
Qed.

(** The callback object is the target of deliveries as soon as it is
    registered, whatever happens next in the create function. *)
Lemma hl_registered_target cb w : hl_target (hl_registered cb w) = Some cb.
Proof.
  unfold hl_target, hl_registered, replaced. cbn. apply lookup_insert_eq.
Qed.

Lemma gr_registered_target cb w : gr_target (gr_registered cb w) = Some cb.
Proof.
  unfold gr_target, gr_registered, replaced. cbn. apply lookup_insert_eq.
Qed.

Lemma GetMethodID_Some cls name sig :
  (name, sig) ∈ cls → GetMethodID cls name sig = Some (name, sig).
Proof. intros Hin. unfold GetMethodID. by rewrite decide_True. Qed.







(** ** Deliveries through a callback that is not set up *)









(** ** The message of a failed creation *)

Lemma substring_0_length n s :
  String.length (substring 0 n s) = n `min` String.length s.
Proof.
  revert n. induction s as [|c s IH]; intros [|n]; cbn; try done.
  by rewrite IH.
Qed.

Lemma substring_0_prefix n s : String.prefix (substring 0 n s) s = true.
Proof.
  revert n. induction s as [|c s IH]; intros [|n]; cbn; try done.
  destruct (ascii_dec c c); [apply IH|done].
Qed.

Lemma substring_0_all n s : String.length s ≤ n → substring 0 n s = s.
Proof.
  revert n. induction s as [|c s IH]; intros [|n]; cbn; try done; try lia.
  intros Hn. rewrite IH; [done|lia].
Qed.

Lemma append_length s1 s2 :
  String.length (s1 +:+ s2) = String.length s1 + String.length s2.
Proof. induction s1 as [|c s1 IH]; simpl; [done|by f_equal]. Qed.

(** What [snprintf] leaves in the buffer of 512 bytes. *)
Lemma snprintf_512_spec s :
  String.length (snprintf_512 s) = 511 `min` String.length s
  ∧ String.prefix (snprintf_512 s) s = true
  ∧ (String.length s ≤ 511 → snprintf_512 s = s).
Proof.
  unfold snprintf_512. split; [apply substring_0_length|].
  split; [apply substring_0_prefix|apply substring_0_all].
Qed.

(** X6. When the engine fails to create the task, each create function
    throws one exception and returns 0; no task is added, and the callback
    registered before the engine was asked stays registered.  The message
    of the exception is the text [Mp...Create failed: ] followed by the
    engine's message, or by [unknown error] when the engine gave none, cut
    to the 511 characters that fit the buffer of 512 bytes: it is never
    longer, it is a prefix of the full text, and it is the full text when
    the engine's message has at most 480 characters (477 for the gesture
    recognizer). *)
Theorem create_failure_message o path n cb w err :
  create_error o = Some err →
  (hl_onResult_id ∈ obj_methods cb →
   ∃ w1 msg,
     nativeCreateLandmarker o path (Some cb) w = Some (0%Z, w1)
     ∧ trace w1 = trace w ++ release_old (g_hl_callback (st w))
                  ++ [EvNewGlobalRef cb (next_ref (rt w));
                      EvLandmarkerCreate (hl_options path) None;
                      EvThrowNew msg]
     ∧ String.length msg ≤ 511
     ∧ String.prefix msg ("MpHandLandmarkerCreate failed: "
                          +:+ error_text err) = true
     ∧ (String.length (error_text err) ≤ 480 →
        msg = "MpHandLandmarkerCreate failed: " +:+ error_text err)
     ∧ landmarkers (mp w1) = landmarkers (mp w)
     ∧ hl_target w1 = Some cb)
  ∧ (gr_onResult_id ∈ obj_methods cb →
     ∃ w1 msg,
       nativeCreateGestureRecognizer o path n (Some cb) w = Some (0%Z, w1)
       ∧ trace w1 = trace w ++ release_old (g_gr_callback (st w))
                    ++ [EvNewGlobalRef cb (next_ref (rt w));
                        EvRecognizerCreate (gr_options path n) None;
                        EvThrowNew msg]
       ∧ String.length msg ≤ 511
       ∧ String.prefix msg ("MpGestureRecognizerCreate failed: "
                            +:+ error_text err) = true
       ∧ (String.length (error_text err) ≤ 477 →
          msg = "MpGestureRecognizerCreate failed: " +:+ error_text err)
       ∧ recognizers (mp w1) = recognizers (mp w)
       ∧ gr_target w1 = Some cb).
Proof.
  intros Herr. split; intros Hin.
  - rewrite nativeCreateLandmarker_exact, Herr.
    assert (g_hl_onResult (st (hl_registered cb w)) = Some hl_onResult_id)
      as -> by (by apply GetMethodID_Some).
    destruct (snprintf_512_spec (hl_create_failed err)) as (Hlen & Hpre & Hall).
    eexists _, _. split; [done|].
    split; [cbn; by rewrite <- !app_assoc|].
    split; [rewrite Hlen; lia|]. split; [exact Hpre|].
    split; [|split; [done|apply hl_registered_target]].
    intros Hshort. apply Hall. unfold hl_create_failed.
    rewrite append_length. cbn. lia.
  - rewrite nativeCreateGestureRecognizer_exact, Herr.
    assert (g_gr_onResult (st (gr_registered cb w)) = Some gr_onResult_id)
      as -> by (by apply GetMethodID_Some).
    destruct (snprintf_512_spec (gr_create_failed err)) as (Hlen & Hpre & Hall).
    eexists _, _. split; [done|].
    split; [cbn; by rewrite <- !app_assoc|].
    split; [rewrite Hlen; lia|]. split; [exact Hpre|].
    split; [|split; [done|apply gr_registered_target]].
    intros Hshort. apply Hall. unfold gr_create_failed.
    rewrite append_length. cbn. lia.
Qed.

(** X6 on a landmarker whose model the engine does not find. *)
Lemma create_failure_message_witness :
  create_error create_fails = Some (Some "model not found"%string)
  ∧ hl_onResult_id ∈ obj_methods hl_callback_object
  ∧ ∃ w1,
      nativeCreateLandmarker create_fails "hand_landmarker.task"
        (Some hl_callback_object) loaded = Some (0%Z, w1)
      ∧ trace w1 = trace loaded
          ++ [EvNewGlobalRef hl_callback_object 0;
              EvLandmarkerCreate (hl_options "hand_landmarker.task") None;
              EvThrowNew "MpHandLandmarkerCreate failed: model not found"].
Proof.
  split; [reflexivity|].
  assert (hl_onResult_id ∈ obj_methods hl_callback_object) as Hin
    by apply list_elem_of_here.
  split; [exact Hin|].
  destruct (create_failure_message create_fails "hand_landmarker.task"%string
              0%Z hl_callback_object loaded (Some "model not found"%string)
              eq_refl) as [Hhl _].
  destruct (Hhl Hin) as (w1 & msg & Hrun & Htr & _ & _ & Hfull & _).
  exists w1. split; [exact Hrun|]. rewrite Htr, Hfull; [reflexivity|].
  vm_compute. lia.
Defined.

(** ** The helper that attaches the thread *)

(** X7. [attach_jvm] always returns.  It returns an [env] exactly when the
    thread is attached afterwards and the runtime accepted the version; it
    sets [needs_detach] exactly when it attached the thread itself, that is
    when the thread was not attached before and an [env] is returned; when
    it returns no [env] the thread is attached or not as it was before.  It
    asks the runtime for the [env] first, attaches at most once, and changes
    nothing else. *)
Theorem attach_jvm_contract o w :
  ∃ env needs_detach w' res t,
    attach_jvm o w = Some ((env, needs_detach), w')
    ∧ (env = true ↔ env_available o w = true)
    ∧ (env = true → attached (rt w') = true)
    ∧ (needs_detach = true ↔ attached (rt w) = false ∧ env = true)
    ∧ (env = false → attached (rt w') = attached (rt w))
    ∧ trace w' = trace w ++ EvGetEnv res :: t
    ∧ (t = [] ∨ ∃ rc, t = [EvAttachCurrentThread rc])
    ∧ (t = [] ↔ attached (rt w) = true)
    ∧ st w' = st w ∧ mp w' = mp w
    ∧ global_refs (rt w') = global_refs (rt w)
    ∧ next_ref (rt w') = next_ref (rt w).
Proof.
  rewrite attach_jvm_run. unfold env_available.
  destruct w as [s [refs nr att] e t]. cbn.
  destruct att; [destruct (jni_version_ok o)|destruct (attach_ok o)];
    eexists _, _, _, _, _; (split; [done|]); cbn;
    split_and!; try done; try (by left); try (right; by eexists);
    try (by intros []); try (split; done); try (by split; [|intros []]).
Qed.

(** X7 on a thread of the engine that is not attached. *)
Lemma attach_jvm_contract_witness :
  ∃ w', attach_jvm all_ok (upd_rt (set_attached false) loaded)
        = Some ((true, true), w')
    ∧ attached (rt w') = true.
Proof.
  destruct (attach_jvm_contract all_ok (upd_rt (set_attached false) loaded))
    as (env & nd & w' & res & t & Hrun & _ & Hatt & _).
  assert (env = true ∧ nd = true) as [-> ->].
  { vm_compute in Hrun. by injection Hrun as <- <- _. }
  exists w'. split; [exact Hrun|]. apply Hatt. reflexivity.
Defined.

(** ** Calls, one at a time *)

Lemma nativeCloseLandmarker_exact h w :
  nativeCloseLandmarker h w =
    Some ((), World
      (if g_hl_callback (st w) is Some _
       then set_g_hl_onResult None (set_g_hl_callback None (st w))
       else st w)
      (if g_hl_callback (st w) is Some r
       then set_global_refs (delete r (global_refs (rt w))) (rt w)
       else rt w)
      (set_landmarkers (landmarkers (mp w) ∖ {[h]}) (mp w))
      (trace w ++ EvLandmarkerClose h (bool_decide (h ∈ landmarkers (mp w)))
               :: release_old (g_hl_callback (st w)))).
Proof.
  unfold nativeCloseLandmarker, release_old.
  destruct w as [[jv hc hm gc gm] [refs nr att] [lm rc np im ni] t]. mrun.
  destruct hc as [r|]; mrun; world_eq.
Qed.

Lemma nativeCloseGestureRecognizer_exact h w :
  nativeCloseGestureRecognizer h w =
    Some ((), World
      (if g_gr_callback (st w) is Some _
       then set_g_gr_onResult None (set_g_gr_callback None (st w))
       else st w)
      (if g_gr_callback (st w) is Some r
       then set_global_refs (delete r (global_refs (rt w))) (rt w)
       else rt w)
      (set_recognizers (recognizers (mp w) ∖ {[h]}) (mp w))
      (trace w ++ EvRecognizerClose h (bool_decide (h ∈ recognizers (mp w)))
               :: release_old (g_gr_callback (st w)))).
Proof.
  unfold nativeCloseGestureRecognizer, release_old.
  destruct w as [[jv hc hm gc gm] [refs nr att] [lm rc np im ni] t]. mrun.
  destruct gc as [r|]; mrun; world_eq.
Qed.

(** A delivery changes neither the statics nor the engine, touches no image,
    and does nothing at all when the library is not loaded or no callback is
    registered. *)
Lemma hl_on_result_quiet o status result ts w w' :
  hl_on_result o status result ts w = Some ((), w') →
  st w' = st w ∧ mp w' = mp w
  ∧ ∃ t, trace w' = trace w ++ t
      ∧ existsb touches_image t = false
      ∧ (g_jvm (st w) = false ∨ g_hl_callback (st w) = None → t = []).
Proof.
  unfold hl_on_result. mrun.
  case_bool_decide as Hg.
  { intros [= <-]. split; [done|]. split; [done|]. exists [].
    by rewrite app_nil_r. }
  rewrite bind_run, attach_jvm_run.
  destruct w as [[jv hc hm gc gm] [refs nr att] e t]. mrun.
  cbn in Hg.
  destruct att.
  - destruct (jni_version_ok o); mrun.
    + destruct (hl_jResult status result) as [jr|]; mrun; [|done].
      destruct hc as [r|]; [|done]. destruct hm as [m|]; [|done]. mrun.
      destruct (refs !! r) as [ob|] eqn:Hob; [|done]. mrun.
      destruct jr; mrun; intros [= <-]; (split; [done|]); (split; [done|]);
        eexists; (split; [trace_eq|]); (split; [done|]);
        intros Hc; by destruct Hg.
    + intros [= <-]. split; [done|]. split; [done|].
      eexists; split; [trace_eq|]. split; [done|].
      intros Hc; by destruct Hg.
  - destruct (attach_ok o); mrun.
    + destruct (hl_jResult status result) as [jr|]; mrun; [|done].
      destruct hc as [r|]; [|done]. destruct hm as [m|]; [|done]. mrun.
      destruct (refs !! r) as [ob|] eqn:Hob; [|done]. mrun.
      destruct jr; mrun; intros [= <-]; (split; [done|]); (split; [done|]);
        eexists; (split; [trace_eq|]); (split; [done|]);
        intros Hc; by destruct Hg.
    + intros [= <-]. split; [done|]. split; [done|].
      eexists; split; [trace_eq|]. split; [done|].
      intros Hc; by destruct Hg.
Qed.

(** [nativeDetectAsync] always returns.  It changes neither the statics nor
    the runtime and invokes nothing; it frees the image it created exactly
    when the submission failed. *)
Lemma nativeDetectAsync_facts o h (px : list Byte.byte) wd ht ts w :
  ∃ w' t, nativeDetectAsync o h px wd ht ts w = Some ((), w')
    ∧ st w' = st w ∧ rt w' = rt w
    ∧ trace w' = trace w ++ t
    ∧ existsb is_call t = false
    ∧ freed t = rejected t
    ∧ sync_images t = []
    ∧ (async_images t = [] ∧ next_image (mp w') = next_image (mp w)
       ∨ async_images t = [next_image (mp w)]
         ∧ next_image (mp w') = S (next_image (mp w))).
Proof.
  unfold nativeDetectAsync.
  destruct w as [s j [lm rc np im ni] t]. mrun.
  destruct (image_create_ok o wd ht _); mrun.
  - destruct (detect_async_status o); mrun;
      eexists _, _; (split; [done|]); (split; [done|]); (split; [done|]);
      (split; [trace_eq|]); split_and!; try done; by right.
  - eexists _, _. split; [done|]. split; [done|]. split; [done|].
    split; [trace_eq|]. split_and!; try done. by left.
Qed.

(** [nativeRecognizeGestureForVideo], when it returns, has changed neither
    the statics nor the runtime, has invoked no callback of the landmarker's
    shape, and has freed no image. *)
Lemma nativeRecognizeGestureForVideo_facts o h (px : list Byte.byte)
    wd ht ts w b w' :
  nativeRecognizeGestureForVideo o h px wd ht ts w = Some (b, w') →
  st w' = st w ∧ rt w' = rt w
  ∧ ∃ t, trace w' = trace w ++ t
      ∧ existsb is_hl_call t = false
      ∧ freed t = [] ∧ rejected t = [] ∧ async_images t = []
      ∧ (sync_images t = [] ∧ next_image (mp w') = next_image (mp w)
         ∨ sync_images t = [next_image (mp w)]
           ∧ next_image (mp w') = S (next_image (mp w))).
Proof.
  unfold nativeRecognizeGestureForVideo, gr_deliver_result.
  destruct w as [[jv hc hm gc gm] [refs nr att] [lm rc np im ni] t]. mrun.
  destruct (image_create_ok o wd ht _); mrun.
  - destruct (recognize_result o) as [r|]; mrun.
    + destruct (gr_packed (Some r)) as [p|]; mrun; [|done].
      destruct gc as [ref|]; [|done]. destruct gm as [m|]; [|done]. mrun.
      destruct (refs !! ref) as [ob|] eqn:Hob; [|done]. mrun.
      destruct p as [[b1 n1]|]; mrun; intros [= <- <-];
        (split; [done|]); (split; [done|]);
        eexists; (split; [trace_eq|]); split_and!; try done; by right.
    + intros [= <- <-]. split; [done|]. split; [done|].
      eexists; split; [trace_eq|]. split_and!; try done. by right.
  - intros [= <- <-]. split; [done|]. split; [done|].
    eexists; split; [trace_eq|]. split_and!; try done. by left.
Qed.

Lemma is_hl_call_is_call t :
  existsb is_call t = false → existsb is_hl_call t = false.
Proof.
  induction t as [|e t IH]; [done|]. cbn.
  intros [He Ht]%orb_false_iff. rewrite IH by done.
  by destruct e.
Qed.

Lemma quiet_events t :
  existsb touches_image t = false →
  freed t = [] ∧ rejected t = [] ∧ async_images t = [] ∧ sync_images t = [].
Proof.
  induction t as [|e t IH]; [done|]. cbn.
  intros [He Ht]%orb_false_iff. destruct (IH Ht) as (H1 & H2 & H3 & H4).
  unfold freed, rejected, async_images, sync_images in *. cbn.
  rewrite H1, H2, H3, H4. by destruct e.
Qed.

Lemma release_old_quiet old t :
  existsb touches_image (release_old old ++ t) = existsb touches_image t
  ∧ existsb is_hl_call (release_old old ++ t) = existsb is_hl_call t.
Proof. by destruct old. Qed.

(** One call: the library stays loaded or not unless the call is the load,
    no landmarker callback appears unless the call creates a landmarker, and
    no callback of the landmarker's shape is invoked while the library is
    not loaded or no landmarker callback is registered. *)
Lemma step_hl_calls oc w w' :
  step oc w = Some ((), w') →
  (loads_not oc → g_jvm (st w') = g_jvm (st w))
  ∧ (creates_no_landmarker oc → g_hl_callback (st w) = None →
     g_hl_callback (st w') = None)
  ∧ ∃ t, trace w' = trace w ++ t
      ∧ (g_jvm (st w) = false ∨ g_hl_callback (st w) = None →
         existsb is_hl_call t = false).
Proof.
  destruct oc as [o c]. unfold step, loads_not, creates_no_landmarker.
  cbn [fst snd].
  destruct c as [|p cb|h px wd ht ts|h|p n cb|h px wd ht ts|h|a status res ts];
    rewrite bind_run; cbn [on_thread modify].
  - (* OnLoad *)
    unfold JNI_OnLoad. mrun. intros [= <-]. split; [intros []|].
    split; [done|]. exists []. by rewrite app_nil_r.
  - (* CreateLandmarker *)
    destruct cb as [cb|];
      [|by rewrite bind_run, nativeCreateLandmarker_null].
    rewrite bind_run, nativeCreateLandmarker_exact.
    destruct (g_hl_onResult _); [destruct (create_error o)|];
      intros [= <-]; (split; [done|]); (split; [intros []|]);
      eexists; (split; [cbn; rewrite <- ?app_assoc; reflexivity|]);
      intros _; by rewrite (proj2 (release_old_quiet _ _)).
  - (* DetectAsync *)
    destruct (nativeDetectAsync_facts o h px wd ht ts
                (upd_rt (set_attached true) w))
      as (w1 & t & Hrun & Hst & _ & Htr & Hno & _).
    rewrite Hrun. intros [= <-]. rewrite Hst. split; [done|]. split; [done|].
    exists t. split; [done|]. intros _. by apply is_hl_call_is_call.
  - (* CloseLandmarker *)
    rewrite nativeCloseLandmarker_exact. intros [= <-].
    split; [by destruct w as [[jv [r|] hm gc gm] j e t]|].
    split; [by destruct w as [[jv [r|] hm gc gm] j e t]|].
    eexists. split; [reflexivity|]. intros _. cbn.
    by destruct (g_hl_callback (st w)).
  - (* CreateGestureRecognizer *)
    destruct cb as [cb|];
      [|by rewrite bind_run, nativeCreateGestureRecognizer_null].
    rewrite bind_run, nativeCreateGestureRecognizer_exact.
    destruct (g_gr_onResult _); [destruct (create_error o)|];
      intros [= <-]; (split; [done|]); (split; [done|]);
      eexists; (split; [cbn; rewrite <- ?app_assoc; reflexivity|]);
      intros _; by rewrite (proj2 (release_old_quiet _ _)).
  - (* RecognizeGestureForVideo *)
    rewrite bind_run.
    destruct (nativeRecognizeGestureForVideo o h px wd ht ts _)
      as [[b w1]|] eqn:Hrun; [|done].
    intros [= <-].
    destruct (nativeRecognizeGestureForVideo_facts _ _ _ _ _ _ _ _ _ Hrun)
      as (Hst & _ & t & Htr & Hno & _).
    rewrite Hst. split; [done|]. split; [done|]. by exists t.
  - (* CloseGestureRecognizer *)
    rewrite nativeCloseGestureRecognizer_exact. intros [= <-].
    split; [by destruct w as [[jv hc hm [r|] gm] j e t]|].
    split; [by destruct w as [[jv hc hm [r|] gm] j e t]|].
    eexists. split; [reflexivity|]. intros _. cbn.
    by destruct (g_gr_callback (st w)).
  - (* ResultReady *)
    intros Hrun.
    destruct (hl_on_result_quiet _ _ _ _ _ _ Hrun)
      as (Hst & _ & t & Htr & _ & Hnil).
    rewrite Hst. split; [done|]. split; [done|].
    exists t. split; [done|]. intros Hg. by rewrite Hnil.
Qed.

(** X8. A callback of the landmarker's shape is invoked only when the
    library has been loaded and a landmarker callback is registered: a
    sequence of calls that starts where [JNI_OnLoad] has not run and does not
    contain it, or that starts where no landmarker callback is registered
    (before the first create, or after a close of any landmarker handle) and
    creates no landmarker, invokes no such callback, whatever results the
    engine delivers in between; they are dropped without a trace. *)
Theorem hl_delivery_needs_load_and_callback cs w w' :
  (g_jvm (st w) = false ∧ Forall loads_not cs)
  ∨ (g_hl_callback (st w) = None ∧ Forall creates_no_landmarker cs) →
  run cs w = Some ((), w') →
  ∃ t, trace w' = trace w ++ t ∧ existsb is_hl_call t = false.
Proof.
  revert w. induction cs as [|c cs IH]; intros w Hpre; cbn [run].
  - intros [= <-]. exists []. by rewrite app_nil_r.
  - rewrite bind_run. destruct (step c w) as [[[] w1]|] eqn:Hstep; [|done].
    intros Hrun.
    destruct (step_hl_calls c w w1 Hstep) as (Hjvm & Hcb & t1 & Htr1 & Hno1).
    destruct (IH w1) as (t2 & Htr2 & Hno2); [|done|].
    { destruct Hpre as [[Hj Hcs]|[Hc Hcs]];
        apply Forall_cons in Hcs as [Hc1 Hcs].
      - left. split; [|done]. by rewrite Hjvm.
      - right. split; [|done]. by apply Hcb. }
    exists (t1 ++ t2). split; [by rewrite Htr2, Htr1, app_assoc|].
    rewrite existsb_app, Hno2, Hno1; [done|].
    destruct Hpre as [[Hj _]|[Hc _]]; [by left|by right].
Qed.

(** X8 on a landmarker session that is closed while a result is on its way:
    the result that arrives after the close is dropped. *)
Lemma hl_delivery_needs_load_and_callback_witness :
  ∃ w1 w2 t,
    nativeCloseLandmarker 1 landmarker_session = Some ((), w1)
    ∧ g_hl_callback (st w1) = None
    ∧ run [(all_ok, ResultReady false kMpOk (Some one_hand) 7)] w1
      = Some ((), w2)
    ∧ trace w2 = trace w1 ++ t
    ∧ existsb is_hl_call t = false.
Proof.
  destruct (nativeCloseLandmarker 1 landmarker_session) as [[[] w1]|] eqn:Hc;
    [|vm_compute in Hc; discriminate].
  assert (g_hl_callback (st w1) = None) as Hnone.
  { vm_compute in Hc. injection Hc as <-. reflexivity. }
  destruct (run [(all_ok, ResultReady false kMpOk (Some one_hand) 7%Z)] w1)
    as [[[] w2]|] eqn:Hrun.
  - destruct (hl_delivery_needs_load_and_callback
                [(all_ok, ResultReady false kMpOk (Some one_hand) 7%Z)] w1 w2)
      as (t & Htr & Hno); [|exact Hrun|].
    + right. split; [exact Hnone|].
      apply Forall_cons. split; [exact I|apply Forall_nil_2].
    + exists w1, w2, t. split; [reflexivity|]. split; [exact Hnone|].
      split; [exact Hrun|]. split; [exact Htr|exact Hno].
  - exfalso. vm_compute in Hc. injection Hc as <-.
    vm_compute in Hrun. discriminate.
Defined.

(** ** Images *)

(** One call creates at most one image, hands it to one inference call, and
    frees it exactly when that call was an asynchronous submission that
    failed. *)
Lemma step_images oc w w' :
  step oc w = Some ((), w') →
  ∃ t, trace w' = trace w ++ t
    ∧ freed t = rejected t
    ∧ (async_images t = [] ∧ sync_images t = []
       ∧ next_image (mp w') = next_image (mp w)
       ∨ async_images t = [next_image (mp w)] ∧ sync_images t = []
         ∧ next_image (mp w') = S (next_image (mp w))
       ∨ async_images t = [] ∧ sync_images t = [next_image (mp w)]
         ∧ next_image (mp w') = S (next_image (mp w))).
Proof.
  destruct oc as [o c]. unfold step. cbn [fst snd].
  destruct c as [|p cb|h px wd ht ts|h|p n cb|h px wd ht ts|h|a status res ts];
    rewrite bind_run; cbn [on_thread modify].
  - (* OnLoad *)
    unfold JNI_OnLoad. mrun. intros [= <-]. exists [].
    split; [by rewrite app_nil_r|]. split; [done|]. by left.
  - (* CreateLandmarker *)
    destruct cb as [cb|];
      [|by rewrite bind_run, nativeCreateLandmarker_null].
    rewrite bind_run, nativeCreateLandmarker_exact.
    destruct (g_hl_onResult _); [destruct (create_error o)|];
      intros [= <-];
      eexists; (split; [cbn; rewrite <- ?app_assoc; reflexivity|]);
      (match goal with
       | |- context [freed ?t] =>
           destruct (quiet_events t) as (-> & -> & -> & ->)
       end; [by rewrite (proj1 (release_old_quiet _ _))|]);
      (split; [done|]); by left.
  - (* DetectAsync *)
    destruct (nativeDetectAsync_facts o h px wd ht ts
                (upd_rt (set_attached true) w))
      as (w1 & t & Hrun & _ & _ & Htr & _ & Hfr & Hsy & Has).
    rewrite Hrun. intros [= <-]. exists t. split; [done|]. split; [done|].
    destruct Has as [[Ha Hn]|[Ha Hn]]; [left|right; left]; done.
  - (* CloseLandmarker *)
    rewrite nativeCloseLandmarker_exact. intros [= <-].
    eexists. split; [reflexivity|].
    match goal with
    | |- context [freed ?t] => destruct (quiet_events t) as (-> & -> & -> & ->)
    end; [cbn; by destruct (g_hl_callback (st w))|].
    split; [done|]. by left.
  - (* CreateGestureRecognizer *)
    destruct cb as [cb|];
      [|by rewrite bind_run, nativeCreateGestureRecognizer_null].
    rewrite bind_run, nativeCreateGestureRecognizer_exact.
    destruct (g_gr_onResult _); [destruct (create_error o)|];
      intros [= <-];
      eexists; (split; [cbn; rewrite <- ?app_assoc; reflexivity|]);
      (match goal with
       | |- context [freed ?t] =>
           destruct (quiet_events t) as (-> & -> & -> & ->)
       end; [by rewrite (proj1 (release_old_quiet _ _))|]);
      (split; [done|]); by left.
  - (* RecognizeGestureForVideo *)
    rewrite bind_run.
    destruct (nativeRecognizeGestureForVideo o h px wd ht ts _)
      as [[b w1]|] eqn:Hrun; [|done].
    intros [= <-].
    destruct (nativeRecognizeGestureForVideo_facts _ _ _ _ _ _ _ _ _ Hrun)
      as (_ & _ & t & Htr & _ & Hfr & Hrj & Has & Hsy).
    exists t. split; [done|]. split; [by rewrite Hfr, Hrj|].
    destruct Hsy as [[Hs Hn]|[Hs Hn]]; [left|right; right]; done.
  - (* CloseGestureRecognizer *)
    rewrite nativeCloseGestureRecognizer_exact. intros [= <-].
    eexists. split; [reflexivity|].
    match goal with
    | |- context [freed ?t] => destruct (quiet_events t) as (-> & -> & -> & ->)
    end; [cbn; by destruct (g_gr_callback (st w))|].
    split; [done|]. by left.
  - (* ResultReady *)
    intros Hrun.
    destruct (hl_on_result_quiet _ _ _ _ _ _ Hrun)
      as (_ & Hmp & t & Htr & Hq & _).
    exists t. split; [done|].
    destruct (quiet_events t Hq) as (-> & -> & -> & ->).
    split; [done|]. left. by rewrite Hmp.
Qed.

Lemma rejected_async t i : i ∈ rejected t → i ∈ async_images t.
Proof.
  unfold rejected, async_images.
  induction t as [|e t IH]; cbn; [by intros ?%elem_of_nil|].
  destruct e; try done. destruct status; cbn.
  - intros Hin. by apply list_elem_of_further, IH.
  - intros [->|Hin]%elem_of_cons; [apply list_elem_of_here|].
    by apply list_elem_of_further, IH.
Qed.

Lemma images_app t1 t2 :
  freed (t1 ++ t2) = freed t1 ++ freed t2
  ∧ rejected (t1 ++ t2) = rejected t1 ++ rejected t2
  ∧ async_images (t1 ++ t2) = async_images t1 ++ async_images t2
  ∧ sync_images (t1 ++ t2) = sync_images t1 ++ sync_images t2.
Proof. split_and!; apply omap_app. Qed.

(** A sequence of calls: the images it hands to inference calls are the ones
    it created, each handed to one call. *)
Lemma run_images cs w w' :
  run cs w = Some ((), w') →
  ∃ t, trace w' = trace w ++ t
    ∧ freed t = rejected t
    ∧ next_image (mp w) ≤ next_image (mp w')
    ∧ (∀ i, i ∈ async_images t ++ sync_images t →
            next_image (mp w) ≤ i < next_image (mp w'))
    ∧ (∀ i, i ∈ sync_images t → i ∉ async_images t).
Proof.
  revert w. induction cs as [|c cs IH]; intros w; cbn [run].
  - intros [= <-]. exists []. split; [by rewrite app_nil_r|].
    split; [done|]. split; [done|].
    split; intros i Hin; by apply elem_of_nil in Hin.
  - rewrite bind_run. destruct (step c w) as [[[] w1]|] eqn:Hstep; [|done].
    intros Hrun.
    destruct (step_images c w w1 Hstep) as (t1 & Htr1 & Hfr1 & Hcase).
    destruct (IH w1 Hrun) as (t2 & Htr2 & Hfr2 & Hle & Hrange & Hdisj).
    exists (t1 ++ t2). split; [by rewrite Htr2, Htr1, app_assoc|].
    destruct (images_app t1 t2) as (-> & -> & -> & ->).
    split; [by rewrite Hfr1, Hfr2|].
    assert (∀ i, i ∈ async_images t2 ∨ i ∈ sync_images t2 →
                 next_image (mp w1) ≤ i < next_image (mp w')) as Hrange2.
    { intros i Hin. apply Hrange, elem_of_app. done. }
    destruct Hcase as [(-> & -> & Hn)|[(-> & -> & Hn)|(-> & -> & Hn)]];
      cbn [app].
    + split; [lia|]. split; [|done].
      intros i Hin. specialize (Hrange i Hin). lia.
    + split; [lia|]. split.
      * intros i [->|Hin]%elem_of_cons; [lia|].
        specialize (Hrange i Hin). lia.
      * intros i Hin [->|Hin2]%elem_of_cons; [|by apply (Hdisj i)].
        specialize (Hrange2 _ (or_intror Hin)). lia.
    + split; [lia|]. split.
      * intros i Hin. apply elem_of_app in Hin as [Hin|Hin].
        -- specialize (Hrange2 _ (or_introl Hin)). lia.
        -- apply elem_of_cons in Hin as [->|Hin]; [lia|].
           specialize (Hrange2 _ (or_intror Hin)). lia.
      * intros i [->|Hin]%elem_of_cons; [|by apply Hdisj].
        intros Hin. specialize (Hrange2 _ (or_introl Hin)). lia.
Qed.

(** X9. Over every sequence of calls, the images the shim frees are exactly
    the images whose asynchronous submission failed, in the order of the
    submissions, each freed once; an image handed to the synchronous
    recognition is never freed by the shim, whether the recognition
    succeeds or fails. *)
Theorem images_freed_exactly_on_failed_submission cs w w' :
  run cs w = Some ((), w') →
  ∃ t, trace w' = trace w ++ t
    ∧ freed t = rejected t
    ∧ (∀ i, i ∈ sync_images t → i ∉ freed t).
Proof.
  intros Hrun.
  destruct (run_images cs w w' Hrun) as (t & Htr & Hfr & _ & _ & Hdisj).
  exists t. split; [done|]. split; [done|].
  intros i Hin Hfreed. apply (Hdisj i Hin). apply rejected_async.
  by rewrite <- Hfr.
Qed.

(** X9 on two frames of a landmarker and two of a gesture recognizer, one of
    each with an inference call that fails. *)
Lemma images_freed_exactly_on_failed_submission_witness :
  ∃ w' t, run mixed_frames both_sessions = Some ((), w')
    ∧ trace w' = trace both_sessions ++ t
    ∧ freed t = rejected t
    ∧ (∀ i, i ∈ sync_images t → i ∉ freed t).
Proof.
  destruct (run mixed_frames both_sessions) as [[[] w']|] eqn:Hrun;
    [|vm_compute in Hrun; discriminate].
  destruct (images_freed_exactly_on_failed_submission
              mixed_frames both_sessions w' Hrun) as (t & Htr & Hfr & Hsync).
  exists w', t. split; [reflexivity|]. split; [exact Htr|].
  split; [exact Hfr|exact Hsync].
Defined.

(** ** Hands beyond the second *)

Lemma first_category_take cats h :
  h < 2 → first_category (take 2 cats) h = first_category cats h.
Proof. intros Hh. unfold first_category. by rewrite lookup_take_lt. Qed.

Lemma count_of_take {A} (l : list A) :
  (count_of l < 2 ^ 31)%Z → (count_of (take 2 l) < 2 ^ 31)%Z.
Proof. unfold count_of. rewrite length_take. lia. Qed.

Lemma handedness_value_take hd h :
  h < 2 → (count_of hd < 2 ^ 31)%Z →
  handedness_value (take 2 hd) h = handedness_value hd h.
Proof.
  intros Hh Hc. rewrite !handedness_value_spec by by try apply count_of_take.
  by rewrite first_category_take.
Qed.

Lemma gesture_of_take gs h :
  h < 2 → (count_of gs < 2 ^ 31)%Z →
  gesture_of (take 2 gs) h = gesture_of gs h.
Proof.
  intros Hh Hc. rewrite !gesture_of_spec by by try apply count_of_take.
  by rewrite first_category_take.
Qed.

Lemma num_hands_take {A} (l : list A) :
  (count_of l < 2 ^ 31)%Z →
  num_hands (count_of (take 2 l)) = num_hands (count_of l)
  ∧ (0 ≤ num_hands (count_of l) ≤ 2)%Z.
Proof.
  intros Hc. pose proof (count_of_take l Hc) as Hc2.
  rewrite !num_hands_small by (unfold count_of in *; lia).
  unfold count_of. rewrite length_take. lia.
Qed.

Lemma hl_pack_first_two r :
  (count_of (hl_hand_landmarks r) < 2 ^ 31)%Z →
  (count_of (hl_handedness r) < 2 ^ 31)%Z →
  hl_pack {| hl_handedness := take 2 (hl_handedness r);
             hl_hand_landmarks := take 2 (hl_hand_landmarks r) |}
  = hl_pack r.
Proof.
  intros Hc Hd. unfold hl_pack. cbn [hl_handedness hl_hand_landmarks].
  destruct (num_hands_take (hl_hand_landmarks r) Hc) as [-> Hn].
  destruct (NewFloatArray _) as [buf|]; [|done]. obind.
  destruct (store buf 0 _) as [buf1|]; [|done]. obind.
  apply for_upto_ext. intros h b Hh.
  rewrite handedness_value_take by (done || lia).
  by rewrite lookup_take_lt by lia.
Qed.

Lemma gr_pack_first_two r :
  (count_of (gr_hand_landmarks r) < 2 ^ 31)%Z →
  (count_of (gr_handedness r) < 2 ^ 31)%Z →
  (count_of (gr_gestures r) < 2 ^ 31)%Z →
  gr_pack {| gr_gestures := take 2 (gr_gestures r);
             gr_handedness := take 2 (gr_handedness r);
             gr_hand_landmarks := take 2 (gr_hand_landmarks r) |}
  = gr_pack r.
Proof.
  intros Hc Hd Hg. unfold gr_pack.
  cbn [gr_gestures gr_handedness gr_hand_landmarks].
  destruct (num_hands_take (gr_hand_landmarks r) Hc) as [-> Hn].
  destruct (NewFloatArray _) as [buf|]; [|done]. obind.
  destruct (NewObjectArray _) as [names|]; [|done]. obind.
  destruct (store buf 0 _) as [buf1|]; [|done]. obind.
  apply for_upto_ext. intros h [b nm] Hh.
  rewrite handedness_value_take by (done || lia).
  rewrite gesture_of_take by (done || lia).
  by rewrite lookup_take_lt by lia.
Qed.

(** X10. Both packers read at most the first two entries of each array of a
    result: the result cut down to its first two hands, its first two
    handedness entries and its first two gesture entries packs to the same
    float array and, for the gesture recognizer, to the same label array, or
    faults in the same way.  The counts are ones the [int] casts preserve. *)
Theorem first_two_hands_determine_arrays (res : engine_result) :
  (count_of (hands_of res) < 2 ^ 31)%Z →
  (count_of (handedness_of res) < 2 ^ 31)%Z →
  (count_of (gestures_of res) < 2 ^ 31)%Z →
  packed_buffer (first_two res) = packed_buffer res
  ∧ packed_names (first_two res) = packed_names res.
Proof.
  intros Hc Hd Hg. destruct res as [r|r]; cbn in *.
  - by rewrite hl_pack_first_two.
  - by rewrite gr_pack_first_two.
Qed.

(** X10 on a landmarker result with three hands. *)
Lemma first_two_hands_determine_arrays_witness :
  (count_of (hands_of (LandmarkResult three_hands)) < 2 ^ 31)%Z
  ∧ packed_buffer (first_two (LandmarkResult three_hands))
    = packed_buffer (LandmarkResult three_hands).
Proof.
  assert (count_of (hands_of (LandmarkResult three_hands)) < 2 ^ 31)%Z
    as Hc by (vm_compute; reflexivity).
  split; [exact Hc|].
  apply (first_two_hands_determine_arrays (LandmarkResult three_hands) Hc).
  - vm_compute. reflexivity.
  - vm_compute. reflexivity.
Defined.

(** ** The two formats *)

(** X11. The gesture recognizer's float array is the landmarker's with one
    slot, the gesture score, inserted after the handedness of each hand: for
    the same hands and handedness, the two arrays have the same first
    element, and for every packed hand [h] the handedness at [1 + 65 h] and
    the 63 coordinate slots from [1 + 65 h + 2] of the one equal the
    handedness at [1 + 64 h] and the 63 coordinate slots from [1 + 64 h + 1]
    of the other. *)
Theorem gesture_format_extends_landmark_format (r : GestureRecognizerResult) :
  (0 < count_of (gr_hand_landmarks r) < 2 ^ 31)%Z →
  ∃ lbuf gbuf names,
    hl_pack (landmark_view r) = Some lbuf
    ∧ gr_pack r = Some (gbuf, names)
    ∧ length gbuf = length lbuf + length (gr_hand_landmarks r) `min` 2
    ∧ gbuf !! 0 = lbuf !! 0
    ∧ ∀ h, h < length (gr_hand_landmarks r) `min` 2 →
        gbuf !! (1 + h * 65) = lbuf !! (1 + h * 64)
        ∧ ∀ k, k < 63 →
            gbuf !! (1 + h * 65 + 2 + k) = lbuf !! (1 + h * 64 + 1 + k).
Proof.
  intros Hc.
  destruct (hl_pack_spec (landmark_view r) Hc)
    as (lbuf & Hl & Hllen & Hl0 & Hlh).
  destruct (gr_pack_spec r Hc) as (gbuf & names & Hg & Hglen & _ & Hg0 & Hgh).
  cbn [landmark_view hl_hand_landmarks hl_handedness] in *.
  exists lbuf, gbuf, names. split; [done|]. split; [done|].
  split; [lia|]. split; [by rewrite Hg0, Hl0|].
  intros h Hh.
  assert (h < 2) as Hh2 by lia.
  destruct (lookup_lt_is_Some_2 (gr_hand_landmarks r) h) as [lms Hlms];
    [lia|].
  destruct (Hlh h lms Hh2 Hlms) as (Hlhd & Hlat).
  destruct (Hgh h lms Hh2 Hlms) as (Hghd & _ & Hgat).
  split; [by rewrite Hghd, Hlhd|].
  intros k Hk.
  pose proof (Nat.div_mod_eq k 3) as Hdm.
  pose proof (Nat.mod_upper_bound k 3) as Hmod.
  assert (k `div` 3 < 21) as Hi by (apply Nat.Div0.div_lt_upper_bound; lia).
  destruct (Hlat _ Hi) as (Hl1 & Hl2 & Hl3).
  destruct (Hgat _ Hi) as (Hg1 & Hg2 & Hg3).
  destruct (k `mod` 3) as [|[|[|c]]] eqn:Hc3; [| | |lia].
  - replace (1 + h * 65 + 2 + k) with (1 + h * 65 + 2 + k `div` 3 * 3) by lia.
    replace (1 + h * 64 + 1 + k) with (1 + h * 64 + 1 + k `div` 3 * 3) by lia.
    by rewrite Hg1, Hl1.
  - replace (1 + h * 65 + 2 + k)
      with (1 + h * 65 + 2 + k `div` 3 * 3 + 1) by lia.
    replace (1 + h * 64 + 1 + k)
      with (1 + h * 64 + 1 + k `div` 3 * 3 + 1) by lia.
    by rewrite Hg2, Hl2.
  - replace (1 + h * 65 + 2 + k)
      with (1 + h * 65 + 2 + k `div` 3 * 3 + 2) by lia.
    replace (1 + h * 64 + 1 + k)
      with (1 + h * 64 + 1 + k `div` 3 * 3 + 2) by lia.
    by rewrite Hg3, Hl3.
Qed.

(** X11 on a gesture result of five hands. *)
Lemma gesture_format_extends_landmark_format_witness :
  (0 < count_of (gr_hand_landmarks five_hands) < 2 ^ 31)%Z
  ∧ ∃ lbuf gbuf names,
      hl_pack (landmark_view five_hands) = Some lbuf
      ∧ gr_pack five_hands = Some (gbuf, names)
      ∧ gbuf !! (1 + 1 * 65 + 2 + 4) = lbuf !! (1 + 1 * 64 + 1 + 4).
Proof.
  assert (0 < count_of (gr_hand_landmarks five_hands) < 2 ^ 31)%Z as Hc
    by (vm_compute; split; reflexivity).
  split; [exact Hc|].
  destruct (gesture_format_extends_landmark_format five_hands Hc)
    as (lbuf & gbuf & names & Hl & Hg & _ & _ & Hh).
  exists lbuf, gbuf, names. split; [exact Hl|]. split; [exact Hg|].
  destruct (Hh 1) as [_ Hk]; [vm_compute; lia|]. apply Hk. lia.
Defined.

(** ** The synchronous call and its return value *)

(** X12. When [nativeRecognizeGestureForVideo] returns, it returns true
    exactly when the engine created the image and completed the
    recognition, and then it has invoked the registered callback exactly
    once before returning, through the stored method and with the timestamp
    of the call; when it returns false it has invoked nothing.  No other
    callback is invoked. *)
Theorem recognize_returns_true_iff_delivered o h (px : list Byte.byte)
    wd ht ts w b w' :
  nativeRecognizeGestureForVideo o h px wd ht ts w = Some (b, w') →
  ∃ t, trace w' = trace w ++ t
    ∧ (b = true ↔ image_create_ok o wd ht (dataSize wd ht) = true
                  ∧ is_Some (recognize_result o))
    ∧ length (List.filter is_call t) = (if b then 1 else 0)
    ∧ (∀ ob mid args, EvCallVoidMethod ob mid args ∈ t →
         gr_target w = Some ob
         ∧ g_gr_onResult (st w) = Some mid
         ∧ ∃ jResult jNames, args = GrArgs jResult jNames ts)
    ∧ (b = true → last t = Some EvCloseResult).
Proof.
  unfold nativeRecognizeGestureForVideo, gr_deliver_result, gr_target,
    dataSize.
  destruct w as [[jv hc hm gc gm] [refs nr att] [lm rc np im ni] t]. mrun.
  destruct (image_create_ok o wd ht _); mrun.
  - destruct (recognize_result o) as [r|]; mrun.
    + destruct (gr_packed (Some r)) as [p|]; mrun; [|done].
      destruct gc as [ref|]; [|done]. destruct gm as [m|]; [|done]. mrun.
      destruct (refs !! ref) as [ob|] eqn:Hob; [|done]. mrun.
      destruct p as [[b1 n1]|]; mrun; intros [= <- <-];
        eexists; (split; [trace_eq|]); split_and!; try done;
        call_in_list; cbn; rewrite Hob; split_and!; try done;
        by eexists _, _.
    + intros [= <- <-]. eexists; split; [trace_eq|].
      split_and!; try done; [|call_in_list].
      split; [done|]. by intros [_ [? [=]]].
  - intros [= <- <-]. eexists; split; [trace_eq|].
    split_and!; try done; [|call_in_list]. split; [done|]. by intros [[=] _].
Qed.

(** X12 on a frame of a gesture session. *)
Lemma recognize_returns_true_iff_delivered_witness :
  ∃ w' t,
    nativeRecognizeGestureForVideo all_ok 1 one_pixel 1 1 7 gesture_session
    = Some (true, w')
    ∧ trace w' = trace gesture_session ++ t
    ∧ length (List.filter is_call t) = 1.
Proof.
  destruct (nativeRecognizeGestureForVideo all_ok 1 one_pixel 1 1 7
              gesture_session) as [[b w']|] eqn:Hrun;
    [|vm_compute in Hrun; discriminate].
  destruct (recognize_returns_true_iff_delivered _ _ _ _ _ _ _ _ _ Hrun)
    as (t & Htr & Hb & Hlen & _).
  assert (b = true) as ->.
  { apply Hb. split; [reflexivity|]. eexists. reflexivity. }
  exists w', t. split; [reflexivity|]. split; [exact Htr|exact Hlen].
Defined.

(** ** The size handed to the image constructor *)

Lemma CInt_wrap_range z : (CInt.int_min ≤ CInt.wrap z ≤ CInt.int_max)%Z.
Proof.
  unfold CInt.wrap, CInt.int_min, CInt.int_max.
  pose proof (Z.mod_pos_bound (z + 2 ^ 31) (2 ^ 32)). lia.
Qed.

Lemma CInt_wrap_congr z : ∃ k, (CInt.wrap z = z + k * 2 ^ 32)%Z.
Proof.
  unfold CInt.wrap. exists (- ((z + 2 ^ 31) `div` 2 ^ 32))%Z.
  pose proof (Z.div_mod (z + 2 ^ 31) (2 ^ 32)). lia.
Qed.

(** X13. The data size both frame functions hand to the image constructor
    is an [int] that differs from [width * height * 3] by a multiple of
    2^32; it is [width * height * 3] exactly when that product is in the
    range of [int], so for every frame of at most 715827882 pixels.  It is
    what [nativeDetectAsync] passes, with the width and the height, whatever
    the length of the pixel array. *)
Theorem dataSize_exact_iff_in_range wd ht :
  (CInt.int_min ≤ dataSize wd ht ≤ CInt.int_max)%Z
  ∧ (∃ k, dataSize wd ht = wd * ht * 3 + k * 2 ^ 32)%Z
  ∧ (dataSize wd ht = wd * ht * 3
     ↔ CInt.int_min ≤ wd * ht * 3 ≤ CInt.int_max)%Z
  ∧ ((0 ≤ wd)%Z → (0 ≤ ht)%Z → (wd * ht ≤ 715827882)%Z →
     dataSize wd ht = (wd * ht * 3)%Z)
  ∧ ∀ o h (px : list Byte.byte) ts w, ∃ w' res rest,
      nativeDetectAsync o h px wd ht ts w = Some ((), w')
      ∧ trace w' = trace w
          ++ EvImageCreate wd ht (dataSize wd ht) (length px) res :: rest.
Proof.
  assert (CInt.int_min ≤ dataSize wd ht ≤ CInt.int_max)%Z as Hrange
    by apply CInt_wrap_range.
  assert (∃ k, dataSize wd ht = wd * ht * 3 + k * 2 ^ 32)%Z as [k Hk].
  { unfold dataSize, CInt.mul.
    destruct (CInt_wrap_congr (wd * ht)) as [k1 ->].
    destruct (CInt_wrap_congr ((wd * ht + k1 * 2 ^ 32) * 3)) as [k2 ->].
    exists (3 * k1 + k2)%Z. lia. }
  assert (dataSize wd ht = wd * ht * 3
          ↔ CInt.int_min ≤ wd * ht * 3 ≤ CInt.int_max)%Z as Hiff.
  { unfold CInt.int_min, CInt.int_max in *. split; [intros <-; lia|lia]. }
  split; [done|]. split; [by exists k|]. split; [done|]. split.
  - intros Hw Hh Hpx. apply Hiff. unfold CInt.int_min, CInt.int_max. nia.
  - intros o h px ts w. unfold nativeDetectAsync. fold (dataSize wd ht).
    destruct w as [s j [lm rc np im ni] t]. mrun.
    destruct (image_create_ok o wd ht _); mrun.
    + destruct (detect_async_status o); mrun;
        eexists _, _, _; (split; [done|]); trace_eq.
    + eexists _, _, _. split; [done|]. trace_eq.
Qed.

(** X13 on a frame of 640 by 480 pixels: 921600 bytes. *)
Lemma dataSize_exact_iff_in_range_witness :
  (0 ≤ 640)%Z ∧ (0 ≤ 480)%Z ∧ (640 * 480 ≤ 715827882)%Z
  ∧ dataSize 640 480 = 921600%Z.
Proof.
  assert (0 ≤ 640)%Z as Hw by lia.
  assert (0 ≤ 480)%Z as Hh by lia.
  assert (640 * 480 ≤ 715827882)%Z as Hpx by lia.
  split; [exact Hw|]. split; [exact Hh|]. split; [exact Hpx|].
  destruct (dataSize_exact_iff_in_range 640 480) as (_ & _ & _ & Hexact & _).
  rewrite (Hexact Hw Hh Hpx). reflexivity.
Defined.

(** ** A session from its creation to its close *)

(** X14. A landmarker that is created and then closed leaves nothing
    behind: the create call releases the reference held before and makes
    one for the new callback, the close call hands the live handle to the
    engine and releases that reference; afterwards the landmarkers of the
    engine are the ones there were before, no landmarker callback is
    registered, the gesture recognizer's statics are untouched, and the live
    references are those of before without the one the landmarker static
    held.  The same holds for a gesture recognizer.  The engine hands out
    a handle, and the runtime a reference, that is not live. *)
Theorem create_then_close_leaves_nothing o path n cb w :
  create_error o = None →
  next_ptr (mp w) ∉ landmarkers (mp w) ∪ recognizers (mp w) →
  global_refs (rt w) !! next_ref (rt w) = None →
  (hl_onResult_id ∈ obj_methods cb →
   ∃ h w1 w2,
     nativeCreateLandmarker o path (Some cb) w = Some (h, w1)
     ∧ nativeCloseLandmarker h w1 = Some ((), w2)
     ∧ trace w2 = trace w ++ release_old (g_hl_callback (st w))
         ++ [EvNewGlobalRef cb (next_ref (rt w));
             EvLandmarkerCreate (hl_options path) (Some h);
             EvLandmarkerClose h true;
             EvDeleteGlobalRef (next_ref (rt w))]
     ∧ landmarkers (mp w2) = landmarkers (mp w)
     ∧ recognizers (mp w2) = recognizers (mp w)
     ∧ g_hl_callback (st w2) = None
     ∧ g_hl_onResult (st w2) = None
     ∧ g_gr_callback (st w2) = g_gr_callback (st w)
     ∧ g_gr_onResult (st w2) = g_gr_onResult (st w)
     ∧ global_refs (rt w2)
       = (if g_hl_callback (st w) is Some r then delete r (global_refs (rt w))
          else global_refs (rt w)))
  ∧ (gr_onResult_id ∈ obj_methods cb →
     ∃ h w1 w2,
       nativeCreateGestureRecognizer o path n (Some cb) w = Some (h, w1)
       ∧ nativeCloseGestureRecognizer h w1 = Some ((), w2)
       ∧ trace w2 = trace w ++ release_old (g_gr_callback (st w))
           ++ [EvNewGlobalRef cb (next_ref (rt w));
               EvRecognizerCreate (gr_options path n) (Some h);
               EvRecognizerClose h true;
               EvDeleteGlobalRef (next_ref (rt w))]
       ∧ landmarkers (mp w2) = landmarkers (mp w)
       ∧ recognizers (mp w2) = recognizers (mp w)
       ∧ g_gr_callback (st w2) = None
       ∧ g_gr_onResult (st w2) = None
       ∧ g_hl_callback (st w2) = g_hl_callback (st w)
       ∧ g_hl_onResult (st w2) = g_hl_onResult (st w)
       ∧ global_refs (rt w2)
         = (if g_gr_callback (st w) is Some r
            then delete r (global_refs (rt w))
            else global_refs (rt w))).
Proof.
  intros Herr Hfresh Href.
  apply not_elem_of_union in Hfresh as [Hlm Hrc].
  split; intros Hin.
  - rewrite nativeCreateLandmarker_exact, Herr.
    assert (g_hl_onResult (st (hl_registered cb w)) = Some hl_onResult_id)
      as -> by (by apply GetMethodID_Some).
    eexists _, _, _. split; [done|].
    rewrite nativeCloseLandmarker_exact. split; [done|].
    destruct w as [[jv hc hm gc gm] [refs nr att] [lm rc np im ni] t].
    cbn in *. rewrite bool_decide_true
      by (by apply elem_of_union_l, elem_of_singleton).
    split; [by rewrite <- !app_assoc|].
    split.
    { apply set_eq. intros x. rewrite elem_of_difference, elem_of_union,
        !elem_of_singleton. split; [intros [[->|?] ?]; done|].
      intros Hx. split; [by right|]. by intros ->. }
    split_and!; try done.
    unfold replaced. rewrite delete_insert_eq. apply delete_id.
    destruct hc as [r|]; [|done]. apply lookup_delete_None. by right.
  - rewrite nativeCreateGestureRecognizer_exact, Herr.
    assert (g_gr_onResult (st (gr_registered cb w)) = Some gr_onResult_id)
      as -> by (by apply GetMethodID_Some).
    eexists _, _, _. split; [done|].
    rewrite nativeCloseGestureRecognizer_exact. split; [done|].
    destruct w as [[jv hc hm gc gm] [refs nr att] [lm rc np im ni] t].
    cbn in *. rewrite bool_decide_true
      by (by apply elem_of_union_l, elem_of_singleton).
    split; [by rewrite <- !app_assoc|].
    split; [done|]. split.
    { apply set_eq. intros x. rewrite elem_of_difference, elem_of_union,
        !elem_of_singleton. split; [intros [[->|?] ?]; done|].
      intros Hx. split; [by right|]. by intros ->. }
    split_and!; try done.
    unfold replaced. rewrite delete_insert_eq. apply delete_id.
    destruct gc as [r|]; [|done]. apply lookup_delete_None. by right.
Qed.

(** X14 on the first landmarker of a loaded library: handle 1 and
    reference 0 are made and given back. *)
Lemma create_then_close_leaves_nothing_witness :
  create_error all_ok = None
  ∧ (next_ptr (mp loaded) ∉ landmarkers (mp loaded) ∪ recognizers (mp loaded))
  ∧ global_refs (rt loaded) !! next_ref (rt loaded) = None
  ∧ hl_onResult_id ∈ obj_methods hl_callback_object
  ∧ ∃ h w1 w2,
      nativeCreateLandmarker all_ok "hand_landmarker.task"
        (Some hl_callback_object) loaded = Some (h, w1)
      ∧ nativeCloseLandmarker h w1 = Some ((), w2)
      ∧ landmarkers (mp w2) = landmarkers (mp loaded)
      ∧ global_refs (rt w2) = global_refs (rt loaded).
Proof.
  assert (next_ptr (mp loaded) ∉ landmarkers (mp loaded)
                                 ∪ recognizers (mp loaded)) as Hfresh.
  { intros Hin. vm_compute in Hin. discriminate. }
  assert (hl_onResult_id ∈ obj_methods hl_callback_object) as Hin
    by apply list_elem_of_here.
  split; [reflexivity|]. split; [exact Hfresh|]. split; [reflexivity|].
  split; [exact Hin|].
  destruct (create_then_close_leaves_nothing all_ok
              "hand_landmarker.task"%string 0%Z hl_callback_object loaded
              eq_refl Hfresh eq_refl) as [Hhl _].
  destruct (Hhl Hin)
    as (h & w1 & w2 & Hc & Hx & _ & Hlm & _ & _ & _ & _ & _ & Hrefs).
  exists h, w1, w2. split; [exact Hc|]. split; [exact Hx|].
  split; [exact Hlm|exact Hrefs].
Defined.

(** ** Calls that return *)










